(** * update_index.py: extraction, scanning, rendering and the CLI driver

    A shallow embedding of [update_index.py].  Python text ([str]) is a list
    of Unicode code points, file contents are bytes decoded as UTF-8, and the
    file system, the two output streams and exceptions are threaded through
    a small state-and-exception monad. *)

From Stdlib Require Import String Ascii DecimalString.
From Stdlib Require Import NArith ZArith Bool Lia.
From Stdlib Require Import List Permutation Sorted.
From Stdlib Require Strings.Byte.
Import ListNotations.

Set Implicit Arguments.

(** ** Text *)

(** A code point of a Python [str]. *)
Definition char := N.
Bind Scope N_scope with char.

(** A Python [str]. *)
Definition str := list char.

(** The code points of an ASCII literal of the source. *)
Definition text (s : string) : str :=
  List.map N_of_ascii (list_ascii_of_string s).

Definition NL : char := 10%N.
Definition CR : char := 13%N.
Definition DQUOTE : char := 34%N.
Definition SQUOTE : char := 39%N.

Fixpoint str_eqb (a b : str) : bool :=
  match a, b with
  | [], [] => true
  | x :: a', y :: b' => N.eqb x y && str_eqb a' b'
  | _, _ => false
  end.

(** [a < b] on [str]: lexicographic on code points. *)
Fixpoint str_ltb (a b : str) : bool :=
  match a, b with
  | _, [] => false
  | [], _ :: _ => true
  | x :: a', y :: b' =>
      if N.ltb x y then true
      else if N.ltb y x then false
      else str_ltb a' b'
  end.

Definition in_range (lo hi c : N) : bool := N.leb lo c && N.leb c hi.

(** [str.isspace] on one code point, which is also the class [\s] of [re]
    on text patterns. *)
Definition is_space (c : char) : bool :=
  in_range 9 13 c || in_range 28 32 c || N.eqb c 133 || N.eqb c 160
  || N.eqb c 5760 || in_range 8192 8202 c || N.eqb c 8232 || N.eqb c 8233
  || N.eqb c 8239 || N.eqb c 8287 || N.eqb c 12288.

Fixpoint lstrip (s : str) : str :=
  match s with
  | c :: s' => if is_space c then lstrip s' else s
  | [] => []
  end.

Definition rstrip (s : str) : str := rev (lstrip (rev s)).

(** [s.strip()] *)
Definition strip (s : str) : str := rstrip (lstrip s).

(** *** Case mappings

    [str.lower] and [str.title] follow the case mappings and the properties
    [Cased] and [Case_Ignorable] of the Unicode character database
    (version 14.0.0), which the tables below hold. *)

(** A run [(lo, hi, step, image)] maps the code points [lo], [lo + step],
    and so on up to [hi]; [lo] goes to [image], and the others lie as far
    from [image] as they lie from [lo]. *)
Definition case_run : Type := (char * char * N * char)%type.

Definition run_image (c : char) (r : case_run) : option char :=
  let '(lo, hi, step, image) := r in
  if in_range lo hi c && N.eqb ((c - lo) mod step) 0
  then Some (image + (c - lo))%N
  else None.

Fixpoint find_image (c : char) (runs : list case_run) : option char :=
  match runs with
  | [] => None
  | r :: runs' =>
      match run_image c r with
      | Some x => Some x
      | None => find_image c runs'
      end
  end.

Fixpoint find_special (c : char) (table : list (char * str)) : option str :=
  match table with
  | [] => None
  | (k, l) :: table' => if N.eqb k c then Some l else find_special c table'
  end.

(** The full mapping of one code point: itself where the tables say
    nothing. *)
Definition case_full (runs : list case_run) (special : list (char * str))
    (c : char) : str :=
  match find_special c special with
  | Some l => l
  | None =>
      match find_image c runs with
      | Some x => [x]
      | None => [c]
      end
  end.

Definition in_ranges (c : char) (ranges : list (char * char)) : bool :=
  existsb (fun r => in_range (fst r) (snd r) c) ranges.

(** The code points whose lower case is one other code point. *)
Definition LOWER_RUNS : list case_run :=
  [(65, 90, 1, 97); (192, 214, 1, 224); (216, 222, 1, 248);
   (256, 302, 2, 257); (306, 310, 2, 307); (313, 327, 2, 314);
   (330, 374, 2, 331); (376, 376, 1, 255); (377, 381, 2, 378);
   (385, 385, 1, 595); (386, 388, 2, 387); (390, 390, 1, 596);
   (391, 391, 1, 392); (393, 394, 1, 598); (395, 395, 1, 396);
   (398, 398, 1, 477); (399, 399, 1, 601); (400, 400, 1, 603);
   (401, 401, 1, 402); (403, 403, 1, 608); (404, 404, 1, 611);
   (406, 406, 1, 617); (407, 407, 1, 616); (408, 408, 1, 409);
   (412, 412, 1, 623); (413, 413, 1, 626); (415, 415, 1, 629);
   (416, 420, 2, 417); (422, 422, 1, 640); (423, 423, 1, 424);
   (425, 425, 1, 643); (428, 428, 1, 429); (430, 430, 1, 648);
   (431, 431, 1, 432); (433, 434, 1, 650); (435, 437, 2, 436);
   (439, 439, 1, 658); (440, 440, 1, 441); (444, 444, 1, 445);
   (452, 452, 1, 454); (453, 453, 1, 454); (455, 455, 1, 457);
   (456, 456, 1, 457); (458, 458, 1, 460); (459, 475, 2, 460);
   (478, 494, 2, 479); (497, 497, 1, 499); (498, 500, 2, 499);
   (502, 502, 1, 405); (503, 503, 1, 447); (504, 542, 2, 505);
   (544, 544, 1, 414); (546, 562, 2, 547); (570, 570, 1, 11365);
   (571, 571, 1, 572); (573, 573, 1, 410); (574, 574, 1, 11366);
   (577, 577, 1, 578); (579, 579, 1, 384); (580, 580, 1, 649);
   (581, 581, 1, 652); (582, 590, 2, 583); (880, 882, 2, 881);
   (886, 886, 1, 887); (895, 895, 1, 1011); (902, 902, 1, 940);
   (904, 906, 1, 941); (908, 908, 1, 972); (910, 911, 1, 973);
   (913, 929, 1, 945); (931, 939, 1, 963); (975, 975, 1, 983);
   (984, 1006, 2, 985); (1012, 1012, 1, 952); (1015, 1015, 1, 1016);
   (1017, 1017, 1, 1010); (1018, 1018, 1, 1019); (1021, 1023, 1, 891);
   (1024, 1039, 1, 1104); (1040, 1071, 1, 1072); (1120, 1152, 2, 1121);
   (1162, 1214, 2, 1163); (1216, 1216, 1, 1231); (1217, 1229, 2, 1218);
   (1232, 1326, 2, 1233); (1329, 1366, 1, 1377); (4256, 4293, 1, 11520);
   (4295, 4295, 1, 11559); (4301, 4301, 1, 11565); (5024, 5103, 1, 43888);
   (5104, 5109, 1, 5112); (7312, 7354, 1, 4304); (7357, 7359, 1, 4349);
   (7680, 7828, 2, 7681); (7838, 7838, 1, 223); (7840, 7934, 2, 7841);
   (7944, 7951, 1, 7936); (7960, 7965, 1, 7952); (7976, 7983, 1, 7968);
   (7992, 7999, 1, 7984); (8008, 8013, 1, 8000); (8025, 8031, 2, 8017);
   (8040, 8047, 1, 8032); (8072, 8079, 1, 8064); (8088, 8095, 1, 8080);
   (8104, 8111, 1, 8096); (8120, 8121, 1, 8112); (8122, 8123, 1, 8048);
   (8124, 8124, 1, 8115); (8136, 8139, 1, 8050); (8140, 8140, 1, 8131);
   (8152, 8153, 1, 8144); (8154, 8155, 1, 8054); (8168, 8169, 1, 8160);
   (8170, 8171, 1, 8058); (8172, 8172, 1, 8165); (8184, 8185, 1, 8056);
   (8186, 8187, 1, 8060); (8188, 8188, 1, 8179); (8486, 8486, 1, 969);
   (8490, 8490, 1, 107); (8491, 8491, 1, 229); (8498, 8498, 1, 8526);
   (8544, 8559, 1, 8560); (8579, 8579, 1, 8580); (9398, 9423, 1, 9424);
   (11264, 11311, 1, 11312); (11360, 11360, 1, 11361);
   (11362, 11362, 1, 619); (11363, 11363, 1, 7549); (11364, 11364, 1, 637);
   (11367, 11371, 2, 11368); (11373, 11373, 1, 593); (11374, 11374, 1, 625);
   (11375, 11375, 1, 592); (11376, 11376, 1, 594); (11378, 11378, 1, 11379);
   (11381, 11381, 1, 11382); (11390, 11391, 1, 575);
   (11392, 11490, 2, 11393); (11499, 11501, 2, 11500);
   (11506, 11506, 1, 11507); (42560, 42604, 2, 42561);
   (42624, 42650, 2, 42625); (42786, 42798, 2, 42787);
   (42802, 42862, 2, 42803); (42873, 42875, 2, 42874);
   (42877, 42877, 1, 7545); (42878, 42886, 2, 42879);
   (42891, 42891, 1, 42892); (42893, 42893, 1, 613);
   (42896, 42898, 2, 42897); (42902, 42920, 2, 42903);
   (42922, 42922, 1, 614); (42923, 42923, 1, 604); (42924, 42924, 1, 609);
   (42925, 42925, 1, 620); (42926, 42926, 1, 618); (42928, 42928, 1, 670);
   (42929, 42929, 1, 647); (42930, 42930, 1, 669); (42931, 42931, 1, 43859);
   (42932, 42946, 2, 42933); (42948, 42948, 1, 42900);
   (42949, 42949, 1, 642); (42950, 42950, 1, 7566); (42951, 42953, 2, 42952);
   (42960, 42960, 1, 42961); (42966, 42968, 2, 42967);
   (42997, 42997, 1, 42998); (65313, 65338, 1, 65345);
   (66560, 66599, 1, 66600); (66736, 66771, 1, 66776);
   (66928, 66938, 1, 66967); (66940, 66954, 1, 66979);
   (66956, 66962, 1, 66995); (66964, 66965, 1, 67003);
   (68736, 68786, 1, 68800); (71840, 71871, 1, 71872);
   (93760, 93791, 1, 93792); (125184, 125217, 1, 125218)]%N.

(** The code points whose lower case is more than one code point. *)
Definition LOWER_SPECIAL : list (char * str) :=
  [(304, [105; 775])]%N.

(** The code points whose title case is one other code point. *)
Definition TITLE_RUNS : list case_run :=
  [(97, 122, 1, 65); (181, 181, 1, 924); (224, 246, 1, 192);
   (248, 254, 1, 216); (255, 255, 1, 376); (257, 303, 2, 256);
   (305, 305, 1, 73); (307, 311, 2, 306); (314, 328, 2, 313);
   (331, 375, 2, 330); (378, 382, 2, 377); (383, 383, 1, 83);
   (384, 384, 1, 579); (387, 389, 2, 386); (392, 392, 1, 391);
   (396, 396, 1, 395); (402, 402, 1, 401); (405, 405, 1, 502);
   (409, 409, 1, 408); (410, 410, 1, 573); (414, 414, 1, 544);
   (417, 421, 2, 416); (424, 424, 1, 423); (429, 429, 1, 428);
   (432, 432, 1, 431); (436, 438, 2, 435); (441, 441, 1, 440);
   (445, 445, 1, 444); (447, 447, 1, 503); (452, 452, 1, 453);
   (454, 454, 1, 453); (455, 455, 1, 456); (457, 457, 1, 456);
   (458, 458, 1, 459); (460, 476, 2, 459); (477, 477, 1, 398);
   (479, 495, 2, 478); (497, 497, 1, 498); (499, 501, 2, 498);
   (505, 543, 2, 504); (547, 563, 2, 546); (572, 572, 1, 571);
   (575, 576, 1, 11390); (578, 578, 1, 577); (583, 591, 2, 582);
   (592, 592, 1, 11375); (593, 593, 1, 11373); (594, 594, 1, 11376);
   (595, 595, 1, 385); (596, 596, 1, 390); (598, 599, 1, 393);
   (601, 601, 1, 399); (603, 603, 1, 400); (604, 604, 1, 42923);
   (608, 608, 1, 403); (609, 609, 1, 42924); (611, 611, 1, 404);
   (613, 613, 1, 42893); (614, 614, 1, 42922); (616, 616, 1, 407);
   (617, 617, 1, 406); (618, 618, 1, 42926); (619, 619, 1, 11362);
   (620, 620, 1, 42925); (623, 623, 1, 412); (625, 625, 1, 11374);
   (626, 626, 1, 413); (629, 629, 1, 415); (637, 637, 1, 11364);
   (640, 640, 1, 422); (642, 642, 1, 42949); (643, 643, 1, 425);
   (647, 647, 1, 42929); (648, 648, 1, 430); (649, 649, 1, 580);
   (650, 651, 1, 433); (652, 652, 1, 581); (658, 658, 1, 439);
   (669, 669, 1, 42930); (670, 670, 1, 42928); (837, 837, 1, 921);
   (881, 883, 2, 880); (887, 887, 1, 886); (891, 893, 1, 1021);
   (940, 940, 1, 902); (941, 943, 1, 904); (945, 961, 1, 913);
   (962, 962, 1, 931); (963, 971, 1, 931); (972, 972, 1, 908);
   (973, 974, 1, 910); (976, 976, 1, 914); (977, 977, 1, 920);
   (981, 981, 1, 934); (982, 982, 1, 928); (983, 983, 1, 975);
   (985, 1007, 2, 984); (1008, 1008, 1, 922); (1009, 1009, 1, 929);
   (1010, 1010, 1, 1017); (1011, 1011, 1, 895); (1013, 1013, 1, 917);
   (1016, 1016, 1, 1015); (1019, 1019, 1, 1018); (1072, 1103, 1, 1040);
   (1104, 1119, 1, 1024); (1121, 1153, 2, 1120); (1163, 1215, 2, 1162);
   (1218, 1230, 2, 1217); (1231, 1231, 1, 1216); (1233, 1327, 2, 1232);
   (1377, 1414, 1, 1329); (5112, 5117, 1, 5104); (7296, 7296, 1, 1042);
   (7297, 7297, 1, 1044); (7298, 7298, 1, 1054); (7299, 7300, 1, 1057);
   (7301, 7301, 1, 1058); (7302, 7302, 1, 1066); (7303, 7303, 1, 1122);
   (7304, 7304, 1, 42570); (7545, 7545, 1, 42877); (7549, 7549, 1, 11363);
   (7566, 7566, 1, 42950); (7681, 7829, 2, 7680); (7835, 7835, 1, 7776);
   (7841, 7935, 2, 7840); (7936, 7943, 1, 7944); (7952, 7957, 1, 7960);
   (7968, 7975, 1, 7976); (7984, 7991, 1, 7992); (8000, 8005, 1, 8008);
   (8017, 8023, 2, 8025); (8032, 8039, 1, 8040); (8048, 8049, 1, 8122);
   (8050, 8053, 1, 8136); (8054, 8055, 1, 8154); (8056, 8057, 1, 8184);
   (8058, 8059, 1, 8170); (8060, 8061, 1, 8186); (8064, 8071, 1, 8072);
   (8080, 8087, 1, 8088); (8096, 8103, 1, 8104); (8112, 8113, 1, 8120);
   (8115, 8115, 1, 8124); (8126, 8126, 1, 921); (8131, 8131, 1, 8140);
   (8144, 8145, 1, 8152); (8160, 8161, 1, 8168); (8165, 8165, 1, 8172);
   (8179, 8179, 1, 8188); (8526, 8526, 1, 8498); (8560, 8575, 1, 8544);
   (8580, 8580, 1, 8579); (9424, 9449, 1, 9398); (11312, 11359, 1, 11264);
   (11361, 11361, 1, 11360); (11365, 11365, 1, 570); (11366, 11366, 1, 574);
   (11368, 11372, 2, 11367); (11379, 11379, 1, 11378);
   (11382, 11382, 1, 11381); (11393, 11491, 2, 11392);
   (11500, 11502, 2, 11499); (11507, 11507, 1, 11506);
   (11520, 11557, 1, 4256); (11559, 11559, 1, 4295); (11565, 11565, 1, 4301);
   (42561, 42605, 2, 42560); (42625, 42651, 2, 42624);
   (42787, 42799, 2, 42786); (42803, 42863, 2, 42802);
   (42874, 42876, 2, 42873); (42879, 42887, 2, 42878);
   (42892, 42892, 1, 42891); (42897, 42899, 2, 42896);
   (42900, 42900, 1, 42948); (42903, 42921, 2, 42902);
   (42933, 42947, 2, 42932); (42952, 42954, 2, 42951);
   (42961, 42961, 1, 42960); (42967, 42969, 2, 42966);
   (42998, 42998, 1, 42997); (43859, 43859, 1, 42931);
   (43888, 43967, 1, 5024); (65345, 65370, 1, 65313);
   (66600, 66639, 1, 66560); (66776, 66811, 1, 66736);
   (66967, 66977, 1, 66928); (66979, 66993, 1, 66940);
   (66995, 67001, 1, 66956); (67003, 67004, 1, 66964);
   (68800, 68850, 1, 68736); (71872, 71903, 1, 71840);
   (93792, 93823, 1, 93760); (125218, 125251, 1, 125184)]%N.

(** The code points whose title case is more than one code point. *)
Definition TITLE_SPECIAL : list (char * str) :=
  [(223, [83; 115]); (329, [700; 78]); (496, [74; 780]);
   (912, [921; 776; 769]); (944, [933; 776; 769]); (1415, [1333; 1410]);
   (7830, [72; 817]); (7831, [84; 776]); (7832, [87; 778]);
   (7833, [89; 778]); (7834, [65; 702]); (8016, [933; 787]);
   (8018, [933; 787; 768]); (8020, [933; 787; 769]); (8022, [933; 787; 834]);
   (8114, [8122; 837]); (8116, [902; 837]); (8118, [913; 834]);
   (8119, [913; 834; 837]); (8130, [8138; 837]); (8132, [905; 837]);
   (8134, [919; 834]); (8135, [919; 834; 837]); (8146, [921; 776; 768]);
   (8147, [921; 776; 769]); (8150, [921; 834]); (8151, [921; 776; 834]);
   (8162, [933; 776; 768]); (8163, [933; 776; 769]); (8164, [929; 787]);
   (8166, [933; 834]); (8167, [933; 776; 834]); (8178, [8186; 837]);
   (8180, [911; 837]); (8182, [937; 834]); (8183, [937; 834; 837]);
   (64256, [70; 102]); (64257, [70; 105]); (64258, [70; 108]);
   (64259, [70; 102; 105]); (64260, [70; 102; 108]); (64261, [83; 116]);
   (64262, [83; 116]); (64275, [1348; 1398]); (64276, [1348; 1381]);
   (64277, [1348; 1387]); (64278, [1358; 1398]); (64279, [1348; 1389])]%N.

(** The ranges of the code points with the property [Cased]. *)
Definition CASED : list (char * char) :=
  [(65, 90); (97, 122); (170, 170); (181, 181); (186, 186); (192, 214);
   (216, 246); (248, 442); (444, 447); (452, 659); (661, 696); (704, 705);
   (736, 740); (837, 837); (880, 883); (886, 887); (890, 893); (895, 895);
   (902, 902); (904, 906); (908, 908); (910, 929); (931, 1013); (1015, 1153);
   (1162, 1327); (1329, 1366); (1376, 1416); (4256, 4293); (4295, 4295);
   (4301, 4301); (4304, 4346); (4349, 4351); (5024, 5109); (5112, 5117);
   (7296, 7304); (7312, 7354); (7357, 7359); (7424, 7615); (7680, 7957);
   (7960, 7965); (7968, 8005); (8008, 8013); (8016, 8023); (8025, 8025);
   (8027, 8027); (8029, 8029); (8031, 8061); (8064, 8116); (8118, 8124);
   (8126, 8126); (8130, 8132); (8134, 8140); (8144, 8147); (8150, 8155);
   (8160, 8172); (8178, 8180); (8182, 8188); (8305, 8305); (8319, 8319);
   (8336, 8348); (8450, 8450); (8455, 8455); (8458, 8467); (8469, 8469);
   (8473, 8477); (8484, 8484); (8486, 8486); (8488, 8488); (8490, 8493);
   (8495, 8500); (8505, 8505); (8508, 8511); (8517, 8521); (8526, 8526);
   (8544, 8575); (8579, 8580); (9398, 9449); (11264, 11492); (11499, 11502);
   (11506, 11507); (11520, 11557); (11559, 11559); (11565, 11565);
   (42560, 42605); (42624, 42653); (42786, 42887); (42891, 42894);
   (42896, 42954); (42960, 42961); (42963, 42963); (42965, 42969);
   (42997, 42998); (43000, 43002); (43824, 43866); (43868, 43880);
   (43888, 43967); (64256, 64262); (64275, 64279); (65313, 65338);
   (65345, 65370); (66560, 66639); (66736, 66771); (66776, 66811);
   (66928, 66938); (66940, 66954); (66956, 66962); (66964, 66965);
   (66967, 66977); (66979, 66993); (66995, 67001); (67003, 67004);
   (67456, 67456); (67459, 67461); (67463, 67504); (67506, 67514);
   (68736, 68786); (68800, 68850); (71840, 71903); (93760, 93823);
   (119808, 119892); (119894, 119964); (119966, 119967); (119970, 119970);
   (119973, 119974); (119977, 119980); (119982, 119993); (119995, 119995);
   (119997, 120003); (120005, 120069); (120071, 120074); (120077, 120084);
   (120086, 120092); (120094, 120121); (120123, 120126); (120128, 120132);
   (120134, 120134); (120138, 120144); (120146, 120485); (120488, 120512);
   (120514, 120538); (120540, 120570); (120572, 120596); (120598, 120628);
   (120630, 120654); (120656, 120686); (120688, 120712); (120714, 120744);
   (120746, 120770); (120772, 120779); (122624, 122633); (122635, 122654);
   (125184, 125251); (127280, 127305); (127312, 127337); (127344, 127369)]%N.

(** The ranges of the code points with the property [Case_Ignorable]. *)
Definition CASE_IGNORABLE : list (char * char) :=
  [(39, 39); (46, 46); (58, 58); (94, 94); (96, 96); (168, 168); (173, 173);
   (175, 175); (180, 180); (183, 184); (688, 879); (884, 885); (890, 890);
   (900, 901); (903, 903); (1155, 1161); (1369, 1369); (1375, 1375);
   (1425, 1469); (1471, 1471); (1473, 1474); (1476, 1477); (1479, 1479);
   (1524, 1524); (1536, 1541); (1552, 1562); (1564, 1564); (1600, 1600);
   (1611, 1631); (1648, 1648); (1750, 1757); (1759, 1768); (1770, 1773);
   (1807, 1807); (1809, 1809); (1840, 1866); (1958, 1968); (2027, 2037);
   (2042, 2042); (2045, 2045); (2070, 2093); (2137, 2139); (2184, 2184);
   (2192, 2193); (2200, 2207); (2249, 2306); (2362, 2362); (2364, 2364);
   (2369, 2376); (2381, 2381); (2385, 2391); (2402, 2403); (2417, 2417);
   (2433, 2433); (2492, 2492); (2497, 2500); (2509, 2509); (2530, 2531);
   (2558, 2558); (2561, 2562); (2620, 2620); (2625, 2626); (2631, 2632);
   (2635, 2637); (2641, 2641); (2672, 2673); (2677, 2677); (2689, 2690);
   (2748, 2748); (2753, 2757); (2759, 2760); (2765, 2765); (2786, 2787);
   (2810, 2815); (2817, 2817); (2876, 2876); (2879, 2879); (2881, 2884);
   (2893, 2893); (2901, 2902); (2914, 2915); (2946, 2946); (3008, 3008);
   (3021, 3021); (3072, 3072); (3076, 3076); (3132, 3132); (3134, 3136);
   (3142, 3144); (3146, 3149); (3157, 3158); (3170, 3171); (3201, 3201);
   (3260, 3260); (3263, 3263); (3270, 3270); (3276, 3277); (3298, 3299);
   (3328, 3329); (3387, 3388); (3393, 3396); (3405, 3405); (3426, 3427);
   (3457, 3457); (3530, 3530); (3538, 3540); (3542, 3542); (3633, 3633);
   (3636, 3642); (3654, 3662); (3761, 3761); (3764, 3772); (3782, 3782);
   (3784, 3789); (3864, 3865); (3893, 3893); (3895, 3895); (3897, 3897);
   (3953, 3966); (3968, 3972); (3974, 3975); (3981, 3991); (3993, 4028);
   (4038, 4038); (4141, 4144); (4146, 4151); (4153, 4154); (4157, 4158);
   (4184, 4185); (4190, 4192); (4209, 4212); (4226, 4226); (4229, 4230);
   (4237, 4237); (4253, 4253); (4348, 4348); (4957, 4959); (5906, 5908);
   (5938, 5939); (5970, 5971); (6002, 6003); (6068, 6069); (6071, 6077);
   (6086, 6086); (6089, 6099); (6103, 6103); (6109, 6109); (6155, 6159);
   (6211, 6211); (6277, 6278); (6313, 6313); (6432, 6434); (6439, 6440);
   (6450, 6450); (6457, 6459); (6679, 6680); (6683, 6683); (6742, 6742);
   (6744, 6750); (6752, 6752); (6754, 6754); (6757, 6764); (6771, 6780);
   (6783, 6783); (6823, 6823); (6832, 6862); (6912, 6915); (6964, 6964);
   (6966, 6970); (6972, 6972); (6978, 6978); (7019, 7027); (7040, 7041);
   (7074, 7077); (7080, 7081); (7083, 7085); (7142, 7142); (7144, 7145);
   (7149, 7149); (7151, 7153); (7212, 7219); (7222, 7223); (7288, 7293);
   (7376, 7378); (7380, 7392); (7394, 7400); (7405, 7405); (7412, 7412);
   (7416, 7417); (7468, 7530); (7544, 7544); (7579, 7679); (8125, 8125);
   (8127, 8129); (8141, 8143); (8157, 8159); (8173, 8175); (8189, 8190);
   (8203, 8207); (8216, 8217); (8228, 8228); (8231, 8231); (8234, 8238);
   (8288, 8292); (8294, 8303); (8305, 8305); (8319, 8319); (8336, 8348);
   (8400, 8432); (11388, 11389); (11503, 11505); (11631, 11631);
   (11647, 11647); (11744, 11775); (11823, 11823); (12293, 12293);
   (12330, 12333); (12337, 12341); (12347, 12347); (12441, 12446);
   (12540, 12542); (40981, 40981); (42232, 42237); (42508, 42508);
   (42607, 42610); (42612, 42621); (42623, 42623); (42652, 42655);
   (42736, 42737); (42752, 42785); (42864, 42864); (42888, 42890);
   (42994, 42996); (43000, 43001); (43010, 43010); (43014, 43014);
   (43019, 43019); (43045, 43046); (43052, 43052); (43204, 43205);
   (43232, 43249); (43263, 43263); (43302, 43309); (43335, 43345);
   (43392, 43394); (43443, 43443); (43446, 43449); (43452, 43453);
   (43471, 43471); (43493, 43494); (43561, 43566); (43569, 43570);
   (43573, 43574); (43587, 43587); (43596, 43596); (43632, 43632);
   (43644, 43644); (43696, 43696); (43698, 43700); (43703, 43704);
   (43710, 43711); (43713, 43713); (43741, 43741); (43756, 43757);
   (43763, 43764); (43766, 43766); (43867, 43871); (43881, 43883);
   (44005, 44005); (44008, 44008); (44013, 44013); (64286, 64286);
   (64434, 64450); (65024, 65039); (65043, 65043); (65056, 65071);
   (65106, 65106); (65109, 65109); (65279, 65279); (65287, 65287);
   (65294, 65294); (65306, 65306); (65342, 65342); (65344, 65344);
   (65392, 65392); (65438, 65439); (65507, 65507); (65529, 65531);
   (66045, 66045); (66272, 66272); (66422, 66426); (67456, 67461);
   (67463, 67504); (67506, 67514); (68097, 68099); (68101, 68102);
   (68108, 68111); (68152, 68154); (68159, 68159); (68325, 68326);
   (68900, 68903); (69291, 69292); (69446, 69456); (69506, 69509);
   (69633, 69633); (69688, 69702); (69744, 69744); (69747, 69748);
   (69759, 69761); (69811, 69814); (69817, 69818); (69821, 69821);
   (69826, 69826); (69837, 69837); (69888, 69890); (69927, 69931);
   (69933, 69940); (70003, 70003); (70016, 70017); (70070, 70078);
   (70089, 70092); (70095, 70095); (70191, 70193); (70196, 70196);
   (70198, 70199); (70206, 70206); (70367, 70367); (70371, 70378);
   (70400, 70401); (70459, 70460); (70464, 70464); (70502, 70508);
   (70512, 70516); (70712, 70719); (70722, 70724); (70726, 70726);
   (70750, 70750); (70835, 70840); (70842, 70842); (70847, 70848);
   (70850, 70851); (71090, 71093); (71100, 71101); (71103, 71104);
   (71132, 71133); (71219, 71226); (71229, 71229); (71231, 71232);
   (71339, 71339); (71341, 71341); (71344, 71349); (71351, 71351);
   (71453, 71455); (71458, 71461); (71463, 71467); (71727, 71735);
   (71737, 71738); (71995, 71996); (71998, 71998); (72003, 72003);
   (72148, 72151); (72154, 72155); (72160, 72160); (72193, 72202);
   (72243, 72248); (72251, 72254); (72263, 72263); (72273, 72278);
   (72281, 72283); (72330, 72342); (72344, 72345); (72752, 72758);
   (72760, 72765); (72767, 72767); (72850, 72871); (72874, 72880);
   (72882, 72883); (72885, 72886); (73009, 73014); (73018, 73018);
   (73020, 73021); (73023, 73029); (73031, 73031); (73104, 73105);
   (73109, 73109); (73111, 73111); (73459, 73460); (78896, 78904);
   (92912, 92916); (92976, 92982); (92992, 92995); (94031, 94031);
   (94095, 94111); (94176, 94177); (94179, 94180); (110576, 110579);
   (110581, 110587); (110589, 110590); (113821, 113822); (113824, 113827);
   (118528, 118573); (118576, 118598); (119143, 119145); (119155, 119170);
   (119173, 119179); (119210, 119213); (119362, 119364); (121344, 121398);
   (121403, 121452); (121461, 121461); (121476, 121476); (121499, 121503);
   (121505, 121519); (122880, 122886); (122888, 122904); (122907, 122913);
   (122915, 122916); (122918, 122922); (123184, 123197); (123566, 123566);
   (123628, 123631); (125136, 125142); (125252, 125259); (127995, 127999);
   (917505, 917505); (917536, 917631); (917760, 917999)]%N.

Definition to_lower_full (c : char) : str :=
  case_full LOWER_RUNS LOWER_SPECIAL c.

Definition to_title_full (c : char) : str :=
  case_full TITLE_RUNS TITLE_SPECIAL c.

Definition is_cased (c : char) : bool := in_ranges c CASED.

Definition is_case_ignorable (c : char) : bool := in_ranges c CASE_IGNORABLE.

(** The first code point of [s] that is not case-ignorable. *)
Fixpoint skip_case_ignorable (s : str) : option char :=
  match s with
  | [] => None
  | c :: s' => if is_case_ignorable c then skip_case_ignorable s' else Some c
  end.

(** The lower case of the capital sigma (U+03A3): the final form (U+03C2)
    after a cased letter and not before one, case-ignorable code points
    aside, the other form (U+03C3) otherwise.  [before] is the text before
    the sigma, its last code point first; [after] is the text after it. *)
Definition handle_capital_sigma (before after : str) : char :=
  let final_sigma :=
    match skip_case_ignorable before with
    | Some c => is_cased c
    | None => false
    end
    && match skip_case_ignorable after with
       | Some c => negb (is_cased c)
       | None => true
       end in
  if final_sigma then 962%N else 963%N.

Definition lower_ucs4 (before : str) (c : char) (after : str) : str :=
  if N.eqb c 931 then [handle_capital_sigma before after]
  else to_lower_full c.

Fixpoint lower_from (before s : str) : str :=
  match s with
  | [] => []
  | c :: s' => lower_ucs4 before c s' ++ lower_from (c :: before) s'
  end.

(** [s.lower()] *)
Definition lower (s : str) : str := lower_from [] s.

Fixpoint title_from (previous_is_cased : bool) (before s : str) : str :=
  match s with
  | [] => []
  | c :: s' =>
      (if previous_is_cased then lower_ucs4 before c s'
       else to_title_full c)
      ++ title_from (is_cased c) (c :: before) s'
  end.

(** [s.title()] *)
Definition title (s : str) : str := title_from false [] s.

(** *** Searching and replacing *)

Fixpoint starts_with (p s : str) : bool :=
  match p, s with
  | [], _ => true
  | x :: p', y :: s' => N.eqb x y && starts_with p' s'
  | _ :: _, [] => false
  end.

Definition ends_with (p s : str) : bool := starts_with (rev p) (rev s).

(** [old in s] *)
Fixpoint contains (old s : str) : bool :=
  starts_with old s
  || match s with [] => false | _ :: s' => contains old s' end.

(** The scan of [s.replace(old, new)] for a non-empty [old]: [skip] counts
    the characters of a found occurrence still to step over. *)
Fixpoint replace_scan (old new s : str) (skip : nat) : str :=
  match s with
  | [] => []
  | c :: s' =>
      match skip with
      | S n => replace_scan old new s' n
      | O =>
          if starts_with old s
          then new ++ replace_scan old new s' (length old - 1)
          else c :: replace_scan old new s' 0
      end
  end.

(** [s.replace(old, new)]: every occurrence, left to right, not overlapping;
    an empty [old] matches before every character and at the end. *)
Definition replace (old new s : str) : str :=
  match old with
  | [] => flat_map (fun c => new ++ [c]) s ++ new
  | _ :: _ => replace_scan old new s 0
  end.

(** [sep.join(items)] *)
Fixpoint join (sep : str) (items : list str) : str :=
  match items with
  | [] => []
  | [x] => x
  | x :: rest => x ++ sep ++ join sep rest
  end.

(** [html.escape(s)], with its default [quote=True]. *)
Definition html_escape (s : str) : str :=
  let s := replace (text "&") (text "&amp;") s in
  let s := replace (text "<") (text "&lt;") s in
  let s := replace (text ">") (text "&gt;") s in
  let s := replace [DQUOTE] (text "&quot;") s in
  let s := replace [SQUOTE] (text "&#x27;") s in
  s.

(** ** Regular expressions

    The two patterns of the source, as [re] parses them: a sequence of
    single-character items, a greedy [+] over one item, and the lazy [*?]
    over one item that makes up group 1. *)

Inductive set_item :=
  | SetLiteral (c : char)
  | CATEGORY_SPACE.

Inductive single :=
  | LITERAL (c : char)
  | IN (items : list set_item)
  | ANY.

Inductive op :=
  | One (x : single)
  | MAX_REPEAT_1 (x : single)
  | GROUP_MIN_REPEAT_0 (x : single).

Record re_flags := { IGNORECASE : bool; DOTALL : bool }.

(** Simple lower-casing as the matcher applies it to the subject under
    [IGNORECASE]; only the code points whose image is an ASCII letter are
    listed, which is all the ASCII literals of the patterns can meet. *)
Definition sre_lower (c : char) : char :=
  if in_range 65 90 c then (c + 32)%N
  else if N.eqb c 304 then 105%N
  else if N.eqb c 8490 then 107%N
  else c.

(** The extra code points [re] accepts for a lower-case literal:
    dotless i for [i], long s for [s]. *)
Definition ignorecase_fixes (lo : char) : list char :=
  if N.eqb lo 105 then [305%N]
  else if N.eqb lo 115 then [383%N]
  else [].

Definition literal_match (fl : re_flags) (p c : char) : bool :=
  if IGNORECASE fl
  then let lo := sre_lower p in
       existsb (N.eqb (sre_lower c)) (lo :: ignorecase_fixes lo)
  else N.eqb p c.

Definition set_item_match (i : set_item) (c : char) : bool :=
  match i with
  | SetLiteral p => N.eqb p c
  | CATEGORY_SPACE => is_space c
  end.

Definition single_match (fl : re_flags) (x : single) (c : char) : bool :=
  match x with
  | LITERAL p => literal_match fl p c
  | IN items => existsb (fun i => set_item_match i c) items
  | ANY => DOTALL fl || negb (N.eqb c NL)
  end.

(** A greedy repeat that has already taken one character: take one more
    and go on, and fall back on the continuation [k] where that fails. *)
Fixpoint greedy (test : char -> bool) (k : str -> option str) (s : str)
  : option str :=
  match s with
  | c :: s' =>
      if test c
      then match greedy test k s' with
           | Some g => Some g
           | None => k s
           end
      else k s
  | [] => k []
  end.

(** The lazy repeat of group 1: try the continuation [k] first, take one
    more character into the group where it fails. *)
Fixpoint lazy (test : char -> bool) (k : str -> option str) (s : str)
  : option str :=
  match k s with
  | Some _ => Some []
  | None =>
      match s with
      | c :: s' => if test c then option_map (cons c) (lazy test k s') else None
      | [] => None
      end
  end.

(** Backtracking match of [ops] at the start of [s]; the result is the text
    of group 1 (empty when the remaining items hold no group). *)
Fixpoint sre_match (fl : re_flags) (ops : list op) : str -> option str :=
  match ops with
  | [] => fun _ => Some []
  | One x :: k =>
      fun s =>
        match s with
        | c :: s' => if single_match fl x c then sre_match fl k s' else None
        | [] => None
        end
  | MAX_REPEAT_1 x :: k =>
      fun s =>
        match s with
        | c :: s' =>
            if single_match fl x c
            then greedy (single_match fl x) (sre_match fl k) s'
            else None
        | [] => None
        end
  | GROUP_MIN_REPEAT_0 x :: k => lazy (single_match fl x) (sre_match fl k)
  end.

(** [re.search]: the leftmost position at which the pattern matches. *)
Fixpoint re_search (fl : re_flags) (ops : list op) (s : str) : option str :=
  match sre_match fl ops s with
  | Some g => Some g
  | None =>
      match s with
      | [] => None
      | _ :: s' => re_search fl ops s'
      end
  end.

Definition literals (s : string) : list op :=
  List.map (fun c => One (LITERAL c)) (text s).

Definition SPACES : op := MAX_REPEAT_1 (IN [CATEGORY_SPACE]).
Definition QUOTE : op := One (IN [SetLiteral DQUOTE; SetLiteral SQUOTE]).
Definition GROUP_LAZY_ANY : op := GROUP_MIN_REPEAT_0 ANY.

(** [<title>(.*?)</title>] *)
Definition title_pattern : list op :=
  literals "<title>" ++ [GROUP_LAZY_ANY] ++ literals "</title>".

Definition title_flags : re_flags :=
  {| IGNORECASE := true; DOTALL := true |}.

(** The description pattern: [<meta], white space, [name=], a quote,
    [description], a quote, white space, [content=], a quote, the lazy
    group, a quote; a quote is a character of the class of the single and
    the double quote. *)
Definition description_pattern : list op :=
  literals "<meta" ++ [SPACES] ++ literals "name=" ++ [QUOTE]
  ++ literals "description" ++ [QUOTE] ++ [SPACES]
  ++ literals "content=" ++ [QUOTE] ++ [GROUP_LAZY_ANY] ++ [QUOTE].

Definition description_flags : re_flags :=
  {| IGNORECASE := true; DOTALL := false |}.

(** ** Metadata extraction *)

Definition extract_title (content : str) : option str :=
  match re_search title_flags title_pattern content with
  | Some g => Some (strip g)
  | None => None
  end.

Definition extract_description (content : str) : option str :=
  match re_search description_flags description_pattern content with
  | Some g => Some (strip g)
  | None => None
  end.

(** ** Files

    A file holds bytes; [read_text(encoding="utf-8")] decodes them strictly
    and translates line endings the way text mode does. *)

Definition bytes := list Init.Byte.byte.

Definition continuation (b : N) : bool := in_range 128 191 b.

(** Strict UTF-8: shortest form only, no surrogates, at most U+10FFFF. *)
Fixpoint utf8_decode (bs : list N) : option str :=
  match bs with
  | [] => Some []
  | b0 :: r0 =>
      if N.ltb b0 128 then option_map (cons b0) (utf8_decode r0)
      else if in_range 194 223 b0 then
        match r0 with
        | b1 :: r1 =>
            if continuation b1
            then option_map (cons ((b0 - 192) * 64 + (b1 - 128))%N)
                            (utf8_decode r1)
            else None
        | _ => None
        end
      else if in_range 224 239 b0 then
        match r0 with
        | b1 :: b2 :: r2 =>
            if in_range (if N.eqb b0 224 then 160 else 128)
                        (if N.eqb b0 237 then 159 else 191) b1
               && continuation b2
            then option_map
                   (cons ((b0 - 224) * 4096 + (b1 - 128) * 64 + (b2 - 128))%N)
                   (utf8_decode r2)
            else None
        | _ => None
        end
      else if in_range 240 244 b0 then
        match r0 with
        | b1 :: b2 :: b3 :: r3 =>
            if in_range (if N.eqb b0 240 then 144 else 128)
                        (if N.eqb b0 244 then 143 else 191) b1
               && continuation b2 && continuation b3
            then option_map
                   (cons ((b0 - 240) * 262144 + (b1 - 128) * 4096
                          + (b2 - 128) * 64 + (b3 - 128))%N)
                   (utf8_decode r3)
            else None
        | _ => None
        end
      else None
  end.

Definition decode (data : bytes) : option str :=
  utf8_decode (List.map Strings.Byte.to_N data).

Definition utf8_encode_char (c : char) : option (list N) :=
  if N.ltb c 128 then Some [c]
  else if N.ltb c 2048 then Some [192 + c / 64; 128 + c mod 64]%N
  else if in_range 55296 57343 c then None
  else if N.ltb c 65536
  then Some [224 + c / 4096; 128 + (c / 64) mod 64; 128 + c mod 64]%N
  else if N.ltb c 1114112
  then Some [240 + c / 262144; 128 + (c / 4096) mod 64;
             128 + (c / 64) mod 64; 128 + c mod 64]%N
  else None.

Fixpoint to_bytes (l : list N) : option bytes :=
  match l with
  | [] => Some []
  | n :: l' =>
      match Strings.Byte.of_N n, to_bytes l' with
      | Some b, Some r => Some (b :: r)
      | _, _ => None
      end
  end.

Fixpoint encode (s : str) : option bytes :=
  match s with
  | [] => Some []
  | c :: s' =>
      match utf8_encode_char c, encode s' with
      | Some l, Some r =>
          match to_bytes l with
          | Some b => Some (b ++ r)
          | None => None
          end
      | _, _ => None
      end
  end.

(** Reading in text mode: [\r\n] and a lone [\r] both become [\n]. *)
Fixpoint universal_newlines (s : str) : str :=
  match s with
  | [] => []
  | c :: s' =>
      if N.eqb c CR
      then NL :: match s' with
                 | d :: s'' =>
                     if N.eqb d NL then universal_newlines s''
                     else universal_newlines s'
                 | [] => []
                 end
      else c :: universal_newlines s'
  end.

(** The bytes of an ASCII literal. *)
Definition ascii_bytes (s : string) : bytes := list_byte_of_string s.

(** An entry of the directory: a file with its bytes, or something whose
    read fails with an [OSError] (a directory, a file without permission),
    which carries the text of that error. *)
Inductive node :=
  | File (data : bytes)
  | Unreadable (strerror : str).

Definition entry : Type := str * node.

(** ** Exceptions, the world, and the monad *)

Inductive exn :=
  | OSError (strerror : str)
  | FileNotFoundError (message : str)
  | UnicodeDecodeError
  | UnicodeEncodeError
  | MissingDescriptionError (filename : str).

(** [isinstance(e, OSError)] *)
Definition is_OSError (e : exn) : bool :=
  match e with
  | OSError _ | FileNotFoundError _ => true
  | _ => false
  end.

(** [str(e)] for the exceptions the scan prints. *)
Definition exn_str (e : exn) : str :=
  match e with
  | OSError m | FileNotFoundError m => m
  | UnicodeDecodeError => text "'utf-8' codec can't decode"
  | UnicodeEncodeError => text "'utf-8' codec can't encode"
  | MissingDescriptionError filename =>
      text "Tool '" ++ filename
      ++ text "' is missing required <meta name='description'> tag"
  end.

(** The directory of the script in listing order, and what has been
    printed so far, one element per [print]. *)
Record world := {
  repo_dir : str;
  entries : list entry;
  stdout : list str;
  stderr : list str
}.

Inductive result (A : Type) :=
  | Return (a : A)
  | Raise (e : exn).

Arguments Return {A} a.
Arguments Raise {A} e.

Definition IO (A : Type) : Type := world -> result A * world.

Definition ret {A} (a : A) : IO A := fun w => (Return a, w).

Definition raise {A} (e : exn) : IO A := fun w => (Raise e, w).

Definition bind {A B} (m : IO A) (k : A -> IO B) : IO B :=
  fun w =>
    match m w with
    | (Return a, w') => k a w'
    | (Raise e, w') => (Raise e, w')
    end.

Notation "x <- m ;; k" := (bind m (fun x => k))
  (at level 61, m at next level, right associativity).
Notation "m ;;; k" := (bind m (fun _ => k))
  (at level 61, right associativity).

(** [try: body except OSError as e: handler(e)] *)
Definition try_except_OSError {A} (body : IO A) (handler : exn -> IO A)
  : IO A :=
  fun w =>
    match body w with
    | (Return a, w') => (Return a, w')
    | (Raise e, w') => if is_OSError e then handler e w' else (Raise e, w')
    end.

Definition print (line : str) : IO unit :=
  fun w =>
    (Return tt,
     {| repo_dir := repo_dir w; entries := entries w;
        stdout := stdout w ++ [line]; stderr := stderr w |}).

(** [print(line, file=sys.stderr)] *)
Definition print_err (line : str) : IO unit :=
  fun w =>
    (Return tt,
     {| repo_dir := repo_dir w; entries := entries w;
        stdout := stdout w; stderr := stderr w ++ [line] |}).

(** [path.read_text(encoding="utf-8")] on an entry of the directory. *)
Definition read_text (n : node) : IO str :=
  match n with
  | Unreadable strerror => raise (OSError strerror)
  | File data =>
      match decode data with
      | Some s => ret (universal_newlines s)
      | None => raise UnicodeDecodeError
      end
  end.

(** [directory.glob("*.html")]: the entries whose name ends in [.html], in
    listing order (names compare case-sensitively, dot files included). *)
Definition html_files (l : list entry) : list entry :=
  filter (fun e => ends_with (text ".html") (fst e)) l.

Definition glob_html : IO (list entry) :=
  fun w => (Return (html_files (entries w)), w).

Fixpoint lookup (name : str) (l : list entry) : option node :=
  match l with
  | [] => None
  | (n, x) :: l' => if str_eqb n name then Some x else lookup name l'
  end.

(** The entry called [name] of the directory, if there is one. *)
Definition path (name : str) : IO (option node) :=
  fun w => (Return (lookup name (entries w)), w).

Fixpoint store (name : str) (x : node) (l : list entry) : list entry :=
  match l with
  | [] => [(name, x)]
  | (n, y) :: l' =>
      if str_eqb n name then (n, x) :: l' else (n, y) :: store name x l'
  end.

(** What holding the file [name] open for writing does to the directory:
    the file is created, or replaced where it exists, and holds [data]. *)
Definition set_file (name : str) (data : bytes) : IO unit :=
  fun w =>
    (Return tt,
     {| repo_dir := repo_dir w;
        entries := store name (File data) (entries w);
        stdout := stdout w; stderr := stderr w |}).

(** [path.write_text(content, encoding="utf-8")]: the file is opened with
    mode [w], which creates it or empties it, before the content is
    encoded; a content that cannot be encoded leaves it empty.  Opening the
    file is taken to succeed. *)
Definition write_text (name : str) (content : str) : IO unit :=
  set_file name [] ;;;
  match encode content with
  | None => raise UnicodeEncodeError
  | Some data => set_file name data
  end.

(** [str(directory / name)] *)
Definition path_join (directory name : str) : str :=
  if ends_with (text "/") directory then directory ++ name
  else directory ++ text "/" ++ name.

Fixpoint rfind_from (c : char) (s : str) (i : nat) : option nat :=
  match s with
  | [] => None
  | x :: s' =>
      match rfind_from c s' (S i) with
      | Some j => Some j
      | None => if N.eqb x c then Some i else None
      end
  end.

(** [PurePath.stem]: the name without its last suffix; a dot at the start
    or at the end of the name opens no suffix. *)
Definition stem (name : str) : str :=
  match rfind_from 46%N name 0 with
  | Some i =>
      if Nat.ltb 0 i && Nat.ltb i (length name - 1)
      then firstn i name
      else name
  | None => name
  end.

(** ** The scanner *)

Record ToolInfo := {
  filename : str;
  title_of : str;
  description : str
}.

(** [t.filename.lower()], the sort key. *)
Definition sort_key (t : ToolInfo) : str := lower (filename t).

(** One step of a stable sort: [t] goes in front of the first element that
    is not smaller than it. *)
Fixpoint insert_by (key : ToolInfo -> str) (t : ToolInfo)
    (l : list ToolInfo) : list ToolInfo :=
  match l with
  | [] => [t]
  | u :: l' =>
      if str_ltb (key u) (key t) then u :: insert_by key t l' else t :: l
  end.

(** [sorted(l, key=key)]: the sort of Python is stable and compares keys
    with [<] only, which fixes its result. *)
Definition sorted (key : ToolInfo -> str) (l : list ToolInfo)
  : list ToolInfo :=
  fold_right (insert_by key) [] l.

(** [x in l] *)
Definition in_list (x : str) (l : list str) : bool := existsb (str_eqb x) l.

(** [a or b] on an optional text: [None] and the empty text are false. *)
Definition py_or (a : option str) (b : str) : str :=
  match a with
  | Some (c :: t) => c :: t
  | Some [] | None => b
  end.

(** [filepath.stem.replace("-", " ").replace("_", " ").title()] *)
Definition derived_title (name : str) : str :=
  title (replace (text "_") (text " ")
           (replace (text "-") (text " ") (stem name))).

Definition DEFAULT_EXCLUDE : list str :=
  [text "index.html"; text "index.template.html"].

Definition is_excluded (exclude : list str) (name : str) : bool :=
  in_list (lower name) (List.map lower exclude).

Definition warning (directory : str) (name : str) (e : exn) : str :=
  text "Warning: Could not read " ++ path_join directory name
  ++ text ": " ++ exn_str e.

(** The statements under [try:] for one file. *)
Definition scan_file (filepath : entry) (tools : list ToolInfo)
  : IO (list ToolInfo) :=
  content <- read_text (snd filepath) ;;
  let title := py_or (extract_title content) (derived_title (fst filepath)) in
  match extract_description content with
  | None => raise (MissingDescriptionError (fst filepath))
  | Some d =>
      ret (tools ++ [{| filename := fst filepath;
                       title_of := title;
                       description := d |}])
  end.

(** The [for] loop over the files that [glob] yielded. *)
Fixpoint scan_loop (directory : str) (exclude : list str)
    (files : list entry) (tools : list ToolInfo) : IO (list ToolInfo) :=
  match files with
  | [] => ret tools
  | filepath :: rest =>
      if is_excluded exclude (fst filepath)
      then scan_loop directory exclude rest tools
      else
        tools' <- try_except_OSError
                    (scan_file filepath tools)
                    (fun e =>
                       print_err (warning directory (fst filepath) e) ;;;
                       ret tools) ;;
        scan_loop directory exclude rest tools'
  end.

(** [scan_tools(directory, exclude)].  The world holds one directory, the
    one the driver scans; [directory] is its path, which goes into the
    warnings. *)
Definition scan_tools (directory : str) (exclude : option (list str))
  : IO (list ToolInfo) :=
  let exclude :=
    match exclude with
    | None => DEFAULT_EXCLUDE
    | Some l => l
    end in
  files <- glob_html ;;
  tools <- scan_loop directory exclude files [] ;;
  ret (sorted sort_key tools).

(** ** The renderer *)

Definition esc (s : str) : str := html_escape s.

Definition tool_item (tool : ToolInfo) : str :=
  let title_html := esc (title_of tool) in
  let desc_html := text "<p>" ++ esc (description tool) ++ text "</p>" in
  text "        <li class=" ++ [DQUOTE] ++ text "tool-item" ++ [DQUOTE]
  ++ text ">" ++ [NL]
  ++ text "            <a href=" ++ [DQUOTE] ++ esc (filename tool)
  ++ [DQUOTE] ++ text " class=" ++ [DQUOTE] ++ text "tool-link" ++ [DQUOTE]
  ++ text ">" ++ [NL]
  ++ text "                <span class=" ++ [DQUOTE] ++ text "tool-title"
  ++ [DQUOTE] ++ text ">" ++ title_html ++ text "</span>" ++ [NL]
  ++ text "            </a>" ++ desc_html ++ [NL]
  ++ text "        </li>".

Definition _render_tools_html (tools : list ToolInfo) : str :=
  join [NL] (List.map tool_item tools).

Definition PLACEHOLDER : str := text "<!-- TOOLS_LIST -->".

(** [generate_index_html(tools, template_path)], the template path being
    [template_name] in the directory of the world. *)
Definition generate_index_html (tools : list ToolInfo) (template_name : str)
  : IO str :=
  template_path <- path template_name ;;
  match template_path with
  | None =>
      w <- (fun w => (Return w, w)) ;;
      raise (FileNotFoundError
               (text "Template file not found: "
                ++ path_join (repo_dir w) template_name))
  | Some n =>
      template <- read_text n ;;
      let tools_html := _render_tools_html tools in
      ret (replace PLACEHOLDER tools_html template)
  end.

(** ** The command line driver *)

Record Args := {
  check : bool;
  dry_run : bool;
  write : bool
}.

Definition decimal (n : nat) : str :=
  text (NilEmpty.string_of_uint (Nat.to_uint n)).

(** [main()], from the parsed arguments on; the result is what it returns,
    the exit status of the program. *)
Definition main (args : Args) : IO Z :=
  let args :=
    if dry_run args
    then {| check := check args; dry_run := dry_run args; write := false |}
    else args in
  w <- (fun w => (Return w, w)) ;;
  let index_name := text "index.html" in
  let template_name := text "index.template.html" in
  tools <- scan_tools (repo_dir w) None ;;
  new_content <- generate_index_html tools template_name ;;
  index_path <- path index_name ;;
  up_to_date <-
    match index_path with
    | Some n =>
        existing_content <- read_text n ;;
        ret (str_eqb existing_content new_content)
    | None => ret false
    end ;;
  if up_to_date then
    (if dry_run args || check args
     then print (text "index.html is up to date.")
     else ret tt) ;;;
    ret 0%Z
  else if check args then
    print_err (text "index.html is out of date.") ;;;
    ret 1%Z
  else if dry_run args then
    print (text "index.html would be updated:") ;;;
    print (repeat 61%N 60) ;;;
    print new_content ;;;
    print (repeat 61%N 60) ;;;
    ret 0%Z
  else
    write_text index_name new_content ;;;
    print (text "Generated index.html with " ++ decimal (length tools)
           ++ text " tool(s).") ;;;
    ret 0%Z.

(** The exit status of the process: what [main] returned, or 1 after an
    exception nobody caught. *)
Definition exit_status (r : result Z) : Z :=
  match r with
  | Return n => n
  | Raise _ => 1%Z
  end.

(** ** Notions used to state the properties *)

(** Substituting the first occurrence only, [s.replace(old, new, 1)]: what
    the renderer would do if it stopped after one substitution. *)
Fixpoint replace_first (old new s : str) : str :=
  match s with
  | [] => match old with [] => new | _ :: _ => [] end
  | c :: s' =>
      if starts_with old s then new ++ skipn (length old) s
      else c :: replace_first old new s'
  end.

(** A world whose directory holds the given entries and where nothing has
    been printed yet. *)
Definition fresh (directory : str) (l : list entry) : world :=
  {| repo_dir := directory; entries := l; stdout := []; stderr := [] |}.

(** A file with the given ASCII content. *)
Definition ascii_file (name content : string) : entry :=
  (text name, File (ascii_bytes content)).

Definition TEMPLATE_NAME : str := text "index.template.html".
Definition INDEX_NAME : str := text "index.html".

Definition tool (name title description : string) : ToolInfo :=
  {| filename := text name; title_of := text title;
     description := text description |}.

(** A template that holds the placeholder twice. *)
Definition twice_template : string :=
  "<ul><!-- TOOLS_LIST --></ul><ol><!-- TOOLS_LIST --></ol>".

Definition twice_world : world :=
  fresh (text "/repo") [ascii_file "index.template.html" twice_template].

Definition one_tool : list ToolInfo := [tool "a.html" "A Tool" "Does A"].

(** What [html.escape] does to one character. *)
Definition escape_char (c : char) : str :=
  if N.eqb c 38 then text "&amp;"
  else if N.eqb c 60 then text "&lt;"
  else if N.eqb c 62 then text "&gt;"
  else if N.eqb c DQUOTE then text "&quot;"
  else if N.eqb c SQUOTE then text "&#x27;"
  else [c].

(** How often [c] occurs in [s]. *)
Definition count (c : char) (s : str) : nat := length (filter (N.eqb c) s).

(** The five entities, without their ampersand. *)
Definition ENTITIES : list str :=
  [text "amp;"; text "lt;"; text "gt;"; text "quot;"; text "#x27;"].

(** Every ampersand of [s] opens one of the five entities. *)
Fixpoint ampersands_escaped (s : str) : bool :=
  match s with
  | [] => true
  | c :: s' =>
      (if N.eqb c 38 then existsb (fun e => starts_with e s') ENTITIES
       else true)
      && ampersands_escaped s'
  end.

(** The markup of a list item around its three fields: up to the file
    name, from there to the title, from there to the description, and the
    end. *)
Definition ITEM_OPEN : str :=
  text "        <li class=" ++ [DQUOTE] ++ text "tool-item" ++ [DQUOTE]
  ++ text ">" ++ [NL] ++ text "            <a href=" ++ [DQUOTE].

Definition ITEM_LINK : str :=
  [DQUOTE] ++ text " class=" ++ [DQUOTE] ++ text "tool-link" ++ [DQUOTE]
  ++ text ">" ++ [NL] ++ text "                <span class=" ++ [DQUOTE]
  ++ text "tool-title" ++ [DQUOTE] ++ text ">".

Definition ITEM_TEXT : str :=
  text "</span>" ++ [NL] ++ text "            </a><p>".

Definition ITEM_CLOSE : str := text "</p>" ++ [NL] ++ text "        </li>".

Definition script_tool : list ToolInfo :=
  [tool "x.html" "X" "<script>alert('x')</script>"].

(** The exclusion list a call of [scan_tools] works with. *)
Definition exclusions (exclude : option (list str)) : list str :=
  match exclude with
  | None => DEFAULT_EXCLUDE
  | Some l => l
  end.

(** [a] may stand before [b] in the sorted list: the key of [b] is not
    smaller than the key of [a]. *)
Definition key_le (key : ToolInfo -> str) (a b : ToolInfo) : Prop :=
  str_ltb (key b) (key a) = false.

(** The tools of [l] whose key is [k], in the order of [l]. *)
Definition with_key (key : ToolInfo -> str) (k : str) (l : list ToolInfo)
  : list ToolInfo :=
  filter (fun t => str_eqb (key t) k) l.

Definition described (name : string) : entry :=
  ascii_file name "<meta name='description' content='A tool'>".

Definition banana_first : world :=
  fresh (text "/repo") [described "Banana.html"; described "apple.html"].

Definition apple_first : world :=
  fresh (text "/repo") [described "apple.html"; described "Banana.html"].

(** Two names with the same key, on a file system that tells them apart. *)
Definition same_key : world :=
  fresh (text "/repo") [described "B.html"; described "a.html";
                        described "b.html"].

Definition same_key_tools : list ToolInfo :=
  [tool "a.html" "A" "A tool"; tool "B.html" "B" "A tool";
   tool "b.html" "B" "A tool"].

(** *** Meta-description tags

    What the description pattern accepts, said without the matcher. *)

(** The code points that stand for the lower-case or caseless ASCII
    character [p] when case is ignored: itself, its capital, and for [i],
    [s] and [k] the letters the regular expression engine adds (dotted
    capital I and dotless i, long s, the Kelvin sign). *)
Definition case_variants (p : char) : list char :=
  p :: (if in_range 97 122 p then [(p - 32)%N] else [])
    ++ (if N.eqb p 105 then [304; 305]%N else [])
    ++ (if N.eqb p 115 then [383%N] else [])
    ++ (if N.eqb p 107 then [8490%N] else []).

(** [t] is the literal [p], whatever the case of its letters. *)
Definition same_ci (p : string) (t : str) : Prop :=
  Forall2 (fun pc c => In c (case_variants pc)) (text p) t.

(** A non-empty run of white space. *)
Definition blank (ws : str) : Prop :=
  ws <> [] /\ Forall (fun c => is_space c = true) ws.

Definition is_quote (c : char) : Prop := c = DQUOTE \/ c = SQUOTE.

(** [s] begins with a meta-description tag, attribute [name] before
    attribute [content], each value between quotes of either kind; [v] is
    the content value, which runs up to the next quote of either kind and
    holds no line break. *)
Definition meta_tag_at (s v : str) : Prop :=
  exists m ws1 n q1 d q2 ws2 c q3 q4 rest,
    s = m ++ ws1 ++ n ++ [q1] ++ d ++ [q2] ++ ws2 ++ c ++ [q3] ++ v
        ++ [q4] ++ rest
    /\ same_ci "<meta" m /\ blank ws1 /\ same_ci "name=" n /\ is_quote q1
    /\ same_ci "description" d /\ is_quote q2 /\ blank ws2
    /\ same_ci "content=" c /\ is_quote q3 /\ is_quote q4
    /\ Forall (fun x => x <> NL /\ ~ is_quote x) v.

(** [content] holds a meta-description tag somewhere. *)
Definition has_meta_tag (content : str) : Prop :=
  exists pre s v, content = pre ++ s /\ meta_tag_at s v.

(** The first meta-description tag of [content] has the value [v]. *)
Definition first_meta_tag (content v : str) : Prop :=
  exists pre s,
    content = pre ++ s /\ meta_tag_at s v
    /\ forall pre' s' v',
        content = pre' ++ s' -> length pre' < length pre ->
        ~ meta_tag_at s' v'.

(** The longest prefix of [s] whose characters pass [test], and the rest. *)
Fixpoint take_while (test : char -> bool) (s : str) : str :=
  match s with
  | c :: s' => if test c then c :: take_while test s' else []
  | [] => []
  end.

Fixpoint skip_while (test : char -> bool) (s : str) : str :=
  match s with
  | c :: s' => if test c then skip_while test s' else s
  | [] => []
  end.

(** The pattern items of a run of literal characters. *)
Definition lits (l : list char) : list op :=
  List.map (fun c => One (LITERAL c)) l.

(** A literal of a pattern that is its own lower case. *)
Definition plain (p : char) : Prop :=
  in_range 65 90 p = false /\ p <> 304%N /\ p <> 8490%N.

(** A page whose tag is written in capitals, with single quotes around the
    name and double quotes around a padded value. *)
Definition capitals_page : str :=
  text "<META  name='description' content=" ++ [DQUOTE] ++ text "  Does A "
  ++ [DQUOTE] ++ text "><title>A</title>".

(** *** Notions for the scanner and the driver *)

(** What [read_text] gives on an entry: its text, or the exception. *)
Definition content_of (n : node) : result str :=
  match n with
  | Unreadable strerror => Raise (OSError strerror)
  | File data =>
      match decode data with
      | Some s => Return (universal_newlines s)
      | None => Raise UnicodeDecodeError
      end
  end.

(** The world after one more line on the error stream. *)
Definition warned (w : world) (line : str) : world :=
  {| repo_dir := repo_dir w; entries := entries w;
     stdout := stdout w; stderr := stderr w ++ [line] |}.

(** The same world with another directory listing. *)
Definition with_entries (w : world) (l : list entry) : world :=
  {| repo_dir := repo_dir w; entries := l;
     stdout := stdout w; stderr := stderr w |}.

(** The record the scan makes of the file [name] with text [content] and
    description [d]. *)
Definition tool_of (name content d : str) : ToolInfo :=
  {| filename := name;
     title_of := py_or (extract_title content) (derived_title name);
     description := d |}.

(** [t] was made from a listed file that is not excluded, can be read and
    has a description. *)
Definition made_from (exclude : list str) (files : list entry)
    (t : ToolInfo) : Prop :=
  exists name n content d,
    In (name, n) files /\ is_excluded exclude name = false
    /\ content_of n = Return content
    /\ extract_description content = Some d
    /\ t = tool_of name content d.

(** The index on disk is stale with respect to [new_content]: there is no
    index, or its text differs. *)
Definition stale (w : world) (new_content : str) : Prop :=
  match lookup INDEX_NAME (entries w) with
  | None => True
  | Some n =>
      exists existing,
        content_of n = Return existing /\ existing <> new_content
  end.

(** The lines of the preview that [--dry-run] prints. *)
Definition preview (new_content : str) : list str :=
  [text "index.html would be updated:"; repeat 61%N 60; new_content;
   repeat 61%N 60].

Definition no_description : string := "<html><title>B</title></html>".

(** A file that is not valid UTF-8, listed before a file without
    description. *)
Definition undecodable_first : world :=
  fresh (text "/repo")
    [(text "a.html", File [Byte.xff; Byte.xfe]);
     ascii_file "b.html" no_description].

(** A file without description, listed before a file that is not valid
    UTF-8. *)
Definition undescribed_first : world :=
  fresh (text "/repo")
    [ascii_file "a.html" no_description;
     (text "b.html", File [Byte.xff; Byte.xfe])].

(** A file whose description tag has an empty content. *)
Definition empty_description : world :=
  fresh (text "/repo")
    [ascii_file "a.html"
       "<title>A</title><meta name='description' content=''>"].

(** An unreadable entry between two tools. *)
Definition unreadable_between : world :=
  fresh (text "/repo")
    [described "a.html";
     (text "b.html", Unreadable (text "[Errno 13] Permission denied"));
     described "c.html"].

(** A page with an empty title element. *)
Definition empty_title : world :=
  fresh (text "/repo")
    [ascii_file "my-tool.html"
       "<title></title><meta name='description' content='Mine'>"].

(** A repository with one tool, a template and an index that is out of
    date. *)
Definition stale_repo : world :=
  fresh (text "/repo")
    [described "a.html";
     ascii_file "index.template.html" "<ul><!-- TOOLS_LIST --></ul>";
     ascii_file "index.html" "<ul></ul>"].

(** What replacing the one character [c] by [new] does to a character. *)
Definition substitute (c : char) (new : str) (x : char) : str :=
  if N.eqb c x then new else [x].

(** *** Notions for the further properties of the scanner *)

(** The world after more lines on the error stream. *)
Definition logged (w : world) (lines : list str) : world :=
  {| repo_dir := repo_dir w; entries := entries w;
     stdout := stdout w; stderr := stderr w ++ lines |}.

(** The tool a listed file gives, if it gives one: it is not excluded,
    can be read and has a description. *)
Definition file_tools (exclude : list str) (f : entry) : list ToolInfo :=
  if is_excluded exclude (fst f) then []
  else
    match content_of (snd f) with
    | Return content =>
        match extract_description content with
        | Some d => [tool_of (fst f) content d]
        | None => []
        end
    | Raise _ => []
    end.

(** The warning a listed file gives, if it gives one: it is not excluded
    and its read raises an [OSError]. *)
Definition file_warnings (directory : str) (exclude : list str) (f : entry)
  : list str :=
  if is_excluded exclude (fst f) then []
  else
    match content_of (snd f) with
    | Raise e => if is_OSError e then [warning directory (fst f) e] else []
    | Return _ => []
    end.

(** The file does not end the scan: it is excluded, or its read raises an
    [OSError], or it can be read and has a description. *)
Definition passes (exclude : list str) (f : entry) : bool :=
  is_excluded exclude (fst f)
  || match content_of (snd f) with
     | Return content =>
         match extract_description content with
         | Some _ => true
         | None => false
         end
     | Raise e => is_OSError e
     end.

(** The lower-cased name of an entry. *)
Definition entry_key (f : entry) : str := lower (fst f).

(** *** Notions for the further properties of the driver *)

(** The line the driver prints after writing the index. *)
Definition generated_line (tools : list ToolInfo) : str :=
  text "Generated index.html with " ++ decimal (length tools)
  ++ text " tool(s).".

(** The world after the driver has written [data] to the index and
    reported it. *)
Definition written (w : world) (data : bytes) (tools : list ToolInfo)
  : world :=
  {| repo_dir := repo_dir w;
     entries := store INDEX_NAME (File data) (entries w);
     stdout := stdout w ++ [generated_line tools];
     stderr := stderr w |}.

(** The world after the driver has opened the index for writing and
    written nothing to it. *)
Definition emptied (w : world) : world :=
  {| repo_dir := repo_dir w;
     entries := store INDEX_NAME (File []) (entries w);
     stdout := stdout w;
     stderr := stderr w |}.

(** The world after more lines on the output stream. *)
Definition printed (w : world) (lines : list str) : world :=
  {| repo_dir := repo_dir w; entries := entries w;
     stdout := stdout w ++ lines; stderr := stderr w |}.

(** A repository whose template has no placeholder. *)
Definition plain_template_repo : world :=
  fresh (text "/repo")
    [described "a.html";
     ascii_file "index.template.html" "<ul></ul>"].

(** A repository without template. *)
Definition no_template_repo : world :=
  fresh (text "/repo") [described "a.html"].

(** A repository whose index is up to date. *)
Definition fresh_repo : world :=
  fresh (text "/repo")
    [ascii_file "index.template.html" "<ul><!-- TOOLS_LIST --></ul>";
     ascii_file "index.html" "<ul></ul>"].

(** A repository with a stale index and a tool whose file name holds a
    lone surrogate, as Python reads a name that is not valid UTF-8. *)
Definition surrogate_repo : world :=
  fresh (text "/repo")
    [(56448%N :: text ".html", snd (described "a.html"));
     ascii_file "index.template.html" "<ul><!-- TOOLS_LIST --></ul>";
     ascii_file "index.html" "<ul></ul>"].

(** *** Notions for the title element *)

(** [s] begins with a title element of content [v]: an opening tag, [v],
    and the first closing tag that follows the opening one. *)
Definition title_at (s v : str) : Prop :=
  exists o c rest,
    s = o ++ v ++ c ++ rest
    /\ same_ci "<title>" o /\ same_ci "</title>" c
    /\ forall v1 x v2 c' rest',
        v = v1 ++ x :: v2 -> x :: v2 ++ c ++ rest = c' ++ rest' ->
        ~ same_ci "</title>" c'.

(** [content] holds an opening title tag with a closing one after it. *)
Definition has_title (content : str) : Prop :=
  exists pre o v c rest,
    content = pre ++ o ++ v ++ c ++ rest
    /\ same_ci "<title>" o /\ same_ci "</title>" c.

(** The first title element of [content] has the content [v]. *)
Definition first_title (content v : str) : Prop :=
  exists pre s,
    content = pre ++ s /\ title_at s v
    /\ forall pre' s' v',
        content = pre' ++ s' -> length pre' < length pre ->
        ~ title_at s' v'.

(** A page whose title runs over three lines, between tags in capitals,
    with a second closing tag further on. *)
Definition titled_page : str :=
  text "<TITLE>" ++ [NL] ++ text "  My Tool " ++ [NL]
  ++ text "</Title><p>x</title>".

(** *** Notions for the derived title *)

(** A hyphen or an underscore becomes a space. *)
Definition spaced (c : char) : char :=
  if N.eqb c 45 || N.eqb c 95 then 32%N else c.

(** The run [r] has no code point with the image [q]. *)
Definition run_avoids (q : char) (r : case_run) : bool :=
  let '(lo, hi, _, image) := r in
  negb (in_range image (image + (hi - lo)) q).

(** * Properties *)

(** ** Text *)

Lemma str_eqb_eq (a b : str) : str_eqb a b = true <-> a = b.
Proof.
  revert b; induction a as [|x a IH]; intros [|y b]; simpl;
    try (split; [discriminate | congruence]); try tauto.
  rewrite andb_true_iff, N.eqb_eq, IH.
  split; [intros [-> ->]; reflexivity | intros [= -> ->]; auto].
Qed.

Lemma str_eqb_refl (a : str) : str_eqb a a = true.
Proof. apply str_eqb_eq; reflexivity. Qed.

Lemma str_eqb_neq (a b : str) : str_eqb a b = false <-> a <> b.
Proof.
  rewrite <- str_eqb_eq. destruct (str_eqb a b); intuition congruence.
Qed.

Lemma starts_with_iff (p s : str) :
  starts_with p s = true <-> exists r, s = p ++ r.
Proof.
  revert s; induction p as [|x p IH]; intros s; simpl.
  - split; eauto.
  - destruct s as [|y s].
    + split; [discriminate | intros [r [=]]].
    + rewrite andb_true_iff, N.eqb_eq, IH. split.
      * intros [-> [r ->]]; eauto.
      * intros [r [= -> ->]]; eauto.
Qed.

Lemma starts_with_app (p r : str) : starts_with p (p ++ r) = true.
Proof. apply starts_with_iff; eauto. Qed.

(** A prefix of [q ++ x] either lies within [q] or runs over its end. *)
Lemma starts_with_split (o q x : str) :
  starts_with o (q ++ x) = true ->
  starts_with o q = true
  \/ exists o2, o = q ++ o2 /\ o2 <> [] /\ starts_with o2 x = true.
Proof.
  revert o; induction q as [|c q IH]; intros o H.
  - destruct o as [|a o]; [left; reflexivity|].
    right; exists (a :: o); repeat split; auto; discriminate.
  - destruct o as [|a o]; [left; reflexivity|].
    simpl in H; apply andb_true_iff in H as [Ha H].
    apply N.eqb_eq in Ha; subst c.
    destruct (IH _ H) as [H1 | (o2 & -> & Hne & H2)].
    + left; simpl; rewrite N.eqb_refl; exact H1.
    + right; exists o2; auto.
Qed.

Lemma contains_cons (old : str) (c : char) (s : str) :
  contains old (c :: s) = false ->
  starts_with old (c :: s) = false /\ contains old s = false.
Proof. simpl; intros H; apply orb_false_iff in H; exact H. Qed.

(** ** [replace] *)

Lemma replace_scan_skip (old new u rest : str) :
  replace_scan old new (u ++ rest) (length u) = replace_scan old new rest 0.
Proof.
  induction u as [|c u IH]; simpl; [|exact IH].
  destruct rest; reflexivity.
Qed.

Lemma replace_scan_here (old new rest : str) :
  old <> [] ->
  replace_scan old new (old ++ rest) 0 = new ++ replace_scan old new rest 0.
Proof.
  intros Hne. destruct old as [|c t]; [congruence|].
  change ((c :: t) ++ rest) with (c :: (t ++ rest)).
  cbn [replace_scan].
  change (c :: t ++ rest) with ((c :: t) ++ rest).
  rewrite starts_with_app.
  f_equal. cbn [length]. rewrite Nat.sub_succ, Nat.sub_0_r.
  apply replace_scan_skip.
Qed.

Lemma replace_scan_step (old new : str) (c : char) (s : str) :
  starts_with old (c :: s) = false ->
  replace_scan old new (c :: s) 0 = c :: replace_scan old new s 0.
Proof. intros H; cbn [replace_scan]; rewrite H; reflexivity. Qed.

Lemma replace_scan_absent (old new s : str) :
  contains old s = false -> replace_scan old new s 0 = s.
Proof.
  induction s as [|c s IH]; intros H; [reflexivity|].
  apply contains_cons in H as [H1 H2].
  rewrite replace_scan_step by exact H1. f_equal; auto.
Qed.

(** An occurrence of [old] cannot begin inside a piece that holds none and
    end inside the occurrence that follows the piece, when the first
    character of [old] does not come back in [old]. *)
Lemma no_straddle (c0 : char) (t q rest : str) :
  ~ In c0 t -> q <> [] ->
  starts_with (c0 :: t) q = false ->
  starts_with (c0 :: t) (q ++ (c0 :: t) ++ rest) = false.
Proof.
  intros Hin Hq Hs.
  destruct (starts_with (c0 :: t) (q ++ (c0 :: t) ++ rest)) eqn:E; auto.
  apply starts_with_split in E as [E | (o2 & Ho & Hne & E)]; [congruence|].
  exfalso. destruct q as [|a q]; [congruence|].
  injection Ho as -> ->.
  destruct o2 as [|b o2]; [congruence|].
  simpl in E. apply andb_true_iff in E as [E _]. apply N.eqb_eq in E; subst b.
  apply Hin, in_or_app; right; left; reflexivity.
Qed.

Lemma replace_scan_piece (c0 : char) (t new p rest : str) :
  ~ In c0 t ->
  contains (c0 :: t) p = false ->
  replace_scan (c0 :: t) new (p ++ (c0 :: t) ++ rest) 0
  = p ++ new ++ replace_scan (c0 :: t) new rest 0.
Proof.
  intros Hin. induction p as [|c p IH]; intros H.
  - rewrite !app_nil_l. apply replace_scan_here; discriminate.
  - apply contains_cons in H as [H1 H2].
    change ((c :: p) ++ (c0 :: t) ++ rest)
      with (c :: (p ++ (c0 :: t) ++ rest)).
    rewrite replace_scan_step.
    + rewrite IH by exact H2. reflexivity.
    + change (c :: (p ++ (c0 :: t) ++ rest))
        with ((c :: p) ++ (c0 :: t) ++ rest).
      apply no_straddle; auto; discriminate.
Qed.

(** Replacing in a text made of pieces without [old], joined by [old],
    joins the same pieces by [new]. *)
Lemma replace_join (c0 : char) (t new : str) (pieces : list str) :
  ~ In c0 t ->
  Forall (fun p => contains (c0 :: t) p = false) pieces ->
  replace (c0 :: t) new (join (c0 :: t) pieces) = join new pieces.
Proof.
  intros Hin H. unfold replace.
  induction H as [|p l Hp Hl IH]; [reflexivity|].
  destruct l as [|p' l].
  - simpl. apply replace_scan_absent; exact Hp.
  - change (join (c0 :: t) (p :: p' :: l))
      with (p ++ (c0 :: t) ++ join (c0 :: t) (p' :: l)).
    rewrite replace_scan_piece by assumption.
    rewrite IH. reflexivity.
Qed.

(** Every text is made of such pieces. *)
Lemma split_pieces (old s : str) :
  old <> [] ->
  exists pieces,
    pieces <> [] /\ s = join old pieces
    /\ Forall (fun p => contains old p = false) pieces.
Proof.
  intros Hne.
  remember (length s) as n eqn:Hn. revert s Hn.
  induction n as [n IH] using lt_wf_ind. intros s Hn.
  assert (Hfirst : forall u : str,
             contains old u = false
             \/ exists pre rest, u = pre ++ old ++ rest
                                 /\ contains old pre = false).
  { induction u as [|c u IHu].
    - destruct (contains old []) eqn:E; auto. right.
      simpl in E. rewrite orb_false_r in E.
      apply starts_with_iff in E as [r E].
      exists [], r. split; [exact E|].
      destruct old; [congruence|reflexivity].
    - destruct (starts_with old (c :: u)) eqn:E.
      + right. apply starts_with_iff in E as [r E].
        exists [], r. split; [exact E|].
        destruct old; [congruence|reflexivity].
      + destruct IHu as [Hu | (pre & rest & -> & Hpre)].
        * left. simpl contains. simpl in E. rewrite E. exact Hu.
        * destruct (starts_with old (c :: pre)) eqn:E2.
          -- right. apply starts_with_iff in E2 as [r E2].
             exists [], (r ++ old ++ rest). split.
             ++ change (c :: pre ++ old ++ rest)
                  with ((c :: pre) ++ old ++ rest).
                rewrite E2, <- app_assoc. reflexivity.
             ++ destruct old; [congruence|reflexivity].
          -- right. exists (c :: pre), rest. split; [reflexivity|].
             simpl contains. simpl in E2. rewrite E2. exact Hpre. }
  destruct (Hfirst s) as [Hs | (pre & rest & -> & Hpre)].
  - exists [s]. repeat split; [discriminate | auto].
  - destruct (IH (length rest)) with (s := rest)
      as (pieces & Hp & -> & Hall); [|reflexivity|].
    + subst n. rewrite !length_app.
      destruct old; [congruence|simpl; lia].
    + exists (pre :: pieces). repeat split; [discriminate | | auto].
      destruct pieces; [congruence|reflexivity].
Qed.

(** ** The renderer: substitution of the placeholder *)

Lemma read_text_world (n : node) (w : world) :
  read_text n w = (fst (read_text n w), w).
Proof.
  destruct n as [data|e]; simpl; [|reflexivity].
  destruct (decode data); reflexivity.
Qed.

Lemma placeholder_first_char :
  exists t, PLACEHOLDER = 60%N :: t /\ ~ In 60%N t.
Proof.
  eexists; split; [reflexivity|].
  intros H; repeat (destruct H as [H|H]; [discriminate H|]); exact H.
Qed.

Lemma generate_index_html_eq (w : world) (tools : list ToolInfo)
    (name : str) (n : node) (template : str) :
  lookup name (entries w) = Some n ->
  read_text n w = (Return template, w) ->
  generate_index_html tools name w
  = (Return (replace PLACEHOLDER (_render_tools_html tools) template), w).
Proof.
  intros Hl Hr. unfold generate_index_html, bind, path.
  rewrite Hl, Hr. reflexivity.
Qed.

(** C2, as amended: the document is the template with every occurrence of
    the placeholder replaced by the rendered fragment.  Every template is a
    sequence of pieces free of the placeholder with one placeholder between
    neighbours, and the document is the same pieces with the fragment
    between neighbours. *)
Theorem generate_index_html_replaces_every_placeholder
    (w : world) (tools : list ToolInfo) (name : str) (n : node)
    (template : str) :
  lookup name (entries w) = Some n ->
  read_text n w = (Return template, w) ->
  exists pieces,
    template = join PLACEHOLDER pieces
    /\ Forall (fun p => contains PLACEHOLDER p = false) pieces
    /\ generate_index_html tools name w
       = (Return (join (_render_tools_html tools) pieces), w).
Proof.
  intros Hl Hr.
  destruct (@split_pieces PLACEHOLDER template) as (pieces & _ & Ht & Hall);
    [discriminate|].
  exists pieces. repeat split; auto.
  rewrite (generate_index_html_eq _ _ Hl Hr), Ht.
  destruct placeholder_first_char as (t & Hp & Hin).
  rewrite Hp in *. rewrite replace_join by assumption. reflexivity.
Qed.

Lemma generate_index_html_replaces_every_placeholder_witness :
  exists pieces,
    text twice_template = join PLACEHOLDER pieces
    /\ Forall (fun p => contains PLACEHOLDER p = false) pieces
    /\ generate_index_html one_tool TEMPLATE_NAME twice_world
       = (Return (join (_render_tools_html one_tool) pieces), twice_world).
Proof.
  apply (@generate_index_html_replaces_every_placeholder
           twice_world one_tool TEMPLATE_NAME
           (File (ascii_bytes twice_template)) (text twice_template));
    reflexivity.
Defined.

(** C2, as stated, fails: with two placeholders in the template the second
    one is replaced as well, where a substitution of the first occurrence
    only would have left it in the document. *)
Lemma generate_index_html_second_placeholder_replaced :
  let fragment := _render_tools_html one_tool in
  fst (generate_index_html one_tool TEMPLATE_NAME twice_world)
  = Return (text "<ul>" ++ fragment ++ text "</ul><ol>" ++ fragment
            ++ text "</ol>")
  /\ replace_first PLACEHOLDER fragment (text twice_template)
     = text "<ul>" ++ fragment ++ text "</ul><ol>" ++ PLACEHOLDER
       ++ text "</ol>"
  /\ fst (generate_index_html one_tool TEMPLATE_NAME twice_world)
     <> Return (replace_first PLACEHOLDER fragment (text twice_template)).
Proof.
  repeat split; try (vm_compute; reflexivity).
  vm_compute; discriminate.
Qed.

(** ** The renderer: escaping *)

Section Escaping.

Lemma replace_one_char (c : char) (new s : str) :
  replace [c] new s = flat_map (substitute c new) s.
Proof.
  unfold replace. induction s as [|x s IH]; [reflexivity|].
  cbn [replace_scan flat_map starts_with length]. unfold substitute at 1.
  rewrite andb_true_r.
  destruct (N.eqb c x); simpl; rewrite IH; reflexivity.
Qed.

Lemma html_escape_unfold (s : str) :
  html_escape s
  = flat_map (substitute SQUOTE (text "&#x27;"))
      (flat_map (substitute DQUOTE (text "&quot;"))
         (flat_map (substitute 62%N (text "&gt;"))
            (flat_map (substitute 60%N (text "&lt;"))
               (flat_map (substitute 38%N (text "&amp;")) s)))).
Proof.
  unfold html_escape.
  change (text "&") with [38%N]. change (text "<") with [60%N].
  change (text ">") with [62%N].
  rewrite !replace_one_char. reflexivity.
Qed.

Lemma substitute_other (c : char) (new : str) (x : char) :
  x <> c -> flat_map (substitute c new) [x] = [x].
Proof.
  intros H. simpl. unfold substitute.
  destruct (N.eqb_spec c x); [congruence|reflexivity].
Qed.

Lemma html_escape_char (x : char) : html_escape [x] = escape_char x.
Proof.
  rewrite html_escape_unfold. unfold escape_char.
  destruct (N.eqb_spec x 38) as [->|H1]; [reflexivity|].
  destruct (N.eqb_spec x 60) as [->|H2]; [reflexivity|].
  destruct (N.eqb_spec x 62) as [->|H3]; [reflexivity|].
  destruct (N.eqb_spec x DQUOTE) as [->|H4]; [reflexivity|].
  destruct (N.eqb_spec x SQUOTE) as [->|H5]; [reflexivity|].
  rewrite !substitute_other by assumption. reflexivity.
Qed.

Lemma html_escape_app (a b : str) :
  html_escape (a ++ b) = html_escape a ++ html_escape b.
Proof. rewrite !html_escape_unfold, !flat_map_app. reflexivity. Qed.

(** [html.escape] works character by character. *)
Lemma html_escape_flat_map (s : str) :
  html_escape s = flat_map escape_char s.
Proof.
  induction s as [|x s IH]; [reflexivity|].
  change (x :: s) with ([x] ++ s).
  rewrite html_escape_app, html_escape_char, IH. reflexivity.
Qed.

Lemma count_app (c : char) (a b : str) :
  count c (a ++ b) = count c a + count c b.
Proof. unfold count. rewrite filter_app, length_app. reflexivity. Qed.

Lemma count_cons (c x : char) (s : str) :
  count c (x :: s) = (if N.eqb c x then 1 else 0) + count c s.
Proof. unfold count; simpl. destruct (N.eqb c x); reflexivity. Qed.

Lemma count_escape_char (c x : char) :
  In c [60; 62; DQUOTE; SQUOTE]%N -> count c (escape_char x) = 0.
Proof.
  intros Hc. unfold escape_char.
  destruct (N.eqb_spec x 38) as [->|H1];
    [repeat (destruct Hc as [<-|Hc]; [reflexivity|]); contradiction|].
  destruct (N.eqb_spec x 60) as [->|H2];
    [repeat (destruct Hc as [<-|Hc]; [reflexivity|]); contradiction|].
  destruct (N.eqb_spec x 62) as [->|H3];
    [repeat (destruct Hc as [<-|Hc]; [reflexivity|]); contradiction|].
  destruct (N.eqb_spec x DQUOTE) as [->|H4];
    [repeat (destruct Hc as [<-|Hc]; [reflexivity|]); contradiction|].
  destruct (N.eqb_spec x SQUOTE) as [->|H5];
    [repeat (destruct Hc as [<-|Hc]; [reflexivity|]); contradiction|].
  rewrite count_cons.
  destruct (N.eqb_spec c x) as [->|_]; [|reflexivity].
  exfalso. unfold DQUOTE, SQUOTE in *.
  repeat (destruct Hc as [Hc|Hc]; [congruence|]). contradiction.
Qed.

Lemma count_esc (c : char) (s : str) :
  In c [60; 62; DQUOTE; SQUOTE]%N -> count c (esc s) = 0.
Proof.
  intros Hc. unfold esc. rewrite html_escape_flat_map.
  induction s as [|x s IH]; [reflexivity|].
  simpl. rewrite count_app, IH, count_escape_char by exact Hc. reflexivity.
Qed.

Lemma existsb_starts_with_app (l : list str) (a b : str) :
  existsb (fun e => starts_with e a) l = true ->
  existsb (fun e => starts_with e (a ++ b)) l = true.
Proof.
  rewrite !existsb_exists. intros (e & He & H). exists e; split; auto.
  apply starts_with_iff in H as [r ->]. rewrite <- app_assoc.
  apply starts_with_app.
Qed.

Lemma ampersands_escaped_app (a b : str) :
  ampersands_escaped a = true -> ampersands_escaped b = true ->
  ampersands_escaped (a ++ b) = true.
Proof.
  intros Ha Hb. induction a as [|c a IH]; [exact Hb|].
  cbn [ampersands_escaped app] in *.
  apply andb_true_iff in Ha as [H1 H2].
  rewrite IH by exact H2. rewrite andb_true_r.
  destruct (N.eqb c 38); [|reflexivity].
  apply existsb_starts_with_app; exact H1.
Qed.

Lemma ampersands_escaped_char (x : char) :
  ampersands_escaped (escape_char x) = true.
Proof.
  unfold escape_char.
  destruct (N.eqb_spec x 38) as [->|H1]; [reflexivity|].
  destruct (N.eqb x 60); [reflexivity|].
  destruct (N.eqb x 62); [reflexivity|].
  destruct (N.eqb x DQUOTE); [reflexivity|].
  destruct (N.eqb x SQUOTE); [reflexivity|].
  simpl. destruct (N.eqb_spec x 38); [congruence|reflexivity].
Qed.

Lemma ampersands_escaped_esc (s : str) : ampersands_escaped (esc s) = true.
Proof.
  unfold esc. rewrite html_escape_flat_map.
  induction s as [|x s IH]; [reflexivity|].
  simpl. apply ampersands_escaped_app; auto using ampersands_escaped_char.
Qed.

Lemma count_tool_item (t : ToolInfo) :
  count 60 (tool_item t) = 8 /\ count 62 (tool_item t) = 8
  /\ count DQUOTE (tool_item t) = 8 /\ count SQUOTE (tool_item t) = 0.
Proof.
  unfold tool_item.
  repeat split; rewrite !count_app, !count_esc by (simpl; tauto);
    reflexivity.
Qed.

Lemma ampersands_escaped_tool_item (t : ToolInfo) :
  ampersands_escaped (tool_item t) = true.
Proof.
  unfold tool_item.
  repeat first [ apply ampersands_escaped_esc
               | reflexivity
               | apply ampersands_escaped_app ].
Qed.

Lemma count_join_items (c : char) (k : nat) (items : list str) :
  c <> NL ->
  Forall (fun i => count c i = k) items ->
  count c (join [NL] items) = k * length items.
Proof.
  intros Hc H. induction H as [|i l Hi Hl IH].
  - cbn [join length]. rewrite Nat.mul_0_r. reflexivity.
  - destruct l as [|j l].
    + cbn [join length]. lia.
    + change (join [NL] (i :: j :: l))
        with (i ++ [NL] ++ join [NL] (j :: l)).
      rewrite !count_app, IH, Hi. cbn [length].
      replace (count c [NL]) with 0; [lia|].
      rewrite count_cons.
      destruct (N.eqb_spec c NL); [congruence|reflexivity].
Qed.

Lemma ampersands_escaped_join (items : list str) :
  Forall (fun i => ampersands_escaped i = true) items ->
  ampersands_escaped (join [NL] items) = true.
Proof.
  intros H. induction H as [|i l Hi Hl IH]; [reflexivity|].
  destruct l as [|j l]; [exact Hi|].
  change (join [NL] (i :: j :: l)) with (i ++ [NL] ++ join [NL] (j :: l)).
  repeat apply ampersands_escaped_app; auto.
Qed.

Lemma tool_item_shape (t : ToolInfo) :
  tool_item t
  = ITEM_OPEN ++ flat_map escape_char (filename t)
    ++ ITEM_LINK ++ flat_map escape_char (title_of t)
    ++ ITEM_TEXT ++ flat_map escape_char (description t) ++ ITEM_CLOSE.
Proof.
  unfold tool_item, esc. rewrite !html_escape_flat_map.
  unfold ITEM_OPEN, ITEM_LINK, ITEM_TEXT, ITEM_CLOSE.
  rewrite <- !app_assoc. reflexivity.
Qed.

Lemma join_infix (sep x : str) (items : list str) :
  In x items -> exists pre post, join sep items = pre ++ x ++ post.
Proof.
  induction items as [|y l IH]; [contradiction|].
  intros [->|Hin].
  - exists []. destruct l as [|z l].
    + exists []. simpl. rewrite app_nil_r. reflexivity.
    + exists (sep ++ join sep (z :: l)). reflexivity.
  - destruct (IH Hin) as (pre & post & E).
    destruct l as [|z l]; [contradiction|].
    exists (y ++ sep ++ pre), post.
    change (join sep (y :: z :: l)) with (y ++ sep ++ join sep (z :: l)).
    rewrite E, <- !app_assoc. reflexivity.
Qed.

End Escaping.

(** C7: the fragment holds, for each tool, the markup of a list item
    around the file name, the title and the description, each passed
    through [html.escape], which turns [&], [<], [>] and both quotes into
    entities, character by character.  Whatever the fields hold, the
    fragment has exactly the markup of its items, eight tags and eight
    double quotes an item and no single quote, and every ampersand in it
    opens one of the five entities.  A description with [<script>] shows
    up as [&lt;script&gt;] and not as a tag. *)
Theorem render_tools_html_escapes (tools : list ToolInfo) :
  let fragment := _render_tools_html tools in
  (forall s, esc s = flat_map escape_char s)
  /\ (forall t, In t tools ->
                exists pre post,
                  fragment
                  = pre
                    ++ (ITEM_OPEN ++ flat_map escape_char (filename t)
                        ++ ITEM_LINK ++ flat_map escape_char (title_of t)
                        ++ ITEM_TEXT
                        ++ flat_map escape_char (description t)
                        ++ ITEM_CLOSE)
                    ++ post)
  /\ count 60 fragment = 8 * length tools
  /\ count 62 fragment = 8 * length tools
  /\ count DQUOTE fragment = 8 * length tools
  /\ count SQUOTE fragment = 0
  /\ ampersands_escaped fragment = true
  /\ contains (text "&lt;script&gt;") (_render_tools_html script_tool) = true
  /\ contains (text "<script>") (_render_tools_html script_tool) = false.
Proof.
  cbv zeta. unfold _render_tools_html.
  split; [exact html_escape_flat_map|].
  split.
  { intros t Ht. rewrite <- tool_item_shape.
    apply join_infix, in_map, Ht. }
  assert (Hlen : length (List.map tool_item tools) = length tools)
    by apply length_map.
  repeat split.
  - rewrite count_join_items with (k := 8); [lia|discriminate|].
    apply Forall_map, Forall_forall; intros t _; apply count_tool_item.
  - rewrite count_join_items with (k := 8); [lia|discriminate|].
    apply Forall_map, Forall_forall; intros t _; apply count_tool_item.
  - rewrite count_join_items with (k := 8); [lia|discriminate|].
    apply Forall_map, Forall_forall; intros t _; apply count_tool_item.
  - rewrite count_join_items with (k := 0); [lia|discriminate|].
    apply Forall_map, Forall_forall; intros t _; apply count_tool_item.
  - apply ampersands_escaped_join.
    apply Forall_map, Forall_forall; intros t _.
    apply ampersands_escaped_tool_item.
Qed.

(** ** Sorting *)

Section Sorting.

Lemma str_ltb_irrefl (a : str) : str_ltb a a = false.
Proof.
  induction a as [|x a IH]; [reflexivity|].
  simpl. rewrite N.ltb_irrefl. exact IH.
Qed.

(** [<=] on keys is transitive. *)
Lemma str_leb_trans (a b c : str) :
  str_ltb b a = false -> str_ltb c b = false -> str_ltb c a = false.
Proof.
  revert b c; induction a as [|x a IH]; intros [|y b] [|z c]; simpl;
    try congruence.
  destruct (N.ltb_spec y x); [discriminate|].
  destruct (N.ltb_spec x y).
  - intros _.
    destruct (N.ltb_spec z y); [discriminate|].
    destruct (N.ltb_spec z x); [lia|].
    destruct (N.ltb_spec x z); [reflexivity|lia].
  - assert (x = y) by lia; subst y. intros Hab.
    destruct (N.ltb_spec z x); [discriminate|].
    destruct (N.ltb_spec x z); [reflexivity|].
    intros Hbc. eapply IH; eauto.
Qed.

Lemma str_ltb_asym (a b : str) :
  str_ltb a b = true -> str_ltb b a = false.
Proof.
  revert b; induction a as [|x a IH]; intros [|y b]; simpl; try congruence.
  destruct (N.ltb_spec x y).
  - intros _. destruct (N.ltb_spec y x); [lia|].
    destruct (N.ltb_spec x y); [reflexivity|lia].
  - destruct (N.ltb_spec y x); [discriminate|]. apply IH.
Qed.

Variable key : ToolInfo -> str.

Lemma insert_by_perm (t : ToolInfo) (l : list ToolInfo) :
  Permutation (t :: l) (insert_by key t l).
Proof.
  induction l as [|u l IH]; [reflexivity|].
  simpl. destruct (str_ltb (key u) (key t)); [|reflexivity].
  rewrite perm_swap. constructor. exact IH.
Qed.

Lemma sorted_perm (l : list ToolInfo) : Permutation l (sorted key l).
Proof.
  induction l as [|t l IH]; [reflexivity|].
  simpl. rewrite <- insert_by_perm. constructor. exact IH.
Qed.

Lemma insert_by_sorted (t : ToolInfo) (l : list ToolInfo) :
  StronglySorted (key_le key) l ->
  StronglySorted (key_le key) (insert_by key t l).
Proof.
  intros H. induction H as [|u l Hl IH Hu].
  - repeat constructor.
  - simpl. destruct (str_ltb (key u) (key t)) eqn:E.
    + constructor; [exact IH|].
      rewrite <- insert_by_perm. constructor; [|exact Hu].
      unfold key_le. apply str_ltb_asym; exact E.
    + constructor; [constructor; assumption|].
      constructor; [exact E|].
      eapply Forall_impl; [|exact Hu].
      intros v Hv. unfold key_le in *. eapply str_leb_trans; eauto.
Qed.

Lemma sorted_sorted (l : list ToolInfo) :
  StronglySorted (key_le key) (sorted key l).
Proof.
  induction l as [|t l IH]; [constructor|].
  simpl. apply insert_by_sorted; exact IH.
Qed.

Lemma insert_by_with_key (k : str) (t : ToolInfo) (l : list ToolInfo) :
  with_key key k (insert_by key t l) = with_key key k (t :: l).
Proof.
  unfold with_key. induction l as [|u l IH]; [reflexivity|].
  cbn [insert_by]. destruct (str_ltb (key u) (key t)) eqn:E; [|reflexivity].
  cbn [filter] in *. rewrite IH.
  destruct (str_eqb (key t) k) eqn:Et; [|reflexivity].
  destruct (str_eqb (key u) k) eqn:Eu; [|reflexivity].
  apply str_eqb_eq in Et, Eu. rewrite Et, Eu, str_ltb_irrefl in E.
  discriminate.
Qed.

(** The sort is stable: tools with one key keep their order. *)
Lemma sorted_stable (k : str) (l : list ToolInfo) :
  with_key key k (sorted key l) = with_key key k l.
Proof.
  induction l as [|t l IH]; [reflexivity|].
  cbn [sorted fold_right]. rewrite insert_by_with_key.
  unfold with_key in *. cbn [filter]. fold (sorted key l). rewrite IH.
  reflexivity.
Qed.

End Sorting.

(** ** The scanner *)

Lemma scan_tools_unfold (directory : str) (exclude : option (list str))
    (w : world) :
  scan_tools directory exclude w
  = match scan_loop directory (exclusions exclude)
            (html_files (entries w)) [] w with
    | (Return collected, w') => (Return (sorted sort_key collected), w')
    | (Raise e, w') => (Raise e, w')
    end.
Proof.
  unfold scan_tools, bind, glob_html, ret, exclusions.
  destruct exclude; reflexivity.
Qed.

(** C6: the list [scan_tools] returns is the list of the tools it
    collected, sorted by lower-cased file name, tools with the same key in
    the order in which they were collected (the sort is stable).  With
    [Banana.html] and [apple.html] in the directory, in either listing
    order, [apple.html] comes first. *)
Theorem scan_tools_sorted_stable (directory : str)
    (exclude : option (list str)) (w w' : world) (tools : list ToolInfo) :
  scan_tools directory exclude w = (Return tools, w') ->
  (exists collected,
      scan_loop directory (exclusions exclude) (html_files (entries w)) [] w
      = (Return collected, w')
      /\ Permutation collected tools
      /\ StronglySorted (key_le sort_key) tools
      /\ forall k, with_key sort_key k tools = with_key sort_key k collected)
  /\ (forall r, In r [fst (scan_tools directory None banana_first);
                      fst (scan_tools directory None apple_first)] ->
                exists l, r = Return l
                          /\ List.map filename l
                             = [text "apple.html"; text "Banana.html"]).
Proof.
  intros H. split.
  - rewrite scan_tools_unfold in H.
    destruct (scan_loop directory (exclusions exclude)
                (html_files (entries w)) [] w) as [[collected|e] w1];
      [|discriminate].
    injection H as <- <-. exists collected.
    repeat split; auto using sorted_perm, sorted_sorted, sorted_stable.
  - intros r [<-|[<-|[]]]; eexists; split; vm_compute; reflexivity.
Qed.

Lemma scan_tools_sorted_stable_witness :
  scan_tools (text "/repo") None same_key = (Return same_key_tools, same_key)
  /\ StronglySorted (key_le sort_key) same_key_tools
  /\ with_key sort_key (text "b.html") same_key_tools
     = [tool "B.html" "B" "A tool"; tool "b.html" "B" "A tool"].
Proof.
  assert (E : scan_tools (text "/repo") None same_key
              = (Return same_key_tools, same_key)) by (vm_compute; reflexivity).
  split; [exact E|].
  destruct (scan_tools_sorted_stable _ _ _ E)
    as [(collected & Hc & _ & Hs & Hk) _].
  split; [exact Hs|]. reflexivity.
Defined.

(** ** The matcher *)

Section Matcher.

Variable fl : re_flags.

Lemma take_skip_while (test : char -> bool) (s : str) :
  s = take_while test s ++ skip_while test s
  /\ Forall (fun c => test c = true) (take_while test s).
Proof.
  induction s as [|c s [IH1 IH2]]; [split; [reflexivity|constructor]|].
  simpl. destruct (test c) eqn:E.
  - split; [simpl; f_equal; exact IH1 | constructor; assumption].
  - split; [reflexivity | constructor].
Qed.

Lemma skip_while_run (test : char -> bool) (ws s : str) :
  Forall (fun c => test c = true) ws ->
  (forall c r, s = c :: r -> test c = false) ->
  skip_while test (ws ++ s) = s.
Proof.
  intros Hws Hs. induction Hws as [|c ws Hc _ IH].
  - simpl. destruct s as [|c r]; [reflexivity|].
    simpl. rewrite (Hs c r eq_refl). reflexivity.
  - simpl. rewrite Hc. exact IH.
Qed.

(** Where the continuation cannot start with a character of the class,
    the greedy repeat takes the whole run, and backtracking into the run
    never helps. *)
Lemma greedy_skip (test : char -> bool) (k : str -> option str) (s : str) :
  (forall c r, test c = true -> k (c :: r) = None) ->
  greedy test k s = k (skip_while test s).
Proof.
  intros H. induction s as [|c s IH]; [reflexivity|].
  simpl. destruct (test c) eqn:E; [|reflexivity].
  rewrite IH. destruct (k (skip_while test s)) eqn:Ek; [reflexivity|].
  apply H; exact E.
Qed.

(** The lazy repeat stops at the first place where the continuation
    matches. *)
Lemma lazy_Some (test : char -> bool) (k : str -> option str)
    (s g : str) :
  lazy test k s = Some g <->
  exists rest,
    s = g ++ rest /\ Forall (fun c => test c = true) g
    /\ k rest <> None
    /\ forall g1 c g2, g = g1 ++ c :: g2 -> k (c :: g2 ++ rest) = None.
Proof.
  revert g; induction s as [|c s IH]; intros g.
  - simpl. destruct (k []) eqn:Ek.
    + split.
      * intros [= <-]. exists []. repeat split; auto; try congruence.
        intros [|? ?] ? ? [=].
      * intros (rest & Hs & _). symmetry in Hs.
        apply app_eq_nil in Hs as [-> _]. reflexivity.
    + split; [discriminate|].
      intros (rest & Hs & _ & Hk & _). symmetry in Hs.
      apply app_eq_nil in Hs as [_ ->]. congruence.
  - cbn [lazy]. destruct (k (c :: s)) eqn:Ek.
    + split.
      * intros [= <-]. exists (c :: s). repeat split; auto; try congruence.
        intros [|? ?] ? ? [=].
      * intros (rest & Hs & _ & _ & Hfail).
        destruct g as [|x g]; [reflexivity|].
        injection Hs as -> ->.
        specialize (Hfail [] x g eq_refl). congruence.
    + destruct (test c) eqn:Et.
      * split.
        -- destruct (lazy test k s) as [g'|] eqn:El; [|discriminate].
           intros [= <-].
           destruct (proj1 (IH g') eq_refl) as (rest & -> & Hg & Hk & Hfail).
           exists rest. repeat split; auto.
           intros [|y g1] x g2 Hx.
           ++ injection Hx as <- <-. exact Ek.
           ++ injection Hx as <- Hx. eapply Hfail; eauto.
        -- intros (rest & Hs & Hg & Hk & Hfail).
           destruct g as [|x g]; [simpl in Hs; congruence|].
           injection Hs as <- ->.
           assert (El : lazy test k (g ++ rest) = Some g).
           { apply IH. exists rest. repeat split; auto.
             - inversion Hg; assumption.
             - intros g1 y g2 ->. apply (Hfail (c :: g1) y g2 eq_refl). }
           rewrite El. reflexivity.
      * split; [discriminate|].
        intros (rest & Hs & Hg & Hk & Hfail).
        destruct g as [|x g]; [simpl in Hs; congruence|].
        injection Hs as <- ->. inversion Hg; congruence.
Qed.

(** A run of literals matches character by character. *)
Lemma sre_match_lits (l : list char) (k : list op) (s g : str) :
  sre_match fl (lits l ++ k) s = Some g <->
  exists t rest,
    s = t ++ rest
    /\ Forall2 (fun pc c => literal_match fl pc c = true) l t
    /\ sre_match fl k rest = Some g.
Proof.
  revert s; induction l as [|p l IH]; intros s.
  - simpl. split.
    + intros H. exists [], s. repeat split; auto.
    + intros (t & rest & -> & Ht & H). inversion Ht; subst. exact H.
  - cbn [lits List.map app sre_match]. fold (lits l). split.
    + destruct s as [|c s]; [discriminate|].
      cbn [single_match]. destruct (literal_match fl p c) eqn:E;
        [|discriminate].
      intros H. apply IH in H as (t & rest & -> & Ht & H).
      exists (c :: t), rest. repeat split; auto.
    + intros (t & rest & -> & Ht & H).
      inversion Ht as [|? c ? t' Hc Ht']; subst.
      cbn [app single_match]. rewrite Hc. apply IH. eauto.
Qed.

Lemma sre_match_one (x : single) (k : list op) (s g : str) :
  sre_match fl (One x :: k) s = Some g <->
  exists c rest,
    s = c :: rest /\ single_match fl x c = true
    /\ sre_match fl k rest = Some g.
Proof.
  cbn [sre_match]. split.
  - destruct s as [|c s]; [discriminate|].
    destruct (single_match fl x c) eqn:E; [|discriminate]. eauto.
  - intros (c & rest & -> & Hc & H). rewrite Hc. exact H.
Qed.

(** A greedy run before a continuation that cannot start inside the
    class. *)
Lemma sre_match_run (x : single) (k : list op) (s g : str) :
  (forall c r, single_match fl x c = true ->
               sre_match fl k (c :: r) = None) ->
  sre_match fl (MAX_REPEAT_1 x :: k) s = Some g <->
  exists ws rest,
    s = ws ++ rest /\ ws <> []
    /\ Forall (fun c => single_match fl x c = true) ws
    /\ sre_match fl k rest = Some g.
Proof.
  intros Hk. cbn [sre_match]. split.
  - destruct s as [|c s]; [discriminate|].
    destruct (single_match fl x c) eqn:E; [|discriminate].
    rewrite greedy_skip by exact Hk. intros H.
    destruct (take_skip_while (single_match fl x) s) as [Hs Hall].
    exists (c :: take_while (single_match fl x) s),
           (skip_while (single_match fl x) s).
    repeat split; auto; [simpl; f_equal; exact Hs | discriminate].
  - intros (ws & rest & -> & Hne & Hws & H).
    destruct ws as [|c ws]; [congruence|].
    inversion Hws as [|? ? Hc Hws']; subst.
    cbn [app]. rewrite Hc, greedy_skip by exact Hk.
    rewrite skip_while_run; auto.
    intros c' r -> . destruct (single_match fl x c') eqn:E; auto.
    rewrite (Hk c' r E) in H. discriminate.
Qed.

(** [re.search] returns the match at the leftmost position that has
    one. *)
Lemma re_search_Some (ops : list op) (s g : str) :
  re_search fl ops s = Some g <->
  exists pre rest,
    s = pre ++ rest /\ sre_match fl ops rest = Some g
    /\ forall pre' rest',
        s = pre' ++ rest' -> length pre' < length pre ->
        sre_match fl ops rest' = None.
Proof.
  induction s as [|c s IH].
  - simpl. destruct (sre_match fl ops []) eqn:E.
    + split.
      * intros [= <-]. exists [], []. repeat split; auto.
        simpl; intros; lia.
      * intros (pre & rest & Hs & H & _). symmetry in Hs.
        apply app_eq_nil in Hs as [-> ->]. congruence.
    + split; [discriminate|].
      intros (pre & rest & Hs & H & _). symmetry in Hs.
      apply app_eq_nil in Hs as [-> ->]. congruence.
  - cbn [re_search]. destruct (sre_match fl ops (c :: s)) eqn:E.
    + split.
      * intros [= <-]. exists [], (c :: s). repeat split; auto.
        simpl; intros; lia.
      * intros (pre & rest & Hs & H & Hleft).
        destruct pre as [|x pre].
        -- simpl in Hs; subst rest. congruence.
        -- specialize (Hleft [] (c :: s) eq_refl). simpl in Hleft.
           rewrite Hleft in E by lia. discriminate.
    + rewrite IH. split.
      * intros (pre & rest & -> & H & Hleft).
        exists (c :: pre), rest. repeat split; auto.
        intros [|x pre'] rest' Hs Hlen.
        -- simpl in Hs; subst rest'. exact E.
        -- injection Hs as <- Hs. apply (Hleft pre' rest' Hs).
           simpl in Hlen; lia.
      * intros (pre & rest & Hs & H & Hleft).
        destruct pre as [|x pre].
        -- simpl in Hs; subst rest. congruence.
        -- injection Hs as <- ->. exists pre, rest. repeat split; auto.
           intros pre' rest' Hs Hlen.
           apply (Hleft (c :: pre') rest'); [rewrite Hs; reflexivity|].
           simpl; lia.
Qed.

Lemma re_search_None (ops : list op) (s : str) :
  re_search fl ops s = None <->
  forall pre rest, s = pre ++ rest -> sre_match fl ops rest = None.
Proof.
  induction s as [|c s IH].
  - simpl. destruct (sre_match fl ops []) eqn:E.
    + split; [discriminate|]. intros H.
      specialize (H [] [] eq_refl). congruence.
    + split; [|reflexivity]. intros _ pre rest Hs. symmetry in Hs.
      apply app_eq_nil in Hs as [-> ->]. exact E.
  - cbn [re_search]. destruct (sre_match fl ops (c :: s)) eqn:E.
    + split; [discriminate|]. intros H.
      specialize (H [] (c :: s) eq_refl). congruence.
    + rewrite IH. split.
      * intros H [|x pre] rest Hs.
        -- simpl in Hs; subst rest. exact E.
        -- injection Hs as <- Hs. eauto.
      * intros H pre rest ->. apply (H (c :: pre) rest). reflexivity.
Qed.

End Matcher.

(** ** The description pattern *)

Section DescriptionPattern.

Lemma in_range_spec (lo hi c : N) :
  in_range lo hi c = true <-> (lo <= c /\ c <= hi)%N.
Proof. unfold in_range. rewrite andb_true_iff, !N.leb_le. tauto. Qed.

Lemma in_range_false (lo hi c : N) :
  in_range lo hi c = false <-> (c < lo \/ hi < c)%N.
Proof.
  unfold in_range. rewrite andb_false_iff, !N.leb_gt. tauto.
Qed.

Lemma sre_lower_cases (c : char) :
  ((65 <= c <= 90)%N /\ sre_lower c = (c + 32)%N)
  \/ (c = 304%N /\ sre_lower c = 105%N)
  \/ (c = 8490%N /\ sre_lower c = 107%N)
  \/ (((c < 65)%N \/ (90 < c)%N) /\ c <> 304%N /\ c <> 8490%N
      /\ sre_lower c = c).
Proof.
  unfold sre_lower. destruct (in_range 65 90 c) eqn:E.
  - left. apply in_range_spec in E. auto.
  - apply in_range_false in E.
    destruct (N.eqb_spec c 304); [auto|].
    destruct (N.eqb_spec c 8490); [auto|].
    right; right; right. auto.
Qed.

Lemma literal_match_variants (p c : char) :
  plain p ->
  literal_match description_flags p c = true <-> In c (case_variants p).
Proof.
  intros (Hp1 & Hp2 & Hp3). apply in_range_false in Hp1.
  unfold literal_match. cbn [description_flags IGNORECASE].
  replace (sre_lower p) with p
    by (destruct (sre_lower_cases p) as [H|[H|[H|H]]]; lia).
  pose proof (sre_lower_cases c) as Hc.
  generalize dependent (sre_lower c). intros l Hc.
  unfold case_variants, ignorecase_fixes.
  destruct (in_range 97 122 p) eqn:Er;
    [apply in_range_spec in Er | apply in_range_false in Er];
    destruct (N.eqb_spec p 105); destruct (N.eqb_spec p 115);
    destruct (N.eqb_spec p 107);
    cbn [existsb app In]; rewrite ?orb_false_r, ?orb_true_iff, ?N.eqb_eq;
    lia.
Qed.

Lemma plain_text (p : string) :
  forallb (fun c => negb (in_range 65 90 c) && negb (N.eqb c 304)
                    && negb (N.eqb c 8490)) (text p) = true ->
  Forall plain (text p).
Proof.
  intros H. apply Forall_forall. intros c Hc.
  rewrite forallb_forall in H. specialize (H c Hc).
  apply andb_true_iff in H as [H H3]. apply andb_true_iff in H as [H1 H2].
  apply negb_true_iff in H1, H2, H3. apply N.eqb_neq in H2, H3.
  repeat split; assumption.
Qed.

Lemma same_ci_iff (p : string) (t : str) :
  Forall plain (text p) ->
  Forall2 (fun pc c => literal_match description_flags pc c = true) (text p) t
  <-> same_ci p t.
Proof.
  unfold same_ci. generalize (text p) as l. intros l Hl. revert t.
  induction Hl as [|x l Hx Hl IH]; intros t.
  - split; intros H; inversion H; constructor.
  - split; intros H; inversion H; subst; constructor;
      try (apply IH; assumption);
      apply (literal_match_variants _ Hx); assumption.
Qed.

Lemma quote_test (c : char) :
  single_match description_flags
    (IN [SetLiteral DQUOTE; SetLiteral SQUOTE]) c = true
  <-> is_quote c.
Proof.
  unfold is_quote. cbn [single_match existsb set_item_match].
  rewrite !orb_true_iff, !N.eqb_eq. intuition (try discriminate; auto).
Qed.

Lemma space_test (c : char) :
  single_match description_flags (IN [CATEGORY_SPACE]) c = is_space c.
Proof. cbn [single_match existsb set_item_match]. apply orb_false_r. Qed.

Lemma any_test (c : char) :
  single_match description_flags ANY c = true <-> c <> NL.
Proof.
  cbn [single_match description_flags DOTALL orb].
  rewrite negb_true_iff. apply N.eqb_neq.
Qed.

(** No continuation that opens with a letter starts on white space. *)
Lemma letter_after_spaces (p : char) (l : list char) (k : list op)
    (c : char) (r : str) :
  plain p ->
  forallb (fun v => negb (is_space v)) (case_variants p) = true ->
  single_match description_flags (IN [CATEGORY_SPACE]) c = true ->
  sre_match description_flags (lits (p :: l) ++ k) (c :: r) = None.
Proof.
  intros Hp Hv Hc. rewrite space_test in Hc.
  cbn [lits List.map app sre_match single_match].
  destruct (literal_match description_flags p c) eqn:E; [|reflexivity].
  apply (literal_match_variants _ Hp) in E.
  rewrite forallb_forall in Hv. specialize (Hv c E).
  rewrite Hc in Hv. discriminate.
Qed.

Lemma sre_match_quote (k : list op) (s g : str) :
  sre_match description_flags (QUOTE :: k) s = Some g <->
  exists q rest,
    s = q :: rest /\ is_quote q
    /\ sre_match description_flags k rest = Some g.
Proof.
  unfold QUOTE. rewrite sre_match_one.
  split; intros (q & rest & -> & Hq & H); exists q, rest;
    repeat split; auto; apply quote_test; exact Hq.
Qed.

Lemma closing_quote (s : str) :
  sre_match description_flags [QUOTE] s <> None <->
  exists q rest, s = q :: rest /\ is_quote q.
Proof.
  split.
  - destruct (sre_match description_flags [QUOTE] s) as [g|] eqn:E;
    [|congruence].
    intros _. apply sre_match_quote in E as (q & rest & -> & Hq & _). eauto.
  - intros (q & rest & -> & Hq).
    assert (H : sre_match description_flags [QUOTE] (q :: rest) = Some [])
      by (apply sre_match_quote; exists q, rest; auto).
    congruence.
Qed.

(** The group takes the text up to the next quote. *)
Lemma sre_match_group (s v : str) :
  sre_match description_flags [GROUP_LAZY_ANY; QUOTE] s = Some v <->
  exists q rest,
    s = v ++ q :: rest /\ is_quote q
    /\ Forall (fun x => x <> NL /\ ~ is_quote x) v.
Proof.
  change (sre_match description_flags [GROUP_LAZY_ANY; QUOTE])
    with (lazy (single_match description_flags ANY)
            (sre_match description_flags [QUOTE])).
  rewrite lazy_Some. split.
  - intros (r & -> & Hv & Hk & Hfail).
    apply closing_quote in Hk as (q & rest & -> & Hq).
    exists q, rest. repeat split; auto.
    apply Forall_forall. intros x Hx. split.
    + apply any_test. rewrite Forall_forall in Hv. exact (Hv x Hx).
    + intros Hqx. apply in_split in Hx as (g1 & g2 & ->).
      specialize (Hfail g1 x g2 eq_refl).
      apply (proj2 (closing_quote (x :: g2 ++ q :: rest))); eauto.
  - intros (q & rest & -> & Hq & Hv).
    exists (q :: rest). repeat split.
    + eapply Forall_impl; [|exact Hv]. intros x [Hx _].
      apply any_test; exact Hx.
    + apply closing_quote; eauto.
    + intros g1 c g2 ->.
      apply Forall_elt in Hv as [_ Hc].
      destruct (sre_match description_flags [QUOTE]
                (c :: g2 ++ q :: rest)) eqn:E;
        [|reflexivity].
      exfalso. apply Hc.
      assert (H : sre_match description_flags [QUOTE]
                 (c :: g2 ++ q :: rest) <> None)
        by congruence.
      apply closing_quote in H as (q' & rest' & [= <- _] & Hq').
      exact Hq'.
Qed.

Lemma description_pattern_eq :
  description_pattern
  = lits (text "<meta")
    ++ SPACES
    :: lits (text "name=")
    ++ QUOTE
    :: lits (text "description")
    ++ QUOTE
    :: SPACES
    :: lits (text "content=") ++ QUOTE :: [GROUP_LAZY_ANY; QUOTE].
Proof. reflexivity. Qed.

Ltac plain_literal := apply plain_text; reflexivity.

Ltac after_spaces :=
  intros ? ?; apply letter_after_spaces;
  [split; [reflexivity | split; discriminate] | reflexivity].

(** The pattern matches at the start of [s] with group [v] exactly when
    [s] begins with a meta-description tag of value [v]. *)
Lemma description_match_iff (s v : str) :
  sre_match description_flags description_pattern s = Some v
  <-> meta_tag_at s v.
Proof.
  rewrite description_pattern_eq. unfold meta_tag_at. split.
  - intros H.
    apply sre_match_lits in H as (m & r1 & -> & Hm & H).
    apply sre_match_run in H as (ws1 & r2 & -> & Hne1 & Hws1 & H);
      [|after_spaces].
    apply sre_match_lits in H as (n & r3 & -> & Hn & H).
    apply sre_match_quote in H as (q1 & r4 & -> & Hq1 & H).
    apply sre_match_lits in H as (d & r5 & -> & Hd & H).
    apply sre_match_quote in H as (q2 & r6 & -> & Hq2 & H).
    apply sre_match_run in H as (ws2 & r7 & -> & Hne2 & Hws2 & H);
      [|after_spaces].
    apply sre_match_lits in H as (c & r8 & -> & Hc & H).
    apply sre_match_quote in H as (q3 & r9 & -> & Hq3 & H).
    apply sre_match_group in H as (q4 & rest & -> & Hq4 & Hv).
    exists m, ws1, n, q1, d, q2, ws2, c, q3, q4, rest.
    apply same_ci_iff in Hm, Hn, Hd, Hc; try plain_literal.
    repeat split; auto;
      (eapply Forall_impl; [|eassumption]); intros x Hx;
      rewrite <- space_test; exact Hx.
  - intros (m & ws1 & n & q1 & d & q2 & ws2 & c & q3 & q4 & rest & ->
            & Hm & [Hne1 Hws1] & Hn & Hq1 & Hd & Hq2 & [Hne2 Hws2] & Hc
            & Hq3 & Hq4 & Hv).
    apply same_ci_iff in Hm, Hn, Hd, Hc; try plain_literal.
    apply sre_match_lits. exists m; eexists. repeat split; [exact Hm|].
    apply sre_match_run; [after_spaces|].
    exists ws1; eexists. repeat split; auto.
    { eapply Forall_impl; [|exact Hws1]. intros x Hx.
      rewrite space_test; exact Hx. }
    apply sre_match_lits. exists n; eexists. repeat split; [exact Hn|].
    apply sre_match_quote. exists q1; eexists. repeat split; [exact Hq1|].
    apply sre_match_lits. exists d; eexists. repeat split; [exact Hd|].
    apply sre_match_quote. exists q2; eexists. repeat split; [exact Hq2|].
    apply sre_match_run; [after_spaces|].
    exists ws2; eexists. repeat split; auto.
    { eapply Forall_impl; [|exact Hws2]. intros x Hx.
      rewrite space_test; exact Hx. }
    apply sre_match_lits. exists c; eexists. repeat split; [exact Hc|].
    apply sre_match_quote. exists q3; eexists. repeat split; [exact Hq3|].
    apply sre_match_group. exists q4, rest. repeat split; auto.
Qed.

(** [extract_description] returns the trimmed value of the first tag. *)
Lemma extract_description_Some (content d : str) :
  extract_description content = Some d <->
  exists v, first_meta_tag content v /\ d = strip v.
Proof.
  unfold extract_description, first_meta_tag.
  split.
  - destruct (re_search description_flags description_pattern content)
      as [g|] eqn:E;
      [|discriminate].
    intros [= <-]. exists g. split; [|reflexivity].
    apply re_search_Some in E as (pre & rest & -> & Hm & Hleft).
    exists pre, rest. repeat split; [apply description_match_iff; exact Hm|].
    intros pre' s' v' Hs Hlen Ht. apply description_match_iff in Ht.
    rewrite (Hleft pre' s' Hs Hlen) in Ht. discriminate.
  - intros (v & (pre & s & -> & Ht & Hleft) & ->).
    assert (E : re_search description_flags description_pattern (pre ++ s)
                = Some v).
    { apply re_search_Some. exists pre, s.
      repeat split; [apply description_match_iff; exact Ht|].
      intros pre' s' Hs Hlen.
      destruct (sre_match description_flags description_pattern s')
        as [v'|] eqn:E;
        [|reflexivity].
      exfalso. apply (Hleft pre' s' v' Hs Hlen).
      apply description_match_iff; exact E. }
    rewrite E. reflexivity.
Qed.

Lemma extract_description_None (content : str) :
  extract_description content = None <-> ~ has_meta_tag content.
Proof.
  unfold extract_description, has_meta_tag.
  destruct (re_search description_flags description_pattern content)
    as [g|] eqn:E.
  - split; [discriminate|]. intros H. exfalso. apply H.
    apply re_search_Some in E as (pre & rest & -> & Hm & _).
    exists pre, rest, g. split; [reflexivity|].
    apply description_match_iff; exact Hm.
  - split; [|reflexivity]. intros _ (pre & s & v & -> & Ht).
    apply description_match_iff in Ht.
    rewrite (proj1 (re_search_None description_flags description_pattern
                      (pre ++ s)) E
               pre s eq_refl) in Ht.
    discriminate.
Qed.

End DescriptionPattern.

(** C8: where the content holds a meta-description tag (attribute [name]
    before [content], single or double quotes, letters in either case),
    [extract_description] returns the trimmed value of the first such tag,
    the value being the text captured between the opening quote and the
    next quote; where it holds none, [extract_description] returns
    nothing. *)
Theorem extract_description_trimmed_value (content : str) :
  (forall v, first_meta_tag content v ->
             extract_description content = Some (strip v))
  /\ (has_meta_tag content ->
      exists v, first_meta_tag content v
                /\ extract_description content = Some (strip v))
  /\ (~ has_meta_tag content -> extract_description content = None).
Proof.
  split; [|split].
  - intros v Hv. apply extract_description_Some. eauto.
  - intros Hc. destruct (extract_description content) as [d|] eqn:E.
    + apply extract_description_Some in E as (v & Hv & ->). eauto.
    + apply extract_description_None in E. contradiction.
  - apply extract_description_None.
Qed.

Lemma extract_description_trimmed_value_witness :
  first_meta_tag capitals_page (text "  Does A ")
  /\ extract_description capitals_page = Some (text "Does A").
Proof.
  assert (Hm : meta_tag_at capitals_page (text "  Does A "))
    by (apply description_match_iff; vm_compute; reflexivity).
  assert (H : first_meta_tag capitals_page (text "  Does A ")).
  { exists [], capitals_page. split; [reflexivity|]. split; [exact Hm|].
    intros pre' s' v' _ Hlen. inversion Hlen. }
  split; [exact H|].
  exact (proj1 (extract_description_trimmed_value capitals_page) _ H).
Defined.

(** ** The scan loop *)

Section ScanLoop.

Variable directory : str.
Variable exclude : list str.

Lemma read_text_content (n : node) (w : world) :
  read_text n w = (content_of n, w).
Proof.
  destruct n as [data|strerror]; simpl; [|reflexivity].
  destruct (decode data); reflexivity.
Qed.

(** What the loop does with its first file. *)
Lemma scan_loop_step (f : entry) (rest : list entry)
    (tools : list ToolInfo) (w : world) :
  scan_loop directory exclude (f :: rest) tools w
  = if is_excluded exclude (fst f)
    then scan_loop directory exclude rest tools w
    else
      match content_of (snd f) with
      | Raise e =>
          if is_OSError e
          then scan_loop directory exclude rest tools
                 (warned w (warning directory (fst f) e))
          else (Raise e, w)
      | Return content =>
          match extract_description content with
          | None => (Raise (MissingDescriptionError (fst f)), w)
          | Some d =>
              scan_loop directory exclude rest
                (tools ++ [tool_of (fst f) content d]) w
          end
      end.
Proof.
  cbn [scan_loop]. destruct (is_excluded exclude (fst f)); [reflexivity|].
  unfold bind, try_except_OSError, scan_file, bind.
  rewrite read_text_content.
  destruct (content_of (snd f)) as [content|e].
  - destruct (extract_description content); reflexivity.
  - destruct (is_OSError e); reflexivity.
Qed.

(** The loop over a listing in two parts. *)
Lemma scan_loop_app (pre post : list entry) (tools : list ToolInfo)
    (w : world) :
  scan_loop directory exclude (pre ++ post) tools w
  = match scan_loop directory exclude pre tools w with
    | (Return tools1, w1) => scan_loop directory exclude post tools1 w1
    | (Raise e, w1) => (Raise e, w1)
    end.
Proof.
  revert tools w. induction pre as [|f pre IH]; intros tools w;
    [reflexivity|].
  change ((f :: pre) ++ post) with (f :: (pre ++ post)).
  rewrite !scan_loop_step.
  destruct (is_excluded exclude (fst f)); [apply IH|].
  destruct (content_of (snd f)) as [content|e].
  - destruct (extract_description content); [apply IH|reflexivity].
  - destruct (is_OSError e); [apply IH|reflexivity].
Qed.

(** The result of the loop does not depend on what was printed before,
    and the loop touches the error stream only. *)
Lemma scan_loop_result (files : list entry) (tools : list ToolInfo)
    (w w' : world) :
  fst (scan_loop directory exclude files tools w)
  = fst (scan_loop directory exclude files tools w').
Proof.
  revert tools w w'. induction files as [|f files IH]; intros tools w w';
    [reflexivity|].
  rewrite !scan_loop_step.
  destruct (is_excluded exclude (fst f)); [apply IH|].
  destruct (content_of (snd f)) as [content|e].
  - destruct (extract_description content); [apply IH|reflexivity].
  - destruct (is_OSError e); [apply IH|reflexivity].
Qed.

Lemma scan_loop_frame (files : list entry) (tools : list ToolInfo)
    (w : world) :
  let w' := snd (scan_loop directory exclude files tools w) in
  repo_dir w' = repo_dir w /\ entries w' = entries w
  /\ stdout w' = stdout w.
Proof.
  revert tools w. induction files as [|f files IH]; intros tools w;
    [simpl; auto|].
  rewrite scan_loop_step.
  destruct (is_excluded exclude (fst f)); [apply IH|].
  destruct (content_of (snd f)) as [content|e].
  - destruct (extract_description content); [apply IH|simpl; auto].
  - destruct (is_OSError e); [|simpl; auto].
    destruct (IH tools (warned w (warning directory (fst f) e)))
      as (H1 & H2 & H3).
    simpl in *. auto.
Qed.

(** Every tool the loop adds was made from one of its files. *)
Lemma scan_loop_made_from (files : list entry) (tools out : list ToolInfo)
    (w w' : world) :
  scan_loop directory exclude files tools w = (Return out, w') ->
  exists new,
    out = tools ++ new /\ Forall (made_from exclude files) new.
Proof.
  revert tools w. induction files as [|f files IH]; intros tools w H.
  - injection H as <- _. exists []. rewrite app_nil_r. auto.
  - rewrite scan_loop_step in H.
    assert (Hmono : forall new,
               Forall (made_from exclude files) new ->
               Forall (made_from exclude (f :: files)) new).
    { intros new. apply Forall_impl.
      intros t (name & n & content & d & Hin & Hrest).
      exists name, n, content, d. split; [right; exact Hin|exact Hrest]. }
    destruct (is_excluded exclude (fst f)) eqn:Hex.
    { apply IH in H as (new & -> & Hnew). eauto. }
    destruct (content_of (snd f)) as [content|e] eqn:Hc.
    + destruct (extract_description content) as [d|] eqn:Hd;
        [|discriminate].
      apply IH in H as (new & -> & Hnew).
      exists (tool_of (fst f) content d :: new). split.
      * rewrite <- app_assoc. reflexivity.
      * constructor; [|auto].
        exists (fst f), (snd f), content, d.
        repeat split; auto. left. destruct f; reflexivity.
    + destruct (is_OSError e); [|discriminate].
      apply IH in H as (new & -> & Hnew). eauto.
Qed.

(** The loop raises nothing but what a file raises: a decoding error, or
    the missing description of a file it could read. *)
Lemma scan_loop_raises (files : list entry) (tools : list ToolInfo)
    (w w' : world) (e : exn) :
  scan_loop directory exclude files tools w = (Raise e, w') ->
  e = UnicodeDecodeError
  \/ exists name n content,
      In (name, n) files /\ is_excluded exclude name = false
      /\ content_of n = Return content
      /\ extract_description content = None
      /\ e = MissingDescriptionError name.
Proof.
  revert tools w. induction files as [|f files IH]; intros tools w H;
    [discriminate|].
  rewrite scan_loop_step in H.
  assert (Hmono : forall P : Prop,
             (P \/ exists name n content,
                 In (name, n) files /\ is_excluded exclude name = false
                 /\ content_of n = Return content
                 /\ extract_description content = None
                 /\ e = MissingDescriptionError name) ->
             P \/ exists name n content,
                 In (name, n) (f :: files)
                 /\ is_excluded exclude name = false
                 /\ content_of n = Return content
                 /\ extract_description content = None
                 /\ e = MissingDescriptionError name).
  { intros P [HP|(name & n & content & Hin & Hrest)]; [auto|].
    right. exists name, n, content. split; [right; exact Hin|exact Hrest]. }
  destruct (is_excluded exclude (fst f)) eqn:Hex; [eauto|].
  destruct (content_of (snd f)) as [content|e'] eqn:Hc.
  - destruct (extract_description content) as [d|] eqn:Hd; [eauto|].
    injection H as <- _. right. exists (fst f), (snd f), content.
    repeat split; auto. left. destruct f; reflexivity.
  - destruct (is_OSError e') eqn:He; [eauto|].
    injection H as <- _. left.
    destruct (snd f) as [data|strerror]; simpl in Hc.
    + destruct (decode data); [discriminate|]. congruence.
    + injection Hc as <-. discriminate.
Qed.

End ScanLoop.

Lemma html_files_app (a b : list entry) :
  html_files (a ++ b) = html_files a ++ html_files b.
Proof. apply filter_app. Qed.

(** A part of what [glob] yields is yielded as it is. *)
Lemma html_files_part (l pre post : list entry) (f : entry) :
  html_files l = pre ++ f :: post ->
  html_files (pre ++ post) = pre ++ post
  /\ ends_with (text ".html") (fst f) = true.
Proof.
  intros H. unfold html_files in *.
  assert (Hall : Forall (fun e => ends_with (text ".html") (fst e) = true)
                   (pre ++ f :: post)).
  { rewrite <- H. apply Forall_forall. intros e He.
    apply filter_In in He. tauto. }
  apply Forall_app in Hall as [Hpre Hpost].
  inversion Hpost as [|? ? Hf Hpost']; subst. split; [|exact Hf].
  rewrite filter_app. f_equal; apply forallb_filter_id, forallb_forall;
    apply Forall_forall; assumption.
Qed.

(** ** Trimming and the title made from the file name *)

Lemma lstrip_nil (s : str) : lstrip s = [] <-> forallb is_space s = true.
Proof.
  induction s as [|c s IH]; [simpl; tauto|].
  simpl. destruct (is_space c); [exact IH|].
  split; discriminate.
Qed.

Lemma lstrip_head (s r : str) (c : char) :
  lstrip s = c :: r -> is_space c = false.
Proof.
  induction s as [|x s IH]; [discriminate|].
  simpl. destruct (is_space x) eqn:E; [exact IH|].
  intros [= <- _]. exact E.
Qed.

Lemma forallb_rev (f : char -> bool) (s : str) :
  forallb f (rev s) = forallb f s.
Proof.
  destruct (forallb f s) eqn:E.
  - rewrite forallb_forall in *. intros x Hx. apply E, in_rev, Hx.
  - destruct (forallb f (rev s)) eqn:E'; [|reflexivity].
    rewrite forallb_forall in E'.
    assert (H : forallb f s = true)
      by (apply forallb_forall; intros x Hx; apply E', in_rev;
          rewrite rev_involutive; exact Hx).
    congruence.
Qed.

Lemma forallb_lstrip (s : str) :
  forallb is_space (lstrip s) = true -> lstrip s = [].
Proof.
  destruct (lstrip s) as [|c r] eqn:E; [reflexivity|].
  apply lstrip_head in E. simpl. rewrite E. discriminate.
Qed.

(** A trimmed text is empty or has a character that is not white space. *)
Lemma strip_blank (s : str) :
  forallb is_space (strip s) = true -> strip s = [].
Proof.
  unfold strip, rstrip. rewrite forallb_rev. intros H.
  apply forallb_lstrip in H. rewrite H. reflexivity.
Qed.

(** Trimming gives the empty text exactly on white space. *)
Lemma strip_nil (s : str) : strip s = [] <-> forallb is_space s = true.
Proof.
  split.
  - intros H. apply lstrip_nil. apply forallb_lstrip.
    rewrite <- forallb_rev. apply lstrip_nil.
    unfold strip, rstrip in H.
    apply (f_equal (@rev char)) in H. rewrite rev_involutive in H.
    exact H.
  - intros H. apply lstrip_nil in H. unfold strip, rstrip.
    rewrite H. reflexivity.
Qed.

Lemma stem_nonempty (name : str) : name <> [] -> stem name <> [].
Proof.
  intros Hne. unfold stem.
  destruct (rfind_from 46%N name 0) as [i|]; [|exact Hne].
  destruct (Nat.ltb_spec 0 i); [|exact Hne].
  destruct (Nat.ltb_spec i (length name - 1)); [|exact Hne].
  cbn [andb]. destruct name as [|c name]; [congruence|].
  destruct i; [lia|]. discriminate.
Qed.

Lemma replace_char_nonempty (c d : char) (s : str) :
  s <> [] -> replace [c] [d] s <> [].
Proof.
  intros Hne. rewrite replace_one_char.
  destruct s as [|x s]; [congruence|].
  simpl. unfold substitute at 1. destruct (N.eqb c x); discriminate.
Qed.

Lemma find_special_In (c : char) (table : list (char * str)) (l : str) :
  find_special c table = Some l -> In (c, l) table.
Proof.
  induction table as [|[k x] table IH]; [discriminate|].
  cbn [find_special]. destruct (N.eqb_spec k c) as [->|_].
  - intros E. injection E as ->. left. reflexivity.
  - intros E. right. exact (IH E).
Qed.

(** A property of the images of a table holds of the mapping of every
    code point that the table lists. *)
Lemma find_special_all (p : str -> bool) (c : char)
    (table : list (char * str)) (l : str) :
  forallb (fun e => p (snd e)) table = true ->
  find_special c table = Some l -> p l = true.
Proof.
  intros Hall E. apply find_special_In in E.
  rewrite forallb_forall in Hall. exact (Hall _ E).
Qed.

Lemma to_title_full_nonempty (c : char) : to_title_full c <> [].
Proof.
  unfold to_title_full, case_full.
  destruct (find_special c TITLE_SPECIAL) as [l|] eqn:E.
  - assert (H : negb (Nat.eqb (length l) 0) = true).
    { apply (@find_special_all (fun l => negb (Nat.eqb (length l) 0))
               c TITLE_SPECIAL l); [vm_compute; reflexivity|exact E]. }
    intros ->. discriminate H.
  - destruct (find_image c TITLE_RUNS); discriminate.
Qed.

Lemma title_nonempty (s : str) : s <> [] -> title s <> [].
Proof.
  intros Hne. destruct s as [|c s]; [congruence|].
  unfold title. cbn [title_from]. intros H.
  apply app_eq_nil in H as [H _]. exact (@to_title_full_nonempty c H).
Qed.

Lemma derived_title_nonempty (name : str) :
  ends_with (text ".html") name = true -> derived_title name <> [].
Proof.
  intros H. unfold derived_title.
  apply title_nonempty.
  apply (@replace_char_nonempty 95%N 32%N).
  apply (@replace_char_nonempty 45%N 32%N).
  apply stem_nonempty. intros ->. discriminate H.
Qed.

Lemma py_or_nonempty (a : option str) (b : str) :
  b <> [] -> py_or a b <> [].
Proof. intros Hb. destruct a as [[|c t]|]; simpl; auto; discriminate. Qed.

Lemma py_or_falsy (a : option str) (b : str) :
  a = None \/ a = Some [] -> py_or a b = b.
Proof. intros [->| ->]; reflexivity. Qed.

(** ** What [scan_tools] returns and raises *)

Lemma fst_scan_tools (directory : str) (exclude : option (list str))
    (w : world) :
  fst (scan_tools directory exclude w)
  = match fst (scan_loop directory (exclusions exclude)
                 (html_files (entries w)) [] w) with
    | Return collected => Return (sorted sort_key collected)
    | Raise e => Raise e
    end.
Proof.
  rewrite scan_tools_unfold.
  destruct (scan_loop directory (exclusions exclude)
              (html_files (entries w)) [] w) as [[c|e] w']; reflexivity.
Qed.

(** Every tool that [scan_tools] returns was made from a file that [glob]
    yielded. *)
Lemma scan_tools_made_from (directory : str) (exclude : option (list str))
    (w w' : world) (tools : list ToolInfo) (t : ToolInfo) :
  scan_tools directory exclude w = (Return tools, w') ->
  In t tools ->
  made_from (exclusions exclude) (html_files (entries w)) t.
Proof.
  intros H Ht. rewrite scan_tools_unfold in H.
  destruct (scan_loop directory (exclusions exclude)
              (html_files (entries w)) [] w) as [[c|e] w1] eqn:E;
    [|discriminate].
  injection H as <- _.
  apply scan_loop_made_from in E as (new & -> & Hnew).
  rewrite Forall_forall in Hnew. apply Hnew.
  apply (Permutation_in _ (Permutation_sym (sorted_perm sort_key _))).
  exact Ht.
Qed.

(** C1, as amended: the description of every tool that [scan_tools]
    returns is the trimmed value of the first meta-description tag of its
    file, so it is empty exactly when that value is empty or white space;
    a file without such a tag gives no tool. *)
Theorem scan_tools_description (directory : str)
    (exclude : option (list str)) (w w' : world) (tools : list ToolInfo)
    (t : ToolInfo) :
  scan_tools directory exclude w = (Return tools, w') ->
  In t tools ->
  exists n content v,
    In (filename t, n) (html_files (entries w))
    /\ content_of n = Return content
    /\ first_meta_tag content v
    /\ description t = strip v
    /\ (description t = [] <-> forallb is_space v = true).
Proof.
  intros H Ht.
  destruct (@scan_tools_made_from _ _ _ _ _ _ H Ht)
    as (name & n & content & d & Hin & _ & Hc & Hd & ->).
  apply extract_description_Some in Hd as (v & Hv & ->).
  exists n, content, v. repeat split; auto; apply strip_nil.
Qed.

Lemma scan_tools_description_witness :
  exists n content v,
    In (text "a.html", n) (html_files (entries same_key))
    /\ content_of n = Return content
    /\ first_meta_tag content v
    /\ text "A tool" = strip v
    /\ (text "A tool" = [] <-> forallb is_space v = true).
Proof.
  apply (@scan_tools_description (text "/repo") None same_key same_key
           same_key_tools (tool "a.html" "A" "A tool")).
  - vm_compute; reflexivity.
  - left; reflexivity.
Defined.

(** C1, as stated, fails: a tag with an empty content gives a tool with
    an empty description, and no error. *)
Lemma scan_tools_empty_description :
  fst (scan_tools (text "/repo") None empty_description)
  = Return [tool "a.html" "A" ""]
  /\ description (tool "a.html" "A" "") = [].
Proof. split; vm_compute; reflexivity. Qed.

(** C3, as amended: with a file in the directory that is not excluded,
    can be read and has no meta-description tag, [scan_tools] returns no
    list.  It raises [MissingDescriptionError] with the name of that file
    when the loop gets to it, that is, when no file listed before it has
    ended the scan; what it raises otherwise is the error of that earlier
    file, a missing description or a decoding error. *)
Theorem scan_tools_missing_description (directory : str)
    (exclude : option (list str)) (w : world) (pre post : list entry)
    (name : str) (n : node) (content : str) :
  html_files (entries w) = pre ++ (name, n) :: post ->
  is_excluded (exclusions exclude) name = false ->
  content_of n = Return content ->
  extract_description content = None ->
  (exists e w',
      scan_tools directory exclude w = (Raise e, w')
      /\ (e = UnicodeDecodeError \/ exists g, e = MissingDescriptionError g))
  /\ (forall tools w1,
         scan_loop directory (exclusions exclude) pre [] w
         = (Return tools, w1) ->
         scan_tools directory exclude w
         = (Raise (MissingDescriptionError name), w1)).
Proof.
  intros Hl Hex Hc Hd.
  assert (Hstep : forall tools w1,
             scan_loop directory (exclusions exclude) ((name, n) :: post)
               tools w1
             = (Raise (MissingDescriptionError name), w1)).
  { intros tools w1. rewrite scan_loop_step. cbn [fst snd].
    rewrite Hex, Hc, Hd. reflexivity. }
  rewrite scan_tools_unfold, Hl, scan_loop_app.
  destruct (scan_loop directory (exclusions exclude) pre [] w)
    as [[tools1|e] w1] eqn:E.
  - rewrite Hstep. split; [eauto 6|].
    intros tools w2 [= <- <-]. reflexivity.
  - split; [|discriminate].
    exists e, w1. split; [reflexivity|].
    apply scan_loop_raises in E as [->|(g & _ & _ & _ & _ & _ & _ & ->)];
      eauto.
Qed.

Lemma scan_tools_missing_description_witness :
  scan_tools (text "/repo") None undescribed_first
  = (Raise (MissingDescriptionError (text "a.html")), undescribed_first).
Proof.
  apply (proj2 (@scan_tools_missing_description (text "/repo") None
                  undescribed_first []
                  [(text "b.html", File [Byte.xff; Byte.xfe])]
                  (text "a.html") (File (ascii_bytes no_description))
                  (text no_description)
                  eq_refl eq_refl eq_refl eq_refl) [] undescribed_first).
  reflexivity.
Defined.

(** C3, as stated, fails: [b.html] can be read and has no description,
    but [a.html], listed before it, is not valid UTF-8, and the scan ends
    with the decoding error of [a.html]. *)
Lemma scan_tools_decoding_error_first :
  In (ascii_file "b.html" no_description)
     (html_files (entries undecodable_first))
  /\ is_excluded DEFAULT_EXCLUDE (text "b.html") = false
  /\ content_of (File (ascii_bytes no_description))
     = Return (text no_description)
  /\ extract_description (text no_description) = None
  /\ fst (scan_tools (text "/repo") None undecodable_first)
     = Raise UnicodeDecodeError
  /\ fst (scan_tools (text "/repo") None undecodable_first)
     <> Raise (MissingDescriptionError (text "b.html")).
Proof.
  repeat split; try (vm_compute; reflexivity).
  - right; left; reflexivity.
  - vm_compute; discriminate.
Qed.

Lemma scan_loop_without (directory : str) (exclude : list str)
    (pre post : list entry) (name strerror : str) (tools : list ToolInfo)
    (w w' : world) :
  is_excluded exclude name = false ->
  fst (scan_loop directory exclude
         (pre ++ (name, Unreadable strerror) :: post) tools w)
  = fst (scan_loop directory exclude (pre ++ post) tools w').
Proof.
  intros Hex. rewrite !scan_loop_app.
  pose proof (scan_loop_result directory exclude pre tools w w') as Hpre.
  destruct (scan_loop directory exclude pre tools w) as [[t1|e1] w1];
    destruct (scan_loop directory exclude pre tools w') as [[t2|e2] w2];
    simpl in Hpre; try discriminate; injection Hpre as <-; [|reflexivity].
  rewrite scan_loop_step. cbn [fst snd content_of is_OSError].
  rewrite Hex. apply scan_loop_result.
Qed.

(** C5: a file whose read fails with an [OSError] does not end the scan.
    When the loop gets to it, one warning goes to the error stream, the
    list of tools stays as it is, and the loop goes on with the files
    after it; the result of the whole scan, list or exception, is the one
    of the same directory without that file. *)
Theorem scan_tools_skips_unreadable (directory : str)
    (exclude : option (list str)) (w : world) (pre post : list entry)
    (name strerror : str) :
  html_files (entries w) = pre ++ (name, Unreadable strerror) :: post ->
  is_excluded (exclusions exclude) name = false ->
  scan_loop directory (exclusions exclude) (html_files (entries w)) [] w
  = match scan_loop directory (exclusions exclude) pre [] w with
    | (Return tools, w1) =>
        scan_loop directory (exclusions exclude) post tools
          (warned w1 (warning directory name (OSError strerror)))
    | (Raise e, w1) => (Raise e, w1)
    end
  /\ fst (scan_tools directory exclude w)
     = fst (scan_tools directory exclude (with_entries w (pre ++ post))).
Proof.
  intros Hl Hex. split.
  - rewrite Hl, scan_loop_app.
    destruct (scan_loop directory (exclusions exclude) pre [] w)
      as [[tools|e] w1]; [|reflexivity].
    rewrite scan_loop_step. cbn [fst snd content_of is_OSError].
    rewrite Hex. reflexivity.
  - rewrite !fst_scan_tools. cbn [with_entries entries].
    rewrite (proj1 (@html_files_part _ _ _ _ Hl)), Hl.
    rewrite (@scan_loop_without directory _ pre post _ strerror []
               w (with_entries w (pre ++ post)) Hex).
    reflexivity.
Qed.

Lemma scan_tools_skips_unreadable_witness :
  scan_tools (text "/repo") None unreadable_between
  = (Return [tool "a.html" "A" "A tool"; tool "c.html" "C" "A tool"],
     warned unreadable_between
       (text "Warning: Could not read /repo/b.html: "
        ++ text "[Errno 13] Permission denied"))
  /\ fst (scan_tools (text "/repo") None unreadable_between)
     = fst (scan_tools (text "/repo") None
              (with_entries unreadable_between
                 [described "a.html"; described "c.html"])).
Proof.
  split; [vm_compute; reflexivity|].
  apply (proj2 (@scan_tools_skips_unreadable (text "/repo") None
                  unreadable_between [described "a.html"]
                  [described "c.html"] (text "b.html")
                  (text "[Errno 13] Permission denied")
                  eq_refl eq_refl)).
Defined.

(** C9, as amended: a file that is not excluded and is not valid UTF-8 is
    never skipped with a warning, and with it in the directory
    [scan_tools] returns no list: the exception it raises is not an
    [OSError].  It is the decoding error of that file when the loop gets
    to it, that is, when no file listed before it has ended the scan.  A
    warning for a file means that its read raised an [OSError]. *)
Theorem scan_tools_undecodable (directory : str)
    (exclude : option (list str)) (w : world) (pre post : list entry)
    (name : str) (data : bytes) :
  html_files (entries w) = pre ++ (name, File data) :: post ->
  is_excluded (exclusions exclude) name = false ->
  decode data = None ->
  (exists e w',
      scan_tools directory exclude w = (Raise e, w')
      /\ is_OSError e = false)
  /\ (forall tools w1,
         scan_loop directory (exclusions exclude) pre [] w
         = (Return tools, w1) ->
         scan_tools directory exclude w = (Raise UnicodeDecodeError, w1))
  /\ (forall f tools w1 line,
         is_excluded (exclusions exclude) (fst f) = false ->
         scan_loop directory (exclusions exclude) [f] tools w1
         = (Return tools, warned w1 line) ->
         exists e, content_of (snd f) = Raise e /\ is_OSError e = true
                   /\ line = warning directory (fst f) e).
Proof.
  intros Hl Hex Hd.
  assert (Hstep : forall tools w1,
             scan_loop directory (exclusions exclude)
               ((name, File data) :: post) tools w1
             = (Raise UnicodeDecodeError, w1)).
  { intros tools w1. rewrite scan_loop_step.
    cbn [fst snd content_of]. rewrite Hex, Hd. reflexivity. }
  rewrite scan_tools_unfold, Hl, scan_loop_app.
  destruct (scan_loop directory (exclusions exclude) pre [] w)
    as [[tools1|e] w1] eqn:E.
  - rewrite Hstep. split; [eauto|]. split.
    + intros tools w2 [= <- <-]. reflexivity.
    + clear. intros f tools w1 line Hex H.
      rewrite scan_loop_step, Hex in H.
      destruct (content_of (snd f)) as [content|e].
      * exfalso. destruct (extract_description content); [|discriminate].
        cbn [scan_loop ret] in H. injection H as H _.
        apply (f_equal (@length ToolInfo)) in H.
        rewrite length_app in H. simpl in H. lia.
      * destruct (is_OSError e) eqn:He; [|discriminate].
        cbn [scan_loop ret] in H. injection H as H.
        apply app_inv_head in H. injection H as <-. eauto.
  - split; [|split; [discriminate|]].
    + exists e, w1. split; [reflexivity|].
      apply scan_loop_raises in E as [->|(g & _ & _ & _ & _ & _ & _ & ->)];
        reflexivity.
    + clear. intros f tools w1 line Hex H.
      rewrite scan_loop_step, Hex in H.
      destruct (content_of (snd f)) as [content|e].
      * exfalso. destruct (extract_description content); [|discriminate].
        cbn [scan_loop ret] in H. injection H as H _.
        apply (f_equal (@length ToolInfo)) in H.
        rewrite length_app in H. simpl in H. lia.
      * destruct (is_OSError e) eqn:He; [|discriminate].
        cbn [scan_loop ret] in H. injection H as H.
        apply app_inv_head in H. injection H as <-. eauto.
Qed.

Lemma scan_tools_undecodable_witness :
  scan_tools (text "/repo") None undecodable_first
  = (Raise UnicodeDecodeError, undecodable_first).
Proof.
  apply (proj1 (proj2 (@scan_tools_undecodable (text "/repo") None
                         undecodable_first []
                         [ascii_file "b.html" no_description]
                         (text "a.html") [Byte.xff; Byte.xfe]
                         eq_refl eq_refl eq_refl)) [] undecodable_first).
  reflexivity.
Defined.

(** C9, as stated, fails: [b.html] is not valid UTF-8, but [a.html],
    listed before it, has no description, and the scan ends with the
    missing description of [a.html]; no decoding error is raised. *)
Lemma scan_tools_missing_description_first :
  In (text "b.html", File [Byte.xff; Byte.xfe])
     (html_files (entries undescribed_first))
  /\ is_excluded DEFAULT_EXCLUDE (text "b.html") = false
  /\ decode [Byte.xff; Byte.xfe] = None
  /\ fst (scan_tools (text "/repo") None undescribed_first)
     = Raise (MissingDescriptionError (text "a.html"))
  /\ fst (scan_tools (text "/repo") None undescribed_first)
     <> Raise UnicodeDecodeError.
Proof.
  repeat split; try (vm_compute; reflexivity).
  - right; left; reflexivity.
  - vm_compute; discriminate.
Qed.

(** C10: no tool has an empty title.  The title is the trimmed text of
    the title element when that is not empty, and the title made from the
    file name (stem, hyphens and underscores as spaces, words
    capitalised) when there is no title element or its trimmed text is
    empty, as for [<title></title>]; a trimmed text is never white space
    only. *)
Theorem scan_tools_title_nonempty (directory : str)
    (exclude : option (list str)) (w w' : world) (tools : list ToolInfo)
    (t : ToolInfo) :
  scan_tools directory exclude w = (Return tools, w') ->
  In t tools ->
  title_of t <> []
  /\ (exists n content,
         In (filename t, n) (html_files (entries w))
         /\ content_of n = Return content
         /\ title_of t
            = py_or (extract_title content) (derived_title (filename t))
         /\ (extract_title content = None \/ extract_title content = Some []
             -> title_of t = derived_title (filename t))
         /\ (forall x, extract_title content = Some x ->
                       forallb is_space x = true -> x = []))
  /\ extract_title (text "<title></title>") = Some []
  /\ extract_title (text "<title>  </title>") = Some [].
Proof.
  intros H Ht.
  destruct (@scan_tools_made_from _ _ _ _ _ _ H Ht)
    as (name & n & content & d & Hin & _ & Hc & Hd & ->).
  cbn [tool_of title_of filename].
  assert (Hname : ends_with (text ".html") name = true).
  { unfold html_files in Hin. apply filter_In in Hin. apply Hin. }
  split; [|split; [|split; reflexivity]].
  - apply py_or_nonempty, derived_title_nonempty, Hname.
  - exists n, content. repeat split; auto.
    + apply py_or_falsy.
    + intros x Hx. unfold extract_title in Hx.
      destruct (re_search title_flags title_pattern content) as [g|];
        [|discriminate].
      injection Hx as <-. apply strip_blank.
Qed.

Lemma scan_tools_title_nonempty_witness :
  fst (scan_tools (text "/repo") None empty_title)
  = Return [tool "my-tool.html" "My Tool" "Mine"]
  /\ text "My Tool" <> [].
Proof.
  split; [vm_compute; reflexivity|].
  apply (@scan_tools_title_nonempty (text "/repo") None empty_title
           empty_title [tool "my-tool.html" "My Tool" "Mine"]
           (tool "my-tool.html" "My Tool" "Mine")).
  - vm_compute; reflexivity.
  - left; reflexivity.
Defined.

(** ** The driver *)

Lemma scan_tools_frame (directory : str) (exclude : option (list str))
    (w w' : world) (r : result (list ToolInfo)) :
  scan_tools directory exclude w = (r, w') ->
  repo_dir w' = repo_dir w /\ entries w' = entries w
  /\ stdout w' = stdout w.
Proof.
  rewrite scan_tools_unfold. intros H.
  pose proof (scan_loop_frame directory (exclusions exclude)
                (html_files (entries w)) [] w) as Hf.
  destruct (scan_loop directory (exclusions exclude)
              (html_files (entries w)) [] w) as [[c|e] w1];
    injection H as _ <-; exact Hf.
Qed.

Lemma generate_index_html_world (tools : list ToolInfo) (name : str)
    (w : world) :
  generate_index_html tools name w
  = (fst (generate_index_html tools name w), w).
Proof.
  unfold generate_index_html, bind, path.
  destruct (lookup name (entries w)) as [n|]; [|reflexivity].
  rewrite read_text_content. destruct (content_of n); reflexivity.
Qed.

(** C4: with an index that is stale for the content just generated,
    [--check] makes the program exit with status 1, with one line on the
    error stream and the directory as it was; [--dry-run], without
    [--check], makes it exit with status 0 after printing the new content
    between two rules, the directory as it was. *)
Theorem main_check_and_dry_run (args : Args) (w w1 : world)
    (tools : list ToolInfo) (new_content : str) :
  scan_tools (repo_dir w) None w = (Return tools, w1) ->
  fst (generate_index_html tools TEMPLATE_NAME w1) = Return new_content ->
  stale w new_content ->
  (check args = true ->
   exists w',
     main args w = (Return 1%Z, w')
     /\ exit_status (fst (main args w)) = 1%Z
     /\ entries w' = entries w
     /\ stdout w' = stdout w
     /\ stderr w' = stderr w1 ++ [text "index.html is out of date."])
  /\ (check args = false -> dry_run args = true ->
      exists w',
        main args w = (Return 0%Z, w')
        /\ exit_status (fst (main args w)) = 0%Z
        /\ entries w' = entries w
        /\ stdout w' = stdout w ++ preview new_content).
Proof.
  intros Hscan Hgen Hstale.
  destruct (scan_tools_frame _ _ _ Hscan) as (Hdir & Hent & Hout).
  assert (Hmain : check args || dry_run args = true ->
                  main args w
                  = if check args
                    then (Return 1%Z,
                          warned w1 (text "index.html is out of date."))
                    else (Return 0%Z,
                          {| repo_dir := repo_dir w1; entries := entries w1;
                             stdout := stdout w1 ++ preview new_content;
                             stderr := stderr w1 |})).
  { intros Hmode. unfold main, bind.
    change (text "index.template.html") with TEMPLATE_NAME.
    change (text "index.html") with INDEX_NAME.
    assert (Hargs :
              check (if dry_run args
                     then {| check := check args; dry_run := dry_run args;
                             write := false |}
                     else args) = check args
              /\ dry_run (if dry_run args
                          then {| check := check args;
                                  dry_run := dry_run args; write := false |}
                          else args) = dry_run args)
      by (destruct (dry_run args) eqn:E; split; try reflexivity; exact E).
    destruct Hargs as [-> ->].
    cbv beta iota. rewrite Hscan, generate_index_html_world, Hgen.
    unfold path. unfold stale in Hstale.
    replace (lookup INDEX_NAME (entries w1))
      with (lookup INDEX_NAME (entries w)) by (rewrite Hent; reflexivity).
    destruct (lookup INDEX_NAME (entries w)) as [n|];
      [destruct Hstale as (existing & Hc & Hne);
       rewrite read_text_content, Hc; apply str_eqb_neq in Hne;
       unfold ret; rewrite Hne
      |unfold ret];
      (destruct (check args); [reflexivity|];
       destruct (dry_run args); [|discriminate Hmode];
       unfold print, preview; cbn [stdout stderr entries repo_dir];
       rewrite <- !app_assoc; reflexivity). }
  split.
  - intros Hcheck. rewrite Hmain by (rewrite Hcheck; reflexivity).
    rewrite Hcheck. eexists. split; [reflexivity|].
    cbn [fst snd exit_status warned entries stdout stderr]. auto.
  - intros Hcheck Hdry.
    rewrite Hmain by (rewrite Hcheck, Hdry; reflexivity).
    rewrite Hcheck. eexists. split; [reflexivity|].
    cbn [fst snd exit_status entries stdout]. rewrite Hent, Hout. auto.
Qed.

Lemma main_check_and_dry_run_witness :
  (exists w',
      main {| check := true; dry_run := false; write := true |} stale_repo
      = (Return 1%Z, w')
      /\ entries w' = entries stale_repo)
  /\ (exists w',
         main {| check := false; dry_run := true; write := true |} stale_repo
         = (Return 0%Z, w')
         /\ entries w' = entries stale_repo
         /\ stdout w'
            = preview (text "<ul>" ++ _render_tools_html
                                        [tool "a.html" "A" "A tool"]
                       ++ text "</ul>")).
Proof.
  assert (Hscan : scan_tools (repo_dir stale_repo) None stale_repo
                  = (Return [tool "a.html" "A" "A tool"], stale_repo))
    by (vm_compute; reflexivity).
  assert (Hgen : fst (generate_index_html [tool "a.html" "A" "A tool"]
                        TEMPLATE_NAME stale_repo)
                 = Return (text "<ul>"
                           ++ _render_tools_html [tool "a.html" "A" "A tool"]
                           ++ text "</ul>"))
    by (vm_compute; reflexivity).
  assert (Hstale : stale stale_repo
                     (text "<ul>"
                      ++ _render_tools_html [tool "a.html" "A" "A tool"]
                      ++ text "</ul>")).
  { unfold stale. eexists. split; [vm_compute; reflexivity|].
    vm_compute; discriminate. }
  split.
  - destruct (proj1 (@main_check_and_dry_run
                       {| check := true; dry_run := false; write := true |}
                       _ _ _ _ Hscan Hgen Hstale) eq_refl)
      as (w' & Hm & _ & He & _).
    eauto.
  - destruct (proj2 (@main_check_and_dry_run
                       {| check := false; dry_run := true; write := true |}
                       _ _ _ _ Hscan Hgen Hstale) eq_refl eq_refl)
      as (w' & Hm & _ & He & Ho).
    eauto.
Defined.

(** ** The scan as a function of the listing *)

Lemma logged_nil (w : world) : logged w [] = w.
Proof. destruct w. unfold logged. simpl. rewrite app_nil_r. reflexivity. Qed.

Lemma logged_warned (w : world) (line : str) (lines : list str) :
  logged (warned w line) lines = logged w (line :: lines).
Proof. unfold logged, warned. simpl. rewrite <- app_assoc. reflexivity. Qed.

Lemma scan_loop_passes (directory : str) (exclude : list str)
    (files : list entry) (tools : list ToolInfo) (w : world) :
  forallb (passes exclude) files = true ->
  scan_loop directory exclude files tools w
  = (Return (tools ++ flat_map (file_tools exclude) files),
     logged w (flat_map (file_warnings directory exclude) files)).
Proof.
  revert tools w. induction files as [|f files IH]; intros tools w H.
  - simpl. rewrite app_nil_r, logged_nil. reflexivity.
  - cbn [forallb] in H. apply andb_true_iff in H as [Hf H].
    rewrite scan_loop_step. cbn [flat_map].
    unfold passes in Hf. unfold file_tools at 1, file_warnings at 1.
    destruct (is_excluded exclude (fst f)); [apply IH, H|].
    cbn [orb] in Hf.
    destruct (content_of (snd f)) as [content|e].
    + destruct (extract_description content) as [d|]; [|discriminate].
      rewrite IH by exact H. rewrite <- app_assoc. reflexivity.
    + rewrite Hf, IH by exact H. rewrite logged_warned. reflexivity.
Qed.

Lemma scan_loop_returns (directory : str) (exclude : list str)
    (files : list entry) (tools out : list ToolInfo) (w w' : world) :
  scan_loop directory exclude files tools w = (Return out, w') ->
  forallb (passes exclude) files = true.
Proof.
  revert tools w. induction files as [|f files IH]; intros tools w H;
    [reflexivity|].
  rewrite scan_loop_step in H. cbn [forallb]. unfold passes at 1.
  destruct (is_excluded exclude (fst f)); [exact (IH _ _ H)|].
  cbn [orb].
  destruct (content_of (snd f)) as [content|e].
  - destruct (extract_description content); [exact (IH _ _ H)|discriminate].
  - destruct (is_OSError e); [exact (IH _ _ H)|discriminate].
Qed.

Lemma scan_tools_iff (directory : str) (exclude : option (list str))
    (w w' : world) (tools : list ToolInfo) :
  scan_tools directory exclude w = (Return tools, w')
  <-> forallb (passes (exclusions exclude)) (html_files (entries w)) = true
      /\ tools = sorted sort_key
                   (flat_map (file_tools (exclusions exclude))
                      (html_files (entries w)))
      /\ w' = logged w
                (flat_map (file_warnings directory (exclusions exclude))
                   (html_files (entries w))).
Proof.
  rewrite scan_tools_unfold. split.
  - destruct (scan_loop directory (exclusions exclude)
                (html_files (entries w)) [] w) as [[c|e] w1] eqn:E;
      [|discriminate].
    intros [= <- <-].
    pose proof (scan_loop_returns _ _ _ _ _ E) as Hp.
    rewrite (scan_loop_passes directory _ _ [] w Hp) in E.
    injection E as <- <-. auto.
  - intros (Hp & -> & ->).
    rewrite (scan_loop_passes directory _ _ [] w Hp). reflexivity.
Qed.

(** X1: [scan_tools] returns a list exactly when no listed file ends the
    scan, that is, when every [.html] file that is not excluded either
    fails to be read with an [OSError] or can be read and has a
    description.  The list is then the sorted list of the tools of those
    files that can be read, one for each, and the only effect is one
    warning, in listing order, for each file whose read failed. *)
Theorem scan_tools_returns_iff (directory : str)
    (exclude : option (list str)) (w w' : world) (tools : list ToolInfo) :
  scan_tools directory exclude w = (Return tools, w')
  <-> forallb (passes (exclusions exclude)) (html_files (entries w)) = true
      /\ tools = sorted sort_key
                   (flat_map (file_tools (exclusions exclude))
                      (html_files (entries w)))
      /\ w' = logged w
                (flat_map (file_warnings directory (exclusions exclude))
                   (html_files (entries w))).
Proof. apply scan_tools_iff. Qed.

Lemma scan_tools_returns_iff_witness :
  forallb (passes DEFAULT_EXCLUDE) (html_files (entries unreadable_between))
  = true
  /\ [tool "a.html" "A" "A tool"; tool "c.html" "C" "A tool"]
     = sorted sort_key
         (flat_map (file_tools DEFAULT_EXCLUDE)
            (html_files (entries unreadable_between)))
  /\ warned unreadable_between
       (text "Warning: Could not read /repo/b.html: "
        ++ text "[Errno 13] Permission denied")
     = logged unreadable_between
         (flat_map (file_warnings (text "/repo") DEFAULT_EXCLUDE)
            (html_files (entries unreadable_between))).
Proof.
  apply (proj1 (@scan_tools_returns_iff (text "/repo") None
                  unreadable_between _ _)).
  vm_compute; reflexivity.
Defined.

(** ** Entries the scan does not look at *)

Lemma scan_loop_with_entries (directory : str) (exclude : list str)
    (files : list entry) (tools : list ToolInfo) (w : world)
    (l : list entry) :
  scan_loop directory exclude files tools (with_entries w l)
  = (fst (scan_loop directory exclude files tools w),
     with_entries (snd (scan_loop directory exclude files tools w)) l).
Proof.
  revert tools w. induction files as [|f files IH]; intros tools w;
    [reflexivity|].
  rewrite !scan_loop_step.
  destruct (is_excluded exclude (fst f)); [apply IH|].
  destruct (content_of (snd f)) as [content|e].
  - destruct (extract_description content); [apply IH|reflexivity].
  - destruct (is_OSError e); [|reflexivity].
    change (warned (with_entries w l) (warning directory (fst f) e))
      with (with_entries (warned w (warning directory (fst f) e)) l).
    apply IH.
Qed.

Lemma scan_loop_skip (directory : str) (exclude : list str)
    (pre post : list entry) (f : entry) (tools : list ToolInfo) (w : world) :
  is_excluded exclude (fst f) = true ->
  scan_loop directory exclude (pre ++ f :: post) tools w
  = scan_loop directory exclude (pre ++ post) tools w.
Proof.
  intros Hex. rewrite !scan_loop_app.
  destruct (scan_loop directory exclude pre tools w) as [[t1|e] w1];
    [|reflexivity].
  rewrite scan_loop_step, Hex. reflexivity.
Qed.

Lemma scan_tools_without (directory : str) (exclude : option (list str))
    (w : world) (pre post : list entry) (name : str) (n : node) :
  entries w = pre ++ (name, n) :: post ->
  ends_with (text ".html") name = false
  \/ is_excluded (exclusions exclude) name = true ->
  scan_tools directory exclude (with_entries w (pre ++ post))
  = (fst (scan_tools directory exclude w),
     with_entries (snd (scan_tools directory exclude w)) (pre ++ post)).
Proof.
  intros Hl Hskip.
  assert (Hloop :
            scan_loop directory (exclusions exclude)
              (html_files (pre ++ post)) [] w
            = scan_loop directory (exclusions exclude)
                (html_files (entries w)) [] w).
  { rewrite Hl, !html_files_app. unfold html_files at 4.
    cbn [filter fst].
    destruct (ends_with (text ".html") name) eqn:Hhtml; [|reflexivity].
    destruct Hskip as [Hs|Hs]; [discriminate|].
    symmetry. apply scan_loop_skip. exact Hs. }
  rewrite !scan_tools_unfold. cbn [with_entries entries].
  change {| repo_dir := repo_dir w; entries := pre ++ post;
            stdout := stdout w; stderr := stderr w |}
    with (with_entries w (pre ++ post)).
  rewrite scan_loop_with_entries, Hloop.
  destruct (scan_loop directory (exclusions exclude)
              (html_files (entries w)) [] w) as [[c|e] w1]; reflexivity.
Qed.

(** X2: an entry whose name does not end in [.html], or whose lower-cased
    name is the lower-cased form of an excluded name, is not looked at:
    whatever it holds, readable or not, the scan of the directory gives
    the result and the warnings of the scan of the directory without that
    entry. *)
Theorem scan_tools_ignores_entry (directory : str)
    (exclude : option (list str)) (w : world) (pre post : list entry)
    (name : str) (n : node) :
  entries w = pre ++ (name, n) :: post ->
  ends_with (text ".html") name = false
  \/ is_excluded (exclusions exclude) name = true ->
  scan_tools directory exclude (with_entries w (pre ++ post))
  = (fst (scan_tools directory exclude w),
     with_entries (snd (scan_tools directory exclude w)) (pre ++ post)).
Proof. apply scan_tools_without. Qed.

Lemma scan_tools_ignores_entry_witness :
  scan_tools (text "/repo") None
    (with_entries stale_repo
       [described "a.html";
        ascii_file "index.template.html" "<ul><!-- TOOLS_LIST --></ul>"])
  = (Return [tool "a.html" "A" "A tool"],
     with_entries stale_repo
       [described "a.html";
        ascii_file "index.template.html" "<ul><!-- TOOLS_LIST --></ul>"]).
Proof.
  apply (@scan_tools_ignores_entry (text "/repo") None stale_repo
           [described "a.html";
            ascii_file "index.template.html" "<ul><!-- TOOLS_LIST --></ul>"]
           [] (text "index.html") (File (ascii_bytes "<ul></ul>"))).
  - reflexivity.
  - right. vm_compute. reflexivity.
Defined.

(** ** The listing order *)

Lemma str_ltb_total (a b : str) :
  str_ltb a b = false -> str_ltb b a = false -> a = b.
Proof.
  revert b; induction a as [|x a IH]; intros [|y b]; simpl;
    try discriminate; auto.
  destruct (N.ltb_spec x y); [discriminate|].
  destruct (N.ltb_spec y x); [discriminate|].
  intros H1 H2. f_equal; [lia|auto].
Qed.

(** Two sorted lists with the same elements, whose keys are all different,
    are the same list. *)
Lemma sorted_lists_equal (key : ToolInfo -> str) (l1 l2 : list ToolInfo) :
  StronglySorted (key_le key) l1 -> StronglySorted (key_le key) l2 ->
  Permutation l1 l2 -> NoDup (List.map key l1) -> l1 = l2.
Proof.
  intros H1. revert l2. induction H1 as [|a l1 Hs1 IH Ha]; intros l2 H2 Hp Hn.
  - apply Permutation_nil in Hp. congruence.
  - destruct H2 as [|b l2 Hs2 Hb].
    + apply Permutation_sym, Permutation_nil in Hp. discriminate.
    + assert (Hab : a = b).
      { assert (Hina : In a (b :: l2))
          by (apply (Permutation_in _ Hp); left; reflexivity).
        assert (Hinb : In b (a :: l1))
          by (apply (Permutation_in _ (Permutation_sym Hp)); left;
              reflexivity).
        destruct Hina as [->|Hina]; [reflexivity|].
        destruct Hinb as [->|Hinb]; [reflexivity|].
        exfalso. rewrite Forall_forall in Ha, Hb.
        pose proof (Ha b Hinb) as Hle1. pose proof (Hb a Hina) as Hle2.
        unfold key_le in *.
        pose proof (str_ltb_total _ _ Hle2 Hle1) as Hk.
        inversion Hn as [|? ? Hnotin _]; subst.
        apply Hnotin. rewrite Hk. apply in_map. exact Hinb. }
      subst b. f_equal. apply IH; auto.
      * eapply Permutation_cons_inv; exact Hp.
      * inversion Hn; assumption.
Qed.

Lemma html_files_perm (l1 l2 : list entry) :
  Permutation l1 l2 -> Permutation (html_files l1) (html_files l2).
Proof.
  unfold html_files. induction 1 as [|x l l' _ IH|x y l|l l' l'' _ IH1 _ IH2];
    cbn [filter].
  - constructor.
  - destruct (ends_with (text ".html") (fst x)); [constructor|]; exact IH.
  - destruct (ends_with (text ".html") (fst x)),
             (ends_with (text ".html") (fst y));
      try reflexivity. apply perm_swap.
  - etransitivity; eassumption.
Qed.

Lemma nodup_map_filter (A B : Type) (f : A -> B) (p : A -> bool)
    (l : list A) :
  NoDup (List.map f l) -> NoDup (List.map f (filter p l)).
Proof.
  induction l as [|x l IH]; [auto|].
  cbn [List.map filter]. intros Hn. inversion Hn as [|? ? Hx Hl]; subst.
  destruct (p x); [|auto].
  cbn [List.map]. constructor; [|auto].
  intros Hin. apply Hx. apply in_map_iff in Hin as (y & Hy & Hin).
  apply filter_In in Hin as [Hin _]. rewrite <- Hy. apply in_map. exact Hin.
Qed.

Lemma file_tools_key (exclude : list str) (f : entry) (t : ToolInfo) :
  In t (file_tools exclude f) -> sort_key t = entry_key f.
Proof.
  unfold file_tools. destruct (is_excluded exclude (fst f)); [contradiction|].
  destruct (content_of (snd f)) as [content|e]; [|contradiction].
  destruct (extract_description content); [|contradiction].
  intros [<-|[]]. reflexivity.
Qed.

Lemma file_tools_keys (exclude : list str) (files : list entry) (k : str) :
  In k (List.map sort_key (flat_map (file_tools exclude) files)) ->
  In k (List.map entry_key files).
Proof.
  intros H. apply in_map_iff in H as (t & <- & Ht).
  apply in_flat_map in Ht as (f & Hf & Ht).
  rewrite (file_tools_key _ _ _ Ht). apply in_map. exact Hf.
Qed.

Lemma file_tools_nodup (exclude : list str) (files : list entry) :
  NoDup (List.map entry_key files) ->
  NoDup (List.map sort_key (flat_map (file_tools exclude) files)).
Proof.
  induction files as [|f files IH]; [constructor|].
  cbn [List.map flat_map]. intros Hn.
  inversion Hn as [|? ? Hf Hfiles]; subst.
  rewrite map_app. specialize (IH Hfiles).
  assert (Hone : file_tools exclude f = []
                 \/ exists t, file_tools exclude f = [t]
                              /\ sort_key t = entry_key f).
  { unfold file_tools.
    destruct (is_excluded exclude (fst f)); [auto|].
    destruct (content_of (snd f)) as [content|e]; [|auto].
    destruct (extract_description content); [|auto].
    right. eexists. split; reflexivity. }
  destruct Hone as [->|(t & -> & Hk)]; [exact IH|].
  cbn [List.map app]. constructor; [|exact IH].
  rewrite Hk. intros Hin. apply Hf. eapply file_tools_keys; exact Hin.
Qed.

Lemma scan_tools_any_order (directory : str) (exclude : option (list str))
    (w1 w2 w1' : world) (tools : list ToolInfo) :
  Permutation (entries w1) (entries w2) ->
  NoDup (List.map entry_key (entries w1)) ->
  scan_tools directory exclude w1 = (Return tools, w1') ->
  fst (scan_tools directory exclude w2) = Return tools.
Proof.
  intros Hp Hn H. apply scan_tools_iff in H as (Hpass & -> & _).
  pose proof (html_files_perm Hp) as Hh.
  assert (Hpass2 : forallb (passes (exclusions exclude))
                     (html_files (entries w2)) = true).
  { rewrite forallb_forall in *. intros f Hf. apply Hpass.
    apply (Permutation_in _ (Permutation_sym Hh)). exact Hf. }
  destruct (scan_tools directory exclude w2) as [r w2'] eqn:E.
  assert (E' : scan_tools directory exclude w2
               = (Return (sorted sort_key
                            (flat_map (file_tools (exclusions exclude))
                               (html_files (entries w2)))),
                  logged w2
                    (flat_map
                       (file_warnings directory (exclusions exclude))
                       (html_files (entries w2)))))
    by (apply scan_tools_iff; auto).
  rewrite E in E'. injection E' as -> _. cbn [fst]. f_equal.
  symmetry. apply sorted_lists_equal with (key := sort_key).
  - apply sorted_sorted.
  - apply sorted_sorted.
  - rewrite <- !sorted_perm. apply Permutation_flat_map. exact Hh.
  - apply (Permutation_NoDup
             (Permutation_map sort_key (sorted_perm sort_key _))).
    apply file_tools_nodup. unfold html_files. apply nodup_map_filter.
    exact Hn.
Qed.

(** X3: where no two names of the directory are the same up to case, the
    list [scan_tools] returns does not depend on the order in which the
    directory is listed: a scan that returns a list returns the same list
    after any reordering of the listing. *)
Theorem scan_tools_listing_order (directory : str)
    (exclude : option (list str)) (w1 w2 w1' : world)
    (tools : list ToolInfo) :
  Permutation (entries w1) (entries w2) ->
  NoDup (List.map entry_key (entries w1)) ->
  scan_tools directory exclude w1 = (Return tools, w1') ->
  fst (scan_tools directory exclude w2) = Return tools.
Proof. apply scan_tools_any_order. Qed.

Lemma scan_tools_listing_order_witness :
  fst (scan_tools (text "/repo") None apple_first)
  = Return [tool "apple.html" "Apple" "A tool";
            tool "Banana.html" "Banana" "A tool"].
Proof.
  apply (@scan_tools_listing_order (text "/repo") None banana_first
           apple_first banana_first).
  - apply perm_swap.
  - repeat constructor; simpl; intuition discriminate.
  - vm_compute; reflexivity.
Defined.

(** ** The template *)

Lemma generate_index_html_cases (tools : list ToolInfo) (name : str)
    (w : world) :
  generate_index_html tools name w
  = (match lookup name (entries w) with
     | None =>
         Raise (FileNotFoundError
                  (text "Template file not found: "
                   ++ path_join (repo_dir w) name))
     | Some n =>
         match content_of n with
         | Return template =>
             Return (replace PLACEHOLDER (_render_tools_html tools) template)
         | Raise e => Raise e
         end
     end, w).
Proof.
  unfold generate_index_html, bind, path.
  destruct (lookup name (entries w)) as [n|]; [|reflexivity].
  rewrite read_text_content. destruct (content_of n); reflexivity.
Qed.

(** X4: [generate_index_html] changes nothing in the world.  Without an
    entry of the template's name it raises [FileNotFoundError] with the
    path of the template in its message; a template that cannot be read
    or decoded makes it raise that error, which nothing catches. *)
Theorem generate_index_html_errors (tools : list ToolInfo) (name : str)
    (w : world) :
  snd (generate_index_html tools name w) = w
  /\ (lookup name (entries w) = None ->
      fst (generate_index_html tools name w)
      = Raise (FileNotFoundError
                 (text "Template file not found: "
                  ++ path_join (repo_dir w) name)))
  /\ (forall n e,
         lookup name (entries w) = Some n -> content_of n = Raise e ->
         fst (generate_index_html tools name w) = Raise e).
Proof.
  rewrite generate_index_html_cases. cbn [fst snd].
  split; [reflexivity|]. split.
  - intros ->. reflexivity.
  - intros n e -> ->. reflexivity.
Qed.

Lemma generate_index_html_errors_witness :
  fst (generate_index_html one_tool TEMPLATE_NAME no_template_repo)
  = Raise (FileNotFoundError
             (text "Template file not found: /repo/index.template.html")).
Proof.
  apply (proj1 (proj2 (generate_index_html_errors one_tool TEMPLATE_NAME
                         no_template_repo))).
  reflexivity.
Defined.

(** X5: with a template that does not hold the placeholder, the document
    is the template as it is: the tools are left out without any error. *)
Theorem generate_index_html_no_placeholder (tools : list ToolInfo)
    (name : str) (w : world) (n : node) (template : str) :
  lookup name (entries w) = Some n ->
  content_of n = Return template ->
  contains PLACEHOLDER template = false ->
  generate_index_html tools name w = (Return template, w).
Proof.
  intros Hl Hc Hp. rewrite generate_index_html_cases, Hl, Hc.
  unfold replace. change PLACEHOLDER with (60%N :: tl PLACEHOLDER) at 1.
  cbv iota. rewrite replace_scan_absent by exact Hp. reflexivity.
Qed.

Lemma generate_index_html_no_placeholder_witness :
  generate_index_html one_tool TEMPLATE_NAME plain_template_repo
  = (Return (text "<ul></ul>"), plain_template_repo).
Proof.
  apply (@generate_index_html_no_placeholder one_tool TEMPLATE_NAME
           plain_template_repo (File (ascii_bytes "<ul></ul>"))
           (text "<ul></ul>")); reflexivity.
Defined.

(** ** The driver, case by case *)

Lemma store_store (name : str) (x y : node) (l : list entry) :
  store name x (store name y l) = store name x l.
Proof.
  induction l as [|[n z] l IH]; cbn [store].
  - rewrite str_eqb_refl. reflexivity.
  - destruct (str_eqb n name) eqn:E; cbn [store]; rewrite E;
      [reflexivity|]. rewrite IH. reflexivity.
Qed.

(** [write_text] leaves the encoded content in the file, or the empty
    file where the content cannot be encoded. *)
Lemma write_text_cases (name content : str) (w : world) :
  write_text name content w
  = match encode content with
    | Some data =>
        (Return tt,
         {| repo_dir := repo_dir w;
            entries := store name (File data) (entries w);
            stdout := stdout w; stderr := stderr w |})
    | None =>
        (Raise UnicodeEncodeError,
         {| repo_dir := repo_dir w;
            entries := store name (File []) (entries w);
            stdout := stdout w; stderr := stderr w |})
    end.
Proof.
  unfold write_text, bind, set_file, raise.
  destruct (encode content) as [data|]; [|reflexivity].
  cbn [repo_dir entries stdout stderr]. rewrite store_store. reflexivity.
Qed.

(** What [main] does once the scan has returned its list and the document
    has been generated. *)
Lemma main_cases (args : Args) (w w1 : world) (tools : list ToolInfo)
    (new_content : str) :
  scan_tools (repo_dir w) None w = (Return tools, w1) ->
  fst (generate_index_html tools TEMPLATE_NAME w1) = Return new_content ->
  main args w
  = match
      match lookup INDEX_NAME (entries w) with
      | Some n =>
          match content_of n with
          | Return existing => Return (str_eqb existing new_content)
          | Raise e => Raise e
          end
      | None => Return false
      end
    with
    | Raise e => (Raise e, w1)
    | Return true =>
        (Return 0%Z,
         if dry_run args || check args
         then printed w1 [text "index.html is up to date."]
         else w1)
    | Return false =>
        if check args
        then (Return 1%Z, warned w1 (text "index.html is out of date."))
        else if dry_run args
        then (Return 0%Z, printed w1 (preview new_content))
        else
          match encode new_content with
          | Some data => (Return 0%Z, written w1 data tools)
          | None => (Raise UnicodeEncodeError, emptied w1)
          end
    end.
Proof.
  intros Hscan Hgen.
  destruct (scan_tools_frame _ _ _ Hscan) as (Hdir & Hent & Hout).
  unfold main, bind.
  change (text "index.template.html") with TEMPLATE_NAME.
  change (text "index.html") with INDEX_NAME.
  assert (Hargs :
            check (if dry_run args
                   then {| check := check args; dry_run := dry_run args;
                           write := false |}
                   else args) = check args
            /\ dry_run (if dry_run args
                        then {| check := check args;
                                dry_run := dry_run args; write := false |}
                        else args) = dry_run args)
    by (destruct (dry_run args) eqn:E; split; try reflexivity; exact E).
  destruct Hargs as [-> ->].
  cbv beta iota. rewrite Hscan, generate_index_html_world, Hgen.
  unfold path.
  replace (lookup INDEX_NAME (entries w1))
    with (lookup INDEX_NAME (entries w)) by (rewrite Hent; reflexivity).
  assert (Hrest :
            (if check args
             then
               fun w0 : world =>
                 let (r0, w'0) :=
                   print_err (text "index.html is out of date.") w0 in
                 match r0 with
                 | Return _ => ret 1%Z w'0
                 | Raise e => (Raise e, w'0)
                 end
             else
               if dry_run args
               then
                 fun w0 : world =>
                   let (r0, w'0) :=
                     print (text "index.html would be updated:") w0 in
                   match r0 with
                   | Return _ =>
                       let (r1, w'1) := print (repeat 61%N 60) w'0 in
                       match r1 with
                       | Return _ =>
                           let (r2, w'2) := print new_content w'1 in
                           match r2 with
                           | Return _ =>
                               let (r3, w'3) :=
                                 print (repeat 61%N 60) w'2 in
                               match r3 with
                               | Return _ => ret 0%Z w'3
                               | Raise e => (Raise e, w'3)
                               end
                           | Raise e => (Raise e, w'2)
                           end
                       | Raise e => (Raise e, w'1)
                       end
                   | Raise e => (Raise e, w'0)
                   end
               else
                 fun w0 : world =>
                   let (r0, w'0) := write_text INDEX_NAME new_content w0 in
                   match r0 with
                   | Return _ =>
                       let (r1, w'1) :=
                         print
                           (text "Generated index.html with "
                            ++ decimal (length tools) ++ text " tool(s).")
                           w'0 in
                       match r1 with
                       | Return _ => ret 0%Z w'1
                       | Raise e => (Raise e, w'1)
                       end
                   | Raise e => (Raise e, w'0)
                   end) w1
            = if check args
              then (Return 1%Z, warned w1 (text "index.html is out of date."))
              else if dry_run args
              then (Return 0%Z, printed w1 (preview new_content))
              else
                match encode new_content with
                | Some data => (Return 0%Z, written w1 data tools)
                | None => (Raise UnicodeEncodeError, emptied w1)
                end).
  { destruct (check args); [reflexivity|].
    destruct (dry_run args).
    - unfold print, printed, preview, ret.
      cbn [stdout stderr entries repo_dir].
      rewrite <- !app_assoc. reflexivity.
    - rewrite write_text_cases.
      destruct (encode new_content); reflexivity. }
  destruct (lookup INDEX_NAME (entries w)) as [n|].
  - rewrite read_text_content.
    destruct (content_of n) as [existing|e]; [|reflexivity].
    unfold ret at 1. destruct (str_eqb existing new_content).
    + destruct (dry_run args || check args); reflexivity.
    + exact Hrest.
  - unfold ret at 1. exact Hrest.
Qed.

Lemma main_scan_raises (args : Args) (w w1 : world) (e : exn) :
  scan_tools (repo_dir w) None w = (Raise e, w1) ->
  main args w = (Raise e, w1).
Proof.
  intros Hscan. unfold main, bind. cbv beta iota. rewrite Hscan.
  reflexivity.
Qed.

Lemma main_generate_raises (args : Args) (w w1 : world)
    (tools : list ToolInfo) (e : exn) :
  scan_tools (repo_dir w) None w = (Return tools, w1) ->
  fst (generate_index_html tools TEMPLATE_NAME w1) = Raise e ->
  main args w = (Raise e, w1).
Proof.
  intros Hscan Hgen. unfold main, bind. cbv beta iota.
  change (text "index.template.html") with TEMPLATE_NAME.
  rewrite Hscan, generate_index_html_world, Hgen. reflexivity.
Qed.

(** X6: with an index whose text is the content just generated, [main]
    returns 0 in every mode and leaves the directory as it is; it prints
    that the index is up to date under [--check] or [--dry-run] and
    nothing otherwise. *)
Theorem main_up_to_date (args : Args) (w w1 : world)
    (tools : list ToolInfo) (new_content : str) (n : node) :
  scan_tools (repo_dir w) None w = (Return tools, w1) ->
  fst (generate_index_html tools TEMPLATE_NAME w1) = Return new_content ->
  lookup INDEX_NAME (entries w) = Some n ->
  content_of n = Return new_content ->
  exists w',
    main args w = (Return 0%Z, w')
    /\ entries w' = entries w
    /\ stderr w' = stderr w1
    /\ stdout w'
       = stdout w ++ (if dry_run args || check args
                      then [text "index.html is up to date."]
                      else []).
Proof.
  intros Hscan Hgen Hl Hc.
  destruct (scan_tools_frame _ _ _ Hscan) as (_ & Hent & Hout).
  rewrite (@main_cases args _ _ _ _ Hscan Hgen), Hl, Hc, str_eqb_refl.
  eexists. split; [reflexivity|].
  destruct (dry_run args || check args); cbn [printed entries stdout stderr];
    rewrite ?app_nil_r; auto.
  rewrite Hout. auto.
Qed.

Lemma main_up_to_date_witness :
  exists w',
    main {| check := true; dry_run := false; write := true |} fresh_repo
    = (Return 0%Z, w')
    /\ entries w' = entries fresh_repo
    /\ stderr w' = stderr fresh_repo
    /\ stdout w' = [text "index.html is up to date."].
Proof.
  apply (@main_up_to_date
           {| check := true; dry_run := false; write := true |}
           fresh_repo fresh_repo [] (text "<ul></ul>")
           (File (ascii_bytes "<ul></ul>"))); reflexivity.
Defined.

(** X7: without [--check] and [--dry-run], a stale index is replaced: the
    entry [index.html] then holds the UTF-8 bytes of the new content, one
    line with the number of tools is printed, and [main] returns 0.  A
    content that cannot be encoded makes [main] raise
    [UnicodeEncodeError] once the index has been opened for writing: the
    entry [index.html] is then left empty, and nothing is printed. *)
Theorem main_writes_stale_index (args : Args) (w w1 : world)
    (tools : list ToolInfo) (new_content : str) :
  scan_tools (repo_dir w) None w = (Return tools, w1) ->
  fst (generate_index_html tools TEMPLATE_NAME w1) = Return new_content ->
  stale w new_content ->
  check args = false -> dry_run args = false ->
  match encode new_content with
  | Some data =>
      main args w = (Return 0%Z, written w1 data tools)
      /\ entries (written w1 data tools)
         = store INDEX_NAME (File data) (entries w)
      /\ stdout (written w1 data tools)
         = stdout w ++ [generated_line tools]
  | None =>
      main args w = (Raise UnicodeEncodeError, emptied w1)
      /\ entries (emptied w1) = store INDEX_NAME (File []) (entries w)
      /\ stdout (emptied w1) = stdout w
  end.
Proof.
  intros Hscan Hgen Hstale Hcheck Hdry.
  destruct (scan_tools_frame _ _ _ Hscan) as (_ & Hent & Hout).
  rewrite (@main_cases args _ _ _ _ Hscan Hgen), Hcheck, Hdry.
  assert (Hfalse :
            match lookup INDEX_NAME (entries w) with
            | Some n =>
                match content_of n with
                | Return existing => Return (str_eqb existing new_content)
                | Raise e => Raise e
                end
            | None => Return false
            end = Return false).
  { unfold stale in Hstale.
    destruct (lookup INDEX_NAME (entries w)) as [n|]; [|reflexivity].
    destruct Hstale as (existing & -> & Hne).
    apply str_eqb_neq in Hne. rewrite Hne. reflexivity. }
  rewrite Hfalse.
  destruct (encode new_content) as [data|];
    cbn [written emptied entries stdout]; rewrite Hent, Hout; auto.
Qed.

Lemma main_writes_stale_index_witness :
  (exists data,
      encode (text "<ul>" ++ _render_tools_html [tool "a.html" "A" "A tool"]
              ++ text "</ul>") = Some data
      /\ main {| check := false; dry_run := false; write := true |}
           stale_repo
         = (Return 0%Z,
            written stale_repo data [tool "a.html" "A" "A tool"]))
  /\ main {| check := false; dry_run := false; write := true |}
       surrogate_repo
     = (Raise UnicodeEncodeError, emptied surrogate_repo).
Proof.
  split.
  - assert (Hscan : scan_tools (repo_dir stale_repo) None stale_repo
                    = (Return [tool "a.html" "A" "A tool"], stale_repo))
      by (vm_compute; reflexivity).
    assert (Hgen : fst (generate_index_html [tool "a.html" "A" "A tool"]
                          TEMPLATE_NAME stale_repo)
                   = Return (text "<ul>"
                             ++ _render_tools_html
                                  [tool "a.html" "A" "A tool"]
                             ++ text "</ul>"))
      by (vm_compute; reflexivity).
    assert (Hstale : stale stale_repo
                       (text "<ul>"
                        ++ _render_tools_html [tool "a.html" "A" "A tool"]
                        ++ text "</ul>")).
    { unfold stale. eexists. split; [vm_compute; reflexivity|].
      vm_compute; discriminate. }
    pose proof (@main_writes_stale_index
                  {| check := false; dry_run := false; write := true |}
                  _ _ _ _ Hscan Hgen Hstale eq_refl eq_refl) as H.
    destruct (encode (text "<ul>"
                      ++ _render_tools_html [tool "a.html" "A" "A tool"]
                      ++ text "</ul>")) as [data|] eqn:E.
    + exists data. split; [reflexivity|]. apply H.
    + vm_compute in E. discriminate E.
  - pose (t := {| filename := 56448%N :: text ".html";
                  title_of := [56448%N];
                  description := text "A tool" |}).
    assert (Hscan : scan_tools (repo_dir surrogate_repo) None surrogate_repo
                    = (Return [t], surrogate_repo))
      by (vm_compute; reflexivity).
    assert (Hgen : fst (generate_index_html [t] TEMPLATE_NAME
                          surrogate_repo)
                   = Return (text "<ul>" ++ _render_tools_html [t]
                             ++ text "</ul>"))
      by (vm_compute; reflexivity).
    assert (Hstale : stale surrogate_repo
                       (text "<ul>" ++ _render_tools_html [t]
                        ++ text "</ul>")).
    { unfold stale. eexists. split; [vm_compute; reflexivity|].
      vm_compute; discriminate. }
    pose proof (@main_writes_stale_index
                  {| check := false; dry_run := false; write := true |}
                  _ _ _ _ Hscan Hgen Hstale eq_refl eq_refl) as H.
    destruct (encode (text "<ul>" ++ _render_tools_html [t]
                      ++ text "</ul>")) as [data|] eqn:E.
    + vm_compute in E. discriminate E.
    + apply H.
Defined.

(** X8: an error of the scan or of the generation, and a read error of
    an index that exists, end [main] in every mode: the exception goes up
    uncaught, the exit status is 1, and the directory and the output
    stream are as they were. *)
Theorem main_fatal_errors (args : Args) (w w1 : world) (e : exn) :
  scan_tools (repo_dir w) None w = (Raise e, w1)
  \/ (exists tools,
         scan_tools (repo_dir w) None w = (Return tools, w1)
         /\ (fst (generate_index_html tools TEMPLATE_NAME w1) = Raise e
             \/ exists new_content n,
                 fst (generate_index_html tools TEMPLATE_NAME w1)
                 = Return new_content
                 /\ lookup INDEX_NAME (entries w) = Some n
                 /\ content_of n = Raise e)) ->
  main args w = (Raise e, w1)
  /\ exit_status (fst (main args w)) = 1%Z
  /\ entries w1 = entries w
  /\ stdout w1 = stdout w.
Proof.
  intros H.
  assert (Hmain : main args w = (Raise e, w1)
                  /\ entries w1 = entries w /\ stdout w1 = stdout w).
  { destruct H as [Hscan|(tools & Hscan & [Hgen|(c & n & Hgen & Hl & Hc)])];
      destruct (scan_tools_frame _ _ _ Hscan) as (_ & Hent & Hout);
      repeat split; auto.
    - apply main_scan_raises; exact Hscan.
    - eapply main_generate_raises; eauto.
    - rewrite (@main_cases args _ _ _ _ Hscan Hgen), Hl, Hc. reflexivity. }
  destruct Hmain as (Hm & Hent & Hout). rewrite Hm. auto.
Qed.

Lemma main_fatal_errors_witness :
  main {| check := false; dry_run := false; write := true |}
    no_template_repo
  = (Raise (FileNotFoundError
              (text "Template file not found: /repo/index.template.html")),
     no_template_repo).
Proof.
  apply (@main_fatal_errors
           {| check := false; dry_run := false; write := true |}
           no_template_repo no_template_repo).
  right. exists [tool "a.html" "A" "A tool"].
  split; [vm_compute; reflexivity|]. left. vm_compute; reflexivity.
Defined.

(** X9: the [write] argument has no effect: [main] never reads it. *)
Theorem main_write_flag_unused (c d b b' : bool) (w : world) :
  main {| check := c; dry_run := d; write := b |} w
  = main {| check := c; dry_run := d; write := b' |} w.
Proof. destruct d; reflexivity. Qed.

(** ** Writing the index and reading it again *)

Ltac decide_tests :=
  repeat (match goal with
          | |- context [N.eqb ?a ?b] => destruct (N.eqb_spec a b); try lia
          | |- context [N.ltb ?a ?b] => destruct (N.ltb_spec a b); try lia
          | |- context [N.leb ?a ?b] => destruct (N.leb_spec a b); try lia
          end; cbn [andb orb negb]).

Lemma utf8_decode_2 (b0 b1 : N) (r : list N) :
  (194 <= b0 <= 223)%N -> (128 <= b1 <= 191)%N ->
  utf8_decode (b0 :: b1 :: r)
  = option_map (cons ((b0 - 192) * 64 + (b1 - 128))%N) (utf8_decode r).
Proof.
  intros H0 H1. cbn [utf8_decode]. unfold continuation, in_range.
  decide_tests. reflexivity.
Qed.

Lemma utf8_decode_3 (b0 b1 b2 : N) (r : list N) :
  (224 <= b0 <= 239)%N -> (128 <= b1 <= 191)%N -> (128 <= b2 <= 191)%N ->
  (b0 = 224 -> 160 <= b1)%N -> (b0 = 237 -> b1 <= 159)%N ->
  utf8_decode (b0 :: b1 :: b2 :: r)
  = option_map
      (cons ((b0 - 224) * 4096 + (b1 - 128) * 64 + (b2 - 128))%N)
      (utf8_decode r).
Proof.
  intros H0 H1 H2 Hlo Hhi. cbn [utf8_decode]. unfold continuation, in_range.
  decide_tests; reflexivity.
Qed.

Lemma utf8_decode_4 (b0 b1 b2 b3 : N) (r : list N) :
  (240 <= b0 <= 244)%N -> (128 <= b1 <= 191)%N -> (128 <= b2 <= 191)%N ->
  (128 <= b3 <= 191)%N ->
  (b0 = 240 -> 144 <= b1)%N -> (b0 = 244 -> b1 <= 143)%N ->
  utf8_decode (b0 :: b1 :: b2 :: b3 :: r)
  = option_map
      (cons ((b0 - 240) * 262144 + (b1 - 128) * 4096 + (b2 - 128) * 64
             + (b3 - 128))%N)
      (utf8_decode r).
Proof.
  intros H0 H1 H2 H3 Hlo Hhi. cbn [utf8_decode].
  unfold continuation, in_range.
  decide_tests; reflexivity.
Qed.

(** The six-bit groups of a code point. *)
Lemma utf8_digits (c : N) :
  exists q1 r1 q2 r2 q3 r3 : N,
    (c / 64 = q1 /\ c mod 64 = r1 /\ (c / 64) mod 64 = r2
     /\ c / 4096 = q2 /\ (c / 4096) mod 64 = r3 /\ c / 262144 = q3
     /\ c = 64 * q1 + r1 /\ r1 < 64 /\ q1 = 64 * q2 + r2 /\ r2 < 64
     /\ q2 = 64 * q3 + r3 /\ r3 < 64)%N.
Proof.
  assert (H64 : 64%N <> 0%N) by discriminate.
  exists (c / 64)%N, (c mod 64)%N, (c / 4096)%N, ((c / 64) mod 64)%N,
    (c / 262144)%N, ((c / 4096) mod 64)%N.
  repeat split; try (apply N.mod_lt; exact H64).
  - apply N.div_mod; exact H64.
  - change 4096%N with (64 * 64)%N. rewrite <- N.Div0.div_div.
    apply N.div_mod; exact H64.
  - change 262144%N with (4096 * 64)%N. rewrite <- N.Div0.div_div.
    apply N.div_mod; exact H64.
Qed.

Lemma Some_eq (A : Type) (x y : A) : Some x = Some y -> x = y.
Proof. congruence. Qed.

(** Decoding undoes the encoding of one code point. *)
Lemma utf8_decode_encode_char (c : char) (l r : list N) :
  utf8_encode_char c = Some l ->
  utf8_decode (l ++ r) = option_map (cons c) (utf8_decode r).
Proof.
  unfold utf8_encode_char.
  destruct (utf8_digits c)
    as (q1 & r1 & q2 & r2 & q3 & r3 & E1 & E2 & E3 & E4 & E5 & E6
        & H1 & H2 & H3 & H4 & H5 & H6).
  rewrite E5, E3, E1, E2, E4, E6. clear E1 E2 E3 E4 E5 E6.
  destruct (N.ltb_spec c 128).
  { intros Hl. apply Some_eq in Hl. subst l. cbn [app utf8_decode].
    destruct (N.ltb_spec c 128); [reflexivity|lia]. }
  destruct (N.ltb_spec c 2048).
  { intros Hl. apply Some_eq in Hl. subst l. cbn [app].
    rewrite utf8_decode_2 by lia. f_equal. f_equal. lia. }
  destruct (in_range 55296 57343 c) eqn:Es; [discriminate|].
  apply in_range_false in Es.
  destruct (N.ltb_spec c 65536).
  { intros Hl. apply Some_eq in Hl. subst l. cbn [app].
    rewrite utf8_decode_3 by lia. f_equal. f_equal. lia. }
  destruct (N.ltb_spec c 1114112); [|discriminate].
  intros Hl. apply Some_eq in Hl. subst l. cbn [app].
  rewrite utf8_decode_4 by lia. f_equal. f_equal. lia.
Qed.

Lemma to_bytes_to_N (l : list N) (b : bytes) :
  to_bytes l = Some b -> List.map Byte.to_N b = l.
Proof.
  revert b. induction l as [|n l IH]; intros b.
  - intros [= <-]. reflexivity.
  - cbn [to_bytes]. destruct (Byte.of_N n) as [x|] eqn:Ex; [|discriminate].
    destruct (to_bytes l) as [r|]; [|discriminate].
    intros [= <-]. cbn [List.map]. f_equal; [|auto].
    apply Byte.to_of_N. exact Ex.
Qed.

(** [decode] undoes [encode]. *)
Lemma decode_encode (s : str) (data : bytes) :
  encode s = Some data -> decode data = Some s.
Proof.
  unfold decode. revert data. induction s as [|c s IH]; intros data.
  - intros [= <-]. reflexivity.
  - cbn [encode].
    destruct (utf8_encode_char c) as [l|] eqn:El; [|discriminate].
    destruct (encode s) as [r|]; [|discriminate].
    destruct (to_bytes l) as [b|] eqn:Eb; [|discriminate].
    intros [= <-]. rewrite map_app, (to_bytes_to_N _ Eb).
    rewrite (utf8_decode_encode_char _ _ El), (IH r eq_refl).
    reflexivity.
Qed.

Lemma universal_newlines_id (s : str) :
  ~ In CR s -> universal_newlines s = s.
Proof.
  induction s as [|c s IH]; [reflexivity|].
  intros Hn. cbn [universal_newlines].
  destruct (N.eqb_spec c CR) as [->|_]; [exfalso; apply Hn; left; reflexivity|].
  f_equal. apply IH. intros H. apply Hn. right. exact H.
Qed.

Lemma content_of_encoded (s : str) (data : bytes) :
  encode s = Some data ->
  content_of (File data) = Return (universal_newlines s).
Proof.
  intros H. cbn [content_of]. rewrite (decode_encode _ H). reflexivity.
Qed.

(** X10: what [write_text] has written, [read_text] reads as the same
    text with every carriage return, alone or before a line feed, turned
    into a line feed; a text without carriage return is read as it was
    written. *)
Theorem read_text_after_write_text (s : str) (data : bytes) :
  encode s = Some data ->
  content_of (File data) = Return (universal_newlines s)
  /\ (~ In CR s -> content_of (File data) = Return s).
Proof.
  intros H. split; [apply content_of_encoded; exact H|].
  intros Hcr. rewrite (content_of_encoded _ H), universal_newlines_id by
    exact Hcr. reflexivity.
Qed.

Lemma read_text_after_write_text_witness :
  content_of (File [Byte.x61; Byte.x0d; Byte.xc3; Byte.xa9])
  = Return [97; 10; 233]%N.
Proof.
  apply (proj1 (@read_text_after_write_text [97; 13; 233]%N
                  [Byte.x61; Byte.x0d; Byte.xc3; Byte.xa9] eq_refl)).
Defined.

(** ** A second run *)

Lemma lookup_store_same (name : str) (x : node) (l : list entry) :
  lookup name (store name x l) = Some x.
Proof.
  induction l as [|[n y] l IH]; cbn [store lookup].
  - rewrite str_eqb_refl. reflexivity.
  - destruct (str_eqb n name) eqn:E; cbn [lookup]; rewrite E; auto.
Qed.

Lemma lookup_store_other (name name' : str) (x : node) (l : list entry) :
  name <> name' ->
  lookup name' (store name x l) = lookup name' l.
Proof.
  intros Hne. induction l as [|[n y] l IH]; cbn [store lookup].
  - apply str_eqb_neq in Hne. rewrite Hne. reflexivity.
  - destruct (str_eqb n name) eqn:E; cbn [lookup].
    + apply str_eqb_eq in E. subst n.
      apply str_eqb_neq in Hne. rewrite Hne. reflexivity.
    + rewrite IH. reflexivity.
Qed.

(** Storing an entry under [name] changes nothing for a function of the
    listed files that gives nothing for the entries called [name]. *)
Lemma flat_map_html_files_store (A : Type) (g : entry -> list A)
    (name : str) (x : node) (l : list entry) :
  (forall n, g (name, n) = []) ->
  flat_map g (html_files (store name x l)) = flat_map g (html_files l).
Proof.
  intros Hg. unfold html_files.
  induction l as [|[n y] l IH]; cbn [store filter fst].
  - destruct (ends_with (text ".html") name); [|reflexivity].
    cbn [flat_map]. rewrite Hg. reflexivity.
  - destruct (str_eqb n name) eqn:E; cbn [filter fst].
    + apply str_eqb_eq in E. subst n.
      destruct (ends_with (text ".html") name); [|reflexivity].
      cbn [flat_map]. rewrite !Hg. reflexivity.
    + destruct (ends_with (text ".html") n); [|exact IH].
      cbn [flat_map]. rewrite IH. reflexivity.
Qed.

Lemma forallb_html_files_store (p : entry -> bool) (name : str) (x : node)
    (l : list entry) :
  (forall n, p (name, n) = true) ->
  forallb p (html_files (store name x l)) = forallb p (html_files l).
Proof.
  intros Hp. unfold html_files.
  induction l as [|[n y] l IH]; cbn [store filter fst].
  - destruct (ends_with (text ".html") name); [|reflexivity].
    cbn [forallb]. rewrite Hp. reflexivity.
  - destruct (str_eqb n name) eqn:E; cbn [filter fst].
    + apply str_eqb_eq in E. subst n.
      destruct (ends_with (text ".html") name); [|reflexivity].
      cbn [forallb]. rewrite !Hp. reflexivity.
    + destruct (ends_with (text ".html") n); [|exact IH].
      cbn [forallb]. rewrite IH. reflexivity.
Qed.

(** The scan after the index has been written gives the list it gave
    before. *)
Lemma scan_tools_after_write (w w1 w2 : world) (tools : list ToolInfo)
    (x : node) :
  scan_tools (repo_dir w) None w = (Return tools, w1) ->
  repo_dir w2 = repo_dir w ->
  entries w2 = store INDEX_NAME x (entries w) ->
  exists lines,
    scan_tools (repo_dir w2) None w2 = (Return tools, logged w2 lines).
Proof.
  intros Hscan Hdir Hent.
  apply scan_tools_iff in Hscan as (Hpass & Htools & _).
  eexists. apply scan_tools_iff. rewrite Hent. repeat split.
  - rewrite forallb_html_files_store; [exact Hpass|].
    intros n. reflexivity.
  - rewrite flat_map_html_files_store; [exact Htools|].
    intros n. reflexivity.
Qed.

Lemma main_again (args : Args) (w w1 : world) (tools : list ToolInfo)
    (new_content : str) (data : bytes) :
  scan_tools (repo_dir w) None w = (Return tools, w1) ->
  fst (generate_index_html tools TEMPLATE_NAME w1) = Return new_content ->
  encode new_content = Some data ->
  ~ In CR new_content ->
  exists w3,
    main args (written w1 data tools) = (Return 0%Z, w3)
    /\ entries w3 = entries (written w1 data tools)
    /\ stdout w3
       = stdout (written w1 data tools)
         ++ (if dry_run args || check args
             then [text "index.html is up to date."]
             else []).
Proof.
  intros Hscan Hgen Henc Hcr.
  destruct (scan_tools_frame _ _ _ Hscan) as (Hdir & Hent & _).
  destruct (@scan_tools_after_write w w1 (written w1 data tools) tools
              (File data) Hscan)
    as (lines & Hscan2).
  { exact Hdir. }
  { cbn [written entries]. rewrite Hent. reflexivity. }
  assert (Hgen2 : fst (generate_index_html tools TEMPLATE_NAME
                         (logged (written w1 data tools) lines))
                  = Return new_content).
  { rewrite generate_index_html_cases in *. cbn [fst] in *.
    cbn [logged written entries repo_dir].
    rewrite lookup_store_other by discriminate. exact Hgen. }
  rewrite (@main_cases args _ _ _ _ Hscan2 Hgen2).
  cbn [written entries]. rewrite lookup_store_same.
  rewrite (content_of_encoded _ Henc), universal_newlines_id by exact Hcr.
  rewrite str_eqb_refl. eexists. split; [reflexivity|].
  destruct (dry_run args || check args);
    cbn [printed logged written entries stdout]; rewrite ?app_nil_r; auto.
Qed.

Lemma not_in_existsb (c : char) (s : str) :
  existsb (N.eqb c) s = false -> ~ In c s.
Proof.
  intros H Hin. assert (existsb (N.eqb c) s = true).
  { apply existsb_exists. exists c. split; [exact Hin|apply N.eqb_refl]. }
  congruence.
Qed.

(** X11: a run that has written the index leaves it up to date: where the
    new content holds no carriage return, the next run over the directory
    as the first run left it returns 0 in every mode and writes nothing;
    under [--check] or [--dry-run] it prints that the index is up to
    date. *)
Theorem main_second_run (args args' : Args) (w w1 : world)
    (tools : list ToolInfo) (new_content : str) (data : bytes) :
  scan_tools (repo_dir w) None w = (Return tools, w1) ->
  fst (generate_index_html tools TEMPLATE_NAME w1) = Return new_content ->
  stale w new_content ->
  check args = false -> dry_run args = false ->
  encode new_content = Some data ->
  ~ In CR new_content ->
  main args w = (Return 0%Z, written w1 data tools)
  /\ exists w3,
      main args' (written w1 data tools) = (Return 0%Z, w3)
      /\ entries w3 = entries (written w1 data tools)
      /\ stdout w3
         = stdout (written w1 data tools)
           ++ (if dry_run args' || check args'
               then [text "index.html is up to date."]
               else []).
Proof.
  intros Hscan Hgen Hstale Hcheck Hdry Henc Hcr. split.
  - rewrite (@main_cases args _ _ _ _ Hscan Hgen), Hcheck, Hdry, Henc.
    unfold stale in Hstale.
    destruct (lookup INDEX_NAME (entries w)) as [n|]; [|reflexivity].
    destruct Hstale as (existing & -> & Hne).
    apply str_eqb_neq in Hne. rewrite Hne. reflexivity.
  - eapply main_again; eauto.
Qed.

Lemma main_second_run_witness :
  exists data w3,
    encode (text "<ul>" ++ _render_tools_html [tool "a.html" "A" "A tool"]
            ++ text "</ul>") = Some data
    /\ main {| check := true; dry_run := false; write := false |}
         (written stale_repo data [tool "a.html" "A" "A tool"])
       = (Return 0%Z, w3).
Proof.
  assert (Hscan : scan_tools (repo_dir stale_repo) None stale_repo
                  = (Return [tool "a.html" "A" "A tool"], stale_repo))
    by (vm_compute; reflexivity).
  assert (Hgen : fst (generate_index_html [tool "a.html" "A" "A tool"]
                        TEMPLATE_NAME stale_repo)
                 = Return (text "<ul>"
                           ++ _render_tools_html [tool "a.html" "A" "A tool"]
                           ++ text "</ul>"))
    by (vm_compute; reflexivity).
  assert (Hstale : stale stale_repo
                     (text "<ul>"
                      ++ _render_tools_html [tool "a.html" "A" "A tool"]
                      ++ text "</ul>")).
  { unfold stale. eexists. split; [vm_compute; reflexivity|].
    vm_compute; discriminate. }
  assert (Hcr : ~ In CR (text "<ul>"
                         ++ _render_tools_html [tool "a.html" "A" "A tool"]
                         ++ text "</ul>")).
  { apply not_in_existsb. vm_compute. reflexivity. }
  destruct (encode (text "<ul>"
                    ++ _render_tools_html [tool "a.html" "A" "A tool"]
                    ++ text "</ul>")) as [data|] eqn:Henc;
    [|vm_compute in Henc; discriminate].
  destruct (proj2 (@main_second_run
              {| check := false; dry_run := false; write := true |}
              {| check := true; dry_run := false; write := false |}
              _ _ _ _ _ Hscan Hgen Hstale eq_refl eq_refl Henc Hcr))
    as (w3 & Hmain & _).
  exists data, w3. split; [reflexivity|exact Hmain].
Defined.

(** ** The title element *)

Lemma title_pattern_eq :
  title_pattern
  = lits (text "<title>")
    ++ GROUP_LAZY_ANY :: lits (text "</title>") ++ [].
Proof. reflexivity. Qed.

Lemma same_ci_title (p : string) (t : str) :
  Forall plain (text p) ->
  Forall2 (fun pc c => literal_match title_flags pc c = true) (text p) t
  <-> same_ci p t.
Proof. exact (same_ci_iff p t). Qed.

Lemma plain_open : Forall plain (text "<title>").
Proof. apply plain_text. vm_compute. reflexivity. Qed.

Lemma plain_close : Forall plain (text "</title>").
Proof. apply plain_text. vm_compute. reflexivity. Qed.

(** A closing tag at the start of [s]. *)
Lemma closing_tag_iff (s : str) :
  sre_match title_flags (lits (text "</title>") ++ []) s <> None
  <-> exists c rest, s = c ++ rest /\ same_ci "</title>" c.
Proof.
  split.
  - destruct (sre_match title_flags (lits (text "</title>") ++ []) s)
      as [g|] eqn:E; [|congruence].
    intros _. apply sre_match_lits in E as (c & rest & -> & Hc & _).
    exists c, rest. split; [reflexivity|].
    apply same_ci_title; [exact plain_close|exact Hc].
  - intros (c & rest & -> & Hc) E.
    assert (H : sre_match title_flags (lits (text "</title>") ++ [])
                  (c ++ rest) = Some []).
    { apply sre_match_lits. exists c, rest. split; [reflexivity|].
      split; [|reflexivity].
      apply same_ci_title; [exact plain_close|exact Hc]. }
    congruence.
Qed.

Lemma any_char (g : str) :
  Forall (fun c => single_match title_flags ANY c = true) g.
Proof. apply Forall_forall. intros c _. reflexivity. Qed.

Lemma title_match_iff (s v : str) :
  sre_match title_flags title_pattern s = Some v <-> title_at s v.
Proof.
  rewrite title_pattern_eq. unfold title_at. split.
  - intros H. apply sre_match_lits in H as (o & r1 & -> & Ho & H).
    unfold GROUP_LAZY_ANY in H. cbn [sre_match] in H.
    apply lazy_Some in H as (r2 & -> & _ & Hk & Hmin).
    apply closing_tag_iff in Hk as (c & rest & -> & Hc).
    exists o, c, rest. split; [reflexivity|].
    split; [apply same_ci_title; [exact plain_open|exact Ho]|].
    split; [exact Hc|].
    intros v1 x v2 c' rest' Hv Hs Hc'.
    specialize (Hmin v1 x v2 Hv).
    assert (Hn : sre_match title_flags (lits (text "</title>") ++ [])
                   (x :: v2 ++ c ++ rest) <> None).
    { apply closing_tag_iff. exists c', rest'. split; assumption. }
    contradiction.
  - intros (o & c & rest & -> & Ho & Hc & Hmin).
    apply sre_match_lits. exists o, (v ++ c ++ rest).
    split; [reflexivity|].
    split; [apply same_ci_title; [exact plain_open|exact Ho]|].
    unfold GROUP_LAZY_ANY. cbn [sre_match].
    apply lazy_Some. exists (c ++ rest). split; [reflexivity|].
    split; [apply any_char|].
    split; [apply closing_tag_iff; eauto|].
    intros v1 x v2 Hv.
    destruct (sre_match title_flags (lits (text "</title>") ++ [])
                (x :: v2 ++ c ++ rest)) as [g|] eqn:E; [|reflexivity].
    exfalso.
    assert (Hn : sre_match title_flags (lits (text "</title>") ++ [])
                   (x :: v2 ++ c ++ rest) <> None) by congruence.
    apply closing_tag_iff in Hn as (c' & rest' & Hs & Hc').
    exact (Hmin v1 x v2 c' rest' Hv Hs Hc').
Qed.

(** The lazy group finds a continuation that matches somewhere. *)
Lemma lazy_finds (test : char -> bool) (k : str -> option str)
    (g rest : str) :
  Forall (fun c => test c = true) g -> k rest <> None ->
  lazy test k (g ++ rest) <> None.
Proof.
  intros Hg Hk. induction Hg as [|c g Hc Hg IH].
  - destruct rest; cbn [app lazy]; destruct (k _); congruence.
  - cbn [app lazy]. destruct (k (c :: g ++ rest)); [discriminate|].
    rewrite Hc. destruct (lazy test k (g ++ rest)); [discriminate|].
    congruence.
Qed.

(** The pattern matches at an opening tag exactly where a closing tag
    follows it. *)
Lemma title_match_exists (s : str) :
  sre_match title_flags title_pattern s <> None
  <-> exists o v c rest,
        s = o ++ v ++ c ++ rest
        /\ same_ci "<title>" o /\ same_ci "</title>" c.
Proof.
  split.
  - destruct (sre_match title_flags title_pattern s) as [v|] eqn:E;
      [|congruence].
    intros _. apply title_match_iff in E as (o & c & rest & E & Ho & Hc & _).
    exists o, v, c, rest. auto.
  - intros (o & v & c & rest & -> & Ho & Hc).
    destruct (sre_match title_flags title_pattern (o ++ v ++ c ++ rest))
      as [g|] eqn:E; [discriminate|].
    exfalso. rewrite title_pattern_eq in E.
    assert (H : exists g,
               sre_match title_flags
                 (lits (text "<title>")
                  ++ GROUP_LAZY_ANY :: lits (text "</title>") ++ [])
                 (o ++ v ++ c ++ rest) = Some g).
    { destruct (lazy (single_match title_flags ANY)
                  (sre_match title_flags (lits (text "</title>") ++ []))
                  (v ++ c ++ rest)) as [g|] eqn:El.
      - exists g. apply sre_match_lits. exists o, (v ++ c ++ rest).
        split; [reflexivity|].
        split; [apply same_ci_title; [exact plain_open|exact Ho]|].
        exact El.
      - exfalso. revert El. apply lazy_finds; [apply any_char|].
        apply closing_tag_iff. eauto. }
    destruct H as (g & H). congruence.
Qed.

Lemma extract_title_Some (content t : str) :
  extract_title content = Some t <->
  exists v, first_title content v /\ t = strip v.
Proof.
  unfold extract_title, first_title. split.
  - destruct (re_search title_flags title_pattern content) as [g|] eqn:E;
      [|discriminate].
    intros H. apply Some_eq in H. subst t. exists g. split; [|reflexivity].
    apply re_search_Some in E as (pre & rest & -> & Hm & Hleft).
    exists pre, rest. repeat split; [apply title_match_iff; exact Hm|].
    intros pre' s' v' Hs Hlen Ht. apply title_match_iff in Ht.
    rewrite (Hleft pre' s' Hs Hlen) in Ht. discriminate.
  - intros (v & (pre & s & -> & Ht & Hleft) & ->).
    assert (E : re_search title_flags title_pattern (pre ++ s) = Some v).
    { apply re_search_Some. exists pre, s. split; [reflexivity|].
      split; [apply title_match_iff; exact Ht|].
      intros pre' s' Hs Hlen.
      destruct (sre_match title_flags title_pattern s') as [v'|] eqn:E;
        [|reflexivity].
      apply title_match_iff in E. exfalso.
      exact (Hleft pre' s' v' Hs Hlen E). }
    rewrite E. reflexivity.
Qed.

Lemma extract_title_None (content : str) :
  extract_title content = None <-> ~ has_title content.
Proof.
  unfold extract_title, has_title.
  destruct (re_search title_flags title_pattern content) as [g|] eqn:E.
  - split; [discriminate|]. intros H. exfalso. apply H.
    apply re_search_Some in E as (pre & rest & -> & Hm & _).
    assert (Hn : sre_match title_flags title_pattern rest <> None)
      by congruence.
    apply title_match_exists in Hn as (o & v & c & r & -> & Ho & Hc).
    exists pre, o, v, c, r. auto.
  - split; [|reflexivity]. intros _ (pre & o & v & c & r & -> & Ho & Hc).
    assert (Hn : sre_match title_flags title_pattern (o ++ v ++ c ++ r)
                 <> None).
    { apply title_match_exists. exists o, v, c, r. auto. }
    apply Hn.
    exact (proj1 (re_search_None title_flags title_pattern
                    (pre ++ o ++ v ++ c ++ r)) E pre _ eq_refl).
Qed.

(** X12: where the content holds an opening title tag with a closing one
    after it (letters in either case, line breaks allowed in between),
    [extract_title] returns the trimmed text between the first such
    opening tag and the first closing tag after it; where it holds none,
    [extract_title] returns nothing. *)
Theorem extract_title_first_element (content : str) :
  (forall v, first_title content v ->
             extract_title content = Some (strip v))
  /\ (has_title content ->
      exists v, first_title content v
                /\ extract_title content = Some (strip v))
  /\ (~ has_title content -> extract_title content = None).
Proof.
  split; [|split].
  - intros v Hv. apply extract_title_Some. eauto.
  - intros Hc. destruct (extract_title content) as [d|] eqn:E.
    + apply extract_title_Some in E as (v & Hv & ->). eauto.
    + apply extract_title_None in E. contradiction.
  - apply extract_title_None.
Qed.

Lemma extract_title_first_element_witness :
  first_title titled_page ([NL] ++ text "  My Tool " ++ [NL])
  /\ extract_title titled_page = Some (text "My Tool").
Proof.
  assert (Hm : title_at titled_page ([NL] ++ text "  My Tool " ++ [NL]))
    by (apply title_match_iff; vm_compute; reflexivity).
  assert (H : first_title titled_page ([NL] ++ text "  My Tool " ++ [NL])).
  { exists [], titled_page. split; [reflexivity|]. split; [exact Hm|].
    intros pre' s' v' _ Hlen. inversion Hlen. }
  split; [exact H|].
  exact (proj1 (extract_title_first_element titled_page) _ H).
Defined.

(** ** Trimmed results *)

Lemma lstrip_app_nonspace (a b : str) (c : char) :
  is_space c = false -> lstrip (a ++ c :: b) = lstrip a ++ c :: b.
Proof.
  intros Hc. induction a as [|x a IH]; cbn [app lstrip].
  - rewrite Hc. reflexivity.
  - destruct (is_space x); [exact IH|reflexivity].
Qed.

(** A trimmed text neither begins nor ends with white space. *)
Lemma strip_ends (s : str) :
  (forall c r, strip s = c :: r -> is_space c = false)
  /\ (forall r c, strip s = r ++ [c] -> is_space c = false).
Proof.
  unfold strip, rstrip. split.
  - intros c r H. destruct (lstrip s) as [|c0 r0] eqn:E; [discriminate|].
    pose proof (lstrip_head _ E) as Hc0.
    cbn [rev] in H. rewrite lstrip_app_nonspace in H by exact Hc0.
    rewrite rev_app_distr in H. cbn [rev app] in H.
    injection H as <- _. exact Hc0.
  - intros r c H. apply (f_equal (@rev char)) in H.
    rewrite rev_involutive, rev_app_distr in H. cbn [rev app] in H.
    exact (lstrip_head _ H).
Qed.

Lemma lstrip_id (s : str) :
  (forall c r, s = c :: r -> is_space c = false) -> lstrip s = s.
Proof.
  intros H. destruct s as [|c r]; [reflexivity|].
  cbn [lstrip]. rewrite (H c r eq_refl). reflexivity.
Qed.

Lemma strip_strip (s : str) : strip (strip s) = strip s.
Proof.
  destruct (strip_ends s) as [Hhead Hlast].
  unfold strip at 1. rewrite (lstrip_id Hhead). unfold rstrip.
  rewrite lstrip_id; [apply rev_involutive|].
  intros c r E. apply (Hlast (rev r) c).
  rewrite <- (rev_involutive (strip s)), E. reflexivity.
Qed.

(** X13: a title or a description that the extractors return neither
    begins nor ends with white space, and trimming it again changes
    nothing. *)
Theorem extracted_text_trimmed (content t : str) :
  extract_title content = Some t \/ extract_description content = Some t ->
  strip t = t
  /\ (forall c r, t = c :: r -> is_space c = false)
  /\ (forall r c, t = r ++ [c] -> is_space c = false).
Proof.
  intros H.
  assert (Ht : exists g, t = strip g).
  { unfold extract_title, extract_description in H.
    destruct H as [H|H];
      match type of H with
      | match ?x with _ => _ end = _ => destruct x as [g|]
      end; try discriminate; apply Some_eq in H; eauto. }
  destruct Ht as (g & ->). split; [apply strip_strip|apply strip_ends].
Qed.

Lemma extracted_text_trimmed_witness :
  strip (text "My Tool") = text "My Tool".
Proof.
  apply (@extracted_text_trimmed titled_page (text "My Tool")).
  left. vm_compute. reflexivity.
Defined.

(** ** Rendering loses nothing *)

Lemma escape_char_cases (c : char) :
  (escape_char c = [c] /\ c <> 38%N)
  \/ (c = 38%N /\ escape_char c = [38; 97; 109; 112; 59]%N)
  \/ (c = 60%N /\ escape_char c = [38; 108; 116; 59]%N)
  \/ (c = 62%N /\ escape_char c = [38; 103; 116; 59]%N)
  \/ (c = 34%N /\ escape_char c = [38; 113; 117; 111; 116; 59]%N)
  \/ (c = 39%N /\ escape_char c = [38; 35; 120; 50; 55; 59]%N).
Proof.
  unfold escape_char.
  destruct (N.eqb c 38) eqn:E1; [apply N.eqb_eq in E1; auto|].
  destruct (N.eqb c 60) eqn:E2; [apply N.eqb_eq in E2; auto|].
  destruct (N.eqb c 62) eqn:E3; [apply N.eqb_eq in E3; auto 6|].
  destruct (N.eqb c DQUOTE) eqn:E4;
    [apply N.eqb_eq in E4; right; right; right; right; left; auto|].
  destruct (N.eqb c SQUOTE) eqn:E5;
    [apply N.eqb_eq in E5; right; right; right; right; right; auto|].
  apply N.eqb_neq in E1. auto.
Qed.

(** No escaped text holds a double quote or a less-than sign. *)
Lemma escape_char_clean (c q : char) :
  q = DQUOTE \/ q = 60%N -> ~ In q (escape_char c).
Proof.
  intros Hq Hin. unfold escape_char in Hin.
  destruct (N.eqb c 38) eqn:E1;
    [|destruct (N.eqb c 60) eqn:E2;
      [|destruct (N.eqb c 62) eqn:E3;
        [|destruct (N.eqb c DQUOTE) eqn:E4;
          [|destruct (N.eqb c SQUOTE) eqn:E5]]]];
    cbn in Hin;
    repeat match goal with
           | H : _ \/ _ |- _ => destruct H
           | H : False |- _ => destruct H
           end;
    subst; discriminate.
Qed.

Lemma escape_clean (s : str) (q : char) :
  q = DQUOTE \/ q = 60%N -> ~ In q (flat_map escape_char s).
Proof.
  intros Hq Hin. apply in_flat_map in Hin as (c & _ & Hin).
  exact (escape_char_clean c Hq Hin).
Qed.

Lemma escape_injective (s1 s2 : str) :
  flat_map escape_char s1 = flat_map escape_char s2 -> s1 = s2.
Proof.
  revert s2. induction s1 as [|a s1 IH]; intros [|b s2] H.
  - reflexivity.
  - exfalso. cbn [flat_map] in H.
    destruct (escape_char_cases b) as [[E _]|[[_ E]|[[_ E]|[[_ E]|[[_ E]|[_ E]]]]]];
      rewrite E in H; discriminate.
  - exfalso. cbn [flat_map] in H.
    destruct (escape_char_cases a) as [[E _]|[[_ E]|[[_ E]|[[_ E]|[[_ E]|[_ E]]]]]];
      rewrite E in H; discriminate.
  - cbn [flat_map] in H.
    destruct (escape_char_cases a)
      as [[Ea Na]|[[Ca Ea]|[[Ca Ea]|[[Ca Ea]|[[Ca Ea]|[Ca Ea]]]]]];
      destruct (escape_char_cases b)
        as [[Eb Nb]|[[Cb Eb]|[[Cb Eb]|[[Cb Eb]|[[Cb Eb]|[Cb Eb]]]]]];
      rewrite Ea, Eb in H; cbn [app] in H;
      try discriminate;
      try (injection H as H0 H; congruence);
      try (subst a b; f_equal; apply IH;
           repeat match type of H with
                  | _ :: _ = _ :: _ => injection H as H
                  end; exact H).
    injection H as H0 H. subst b. f_equal. apply IH. exact H.
Qed.

(** Two texts without [q], each followed by [q], end at the same place. *)
Lemma app_split_at (q : char) (a b x y : str) :
  ~ In q a -> ~ In q b -> a ++ q :: x = b ++ q :: y -> a = b /\ x = y.
Proof.
  revert b. induction a as [|c a IH]; intros [|d b] Ha Hb H;
    cbn [app] in H.
  - injection H as ->. auto.
  - injection H as -> _. exfalso. apply Hb. left. reflexivity.
  - injection H as -> _. exfalso. apply Ha. left. reflexivity.
  - injection H as -> H.
    destruct (IH b) as [-> ->]; auto;
      intros Hin; [apply Ha|apply Hb]; right; exact Hin.
Qed.

Lemma tool_item_split (t1 t2 : ToolInfo) (x y : str) :
  tool_item t1 ++ x = tool_item t2 ++ y -> t1 = t2 /\ x = y.
Proof.
  rewrite !tool_item_shape, <- !app_assoc. intros H.
  apply app_inv_head in H.
  change ITEM_LINK with (DQUOTE :: tl ITEM_LINK) in H.
  cbn [app] in H.
  apply app_split_at in H as [Hf H]; try (apply escape_clean; auto).
  apply app_inv_head in H.
  change ITEM_TEXT with (60%N :: tl ITEM_TEXT) in H.
  cbn [app] in H.
  apply app_split_at in H as [Ht H]; try (apply escape_clean; auto).
  apply app_inv_head in H.
  change ITEM_CLOSE with (60%N :: tl ITEM_CLOSE) in H.
  cbn [app] in H.
  apply app_split_at in H as [Hd H]; try (apply escape_clean; auto).
  apply app_inv_head in H.
  apply escape_injective in Hf, Ht, Hd.
  split; [|exact H].
  destruct t1 as [f1 n1 d1], t2 as [f2 n2 d2].
  cbn [filename title_of description] in *. congruence.
Qed.

Lemma render_cons (t : ToolInfo) (l : list ToolInfo) :
  _render_tools_html (t :: l)
  = tool_item t ++ match l with
                   | [] => []
                   | _ :: _ => NL :: _render_tools_html l
                   end.
Proof.
  unfold _render_tools_html. destruct l; cbn [List.map join].
  - rewrite app_nil_r. reflexivity.
  - reflexivity.
Qed.

Lemma render_nonempty (t : ToolInfo) (l : list ToolInfo) :
  _render_tools_html (t :: l) <> [].
Proof.
  rewrite render_cons, tool_item_shape. discriminate.
Qed.

(** X14: the rendered list determines the tools: two lists of tools with
    the same rendering are the same list. *)
Theorem render_tools_html_injective (l1 l2 : list ToolInfo) :
  _render_tools_html l1 = _render_tools_html l2 -> l1 = l2.
Proof.
  revert l2. induction l1 as [|t1 l1 IH]; intros [|t2 l2] H.
  - reflexivity.
  - symmetry in H. apply render_nonempty in H. contradiction.
  - apply render_nonempty in H. contradiction.
  - rewrite !render_cons in H. apply tool_item_split in H as [-> H].
    f_equal. destruct l1 as [|a l1], l2 as [|b l2]; try discriminate.
    + reflexivity.
    + injection H as H. apply IH. exact H.
Qed.

Lemma render_tools_html_injective_witness :
  [tool "a.html" "A & B" "<b>"; tool "b.html" "B" "it's"]
  = [tool "a.html" "A & B" "<b>"; tool "b.html" "B" "it's"].
Proof.
  apply render_tools_html_injective. vm_compute. reflexivity.
Defined.

(** ** What a run may change *)

Ltac main_outcome args w tools w1 new_content Hscan Hgen :=
  destruct (scan_tools (repo_dir w) None w) as [[tools|?e] w1] eqn:Hscan;
  [destruct (fst (generate_index_html tools TEMPLATE_NAME w1))
     as [new_content|?e] eqn:Hgen;
   [rewrite (@main_cases args _ _ _ _ Hscan Hgen)
   |rewrite (@main_generate_raises args _ _ _ _ Hscan Hgen)]
  |rewrite (@main_scan_raises args _ _ _ Hscan)];
  destruct (scan_tools_frame _ _ _ Hscan) as (?Hdir & ?Hent & ?Hout).

(** X15: whatever its flags and whatever happens, a run of [main] leaves
    every entry of the directory other than [index.html] as it was; under
    [--check] or [--dry-run] it leaves the whole directory as it was.  A
    run that ends with an exception leaves the whole directory as it was
    too, but for one case: without [--check] and [--dry-run], a content
    that cannot be encoded leaves [index.html] empty. *)
Theorem main_touches_only_index (args : Args) (w : world) (name : str) :
  (str_eqb INDEX_NAME name = false ->
   lookup name (entries (snd (main args w))) = lookup name (entries w))
  /\ (check args || dry_run args = true ->
      entries (snd (main args w)) = entries w)
  /\ (forall e, fst (main args w) = Raise e ->
                entries (snd (main args w)) = entries w
                \/ (e = UnicodeEncodeError
                    /\ check args = false /\ dry_run args = false
                    /\ entries (snd (main args w))
                       = store INDEX_NAME (File []) (entries w))).
Proof.
  main_outcome args w tools w1 new_content Hscan Hgen;
    cbn [fst snd]; try (rewrite Hent; repeat split; auto; fail).
  destruct (lookup INDEX_NAME (entries w)) as [n|];
    [destruct (content_of n) as [existing|e];
     [destruct (str_eqb existing new_content)|]|];
    destruct (check args), (dry_run args);
    try destruct (encode new_content) as [data|];
    cbn [fst snd orb printed warned written emptied entries];
    rewrite ?Hent; repeat split; auto; try discriminate;
    try (intros Hname; apply lookup_store_other, str_eqb_neq; exact Hname);
    intros e He; injection He as <-; right; auto.
Qed.

Lemma main_touches_only_index_witness :
  lookup TEMPLATE_NAME
    (entries (snd (main {| check := false; dry_run := false;
                           write := true |} stale_repo)))
  = lookup TEMPLATE_NAME (entries stale_repo)
  /\ entries (snd (main {| check := false; dry_run := false;
                           write := true |} surrogate_repo))
     = store INDEX_NAME (File []) (entries surrogate_repo).
Proof.
  split.
  - apply (proj1 (main_touches_only_index
                    {| check := false; dry_run := false; write := true |}
                    stale_repo TEMPLATE_NAME)).
    reflexivity.
  - destruct (proj2 (proj2 (main_touches_only_index
                              {| check := false; dry_run := false;
                                 write := true |}
                              surrogate_repo TEMPLATE_NAME))
                UnicodeEncodeError)
      as [H|(_ & _ & _ & H)].
    + vm_compute. reflexivity.
    + vm_compute in H. discriminate H.
    + exact H.
Defined.

(** X16: [main] returns 0 or 1, and it returns 1 only under [--check],
    having printed on the error stream, as its last line, that the index
    is out of date. *)
Theorem main_exit_codes (args : Args) (w : world) (n : Z) :
  fst (main args w) = Return n ->
  n = 0%Z
  \/ (n = 1%Z /\ check args = true
      /\ exists lines,
          stderr (snd (main args w))
          = lines ++ [text "index.html is out of date."]).
Proof.
  main_outcome args w tools w1 new_content Hscan Hgen;
    cbn [fst snd]; try discriminate.
  destruct (lookup INDEX_NAME (entries w)) as [i|];
    [destruct (content_of i) as [existing|e];
     [destruct (str_eqb existing new_content)|]|];
    destruct (check args), (dry_run args);
    try destruct (encode new_content) as [data|];
    cbn [fst snd]; intros H; try discriminate;
    injection H as <-; auto;
    right; repeat split; exists (stderr w1); reflexivity.
Qed.

Lemma main_exit_codes_witness :
  exists lines,
    stderr (snd (main {| check := true; dry_run := false; write := true |}
                   stale_repo))
    = lines ++ [text "index.html is out of date."].
Proof.
  destruct (@main_exit_codes
              {| check := true; dry_run := false; write := true |}
              stale_repo 1%Z)
    as [H|(_ & _ & H)].
  - vm_compute. reflexivity.
  - discriminate H.
  - exact H.
Defined.

(** ** The title derived from the file name *)

(** The case mappings beyond ASCII: a Greek capital, the final sigma, a
    mapping to two code points and a digraph with a title case of its
    own. *)
Example lower_beyond_ascii :
  lower [937; 46; 104; 116; 109; 108]%N = [969; 46; 104; 116; 109; 108]%N
  /\ lower [927; 916; 927; 931; 32; 931]%N
     = [959; 948; 959; 962; 32; 963]%N
  /\ lower [304]%N = [105; 775]%N.
Proof. vm_compute. auto. Qed.

Example title_beyond_ascii :
  title [969; 109; 101; 103; 97; 32; 454; 120]%N
  = [937; 109; 101; 103; 97; 32; 453; 120]%N
  /\ title [223; 65; 32; 64257; 66]%N = [83; 115; 97; 32; 70; 105; 98]%N.
Proof. vm_compute. auto. Qed.

Lemma rfind_from_last (c : char) (s t : str) (i : nat) :
  ~ In c t -> rfind_from c (s ++ c :: t) i = Some (i + length s).
Proof.
  intros Ht. revert i. induction s as [|x s IH]; intros i.
  - cbn [app rfind_from length].
    assert (E : forall j, rfind_from c t j = None).
    { clear i. induction t as [|y t IHt]; intros j; [reflexivity|].
      cbn [rfind_from]. rewrite IHt by (intros H; apply Ht; right; exact H).
      destruct (N.eqb_spec y c) as [->|_]; [|reflexivity].
      exfalso. apply Ht. left. reflexivity. }
    rewrite E, N.eqb_refl. f_equal. lia.
  - cbn [app rfind_from length]. rewrite IH. f_equal. lia.
Qed.

(** The stem of a name that ends in [.html]. *)
Lemma stem_html (s : str) :
  s <> [] -> stem (s ++ text ".html") = s.
Proof.
  intros Hne. unfold stem.
  change (text ".html") with (46%N :: text "html").
  rewrite rfind_from_last
    by (apply not_in_existsb; vm_compute; reflexivity).
  cbn [Nat.add]. rewrite length_app.
  change (length (46%N :: text "html")) with 5.
  assert (H0 : Nat.ltb 0 (length s) = true)
    by (apply Nat.ltb_lt; destruct s; [congruence|cbn [length]; lia]).
  assert (H1 : Nat.ltb (length s) (length s + 5 - 1) = true)
    by (apply Nat.ltb_lt; lia).
  rewrite H0, H1. cbn [andb].
  rewrite firstn_app, Nat.sub_diag, firstn_all. cbn [firstn].
  apply app_nil_r.
Qed.

Lemma replace_separators (s : str) :
  replace (text "_") (text " ") (replace (text "-") (text " ") s)
  = List.map spaced s.
Proof.
  change (text "_") with [95%N]. change (text "-") with [45%N].
  change (text " ") with [32%N]. rewrite !replace_one_char.
  induction s as [|c s IH]; [reflexivity|].
  cbn [flat_map List.map]. rewrite flat_map_app, IH. f_equal.
  unfold substitute, spaced.
  destruct (N.eqb_spec 45 c) as [<-|H1]; [reflexivity|].
  cbn [flat_map app].
  destruct (N.eqb_spec 95 c) as [<-|H2]; [reflexivity|].
  destruct (N.eqb_spec c 45); [congruence|].
  destruct (N.eqb_spec c 95); [congruence|]. reflexivity.
Qed.

Lemma spaced_clean (c : char) : spaced c <> 45%N /\ spaced c <> 95%N.
Proof.
  unfold spaced.
  destruct (N.eqb_spec c 45); [cbn; split; discriminate|].
  destruct (N.eqb_spec c 95); cbn; [split; discriminate|].
  split; assumption.
Qed.

Lemma find_image_avoids (q c x : char) (runs : list case_run) :
  forallb (run_avoids q) runs = true ->
  find_image c runs = Some x -> x <> q.
Proof.
  induction runs as [|[[[lo hi] step] image] runs IH]; [discriminate|].
  cbn [forallb find_image run_image run_avoids]. intros H.
  apply andb_true_iff in H as [Hr Hrest]. apply negb_true_iff in Hr.
  destruct (in_range lo hi c) eqn:Ec; cbn [andb];
    [destruct (N.eqb ((c - lo) mod step) 0)|]; try exact (IH Hrest).
  intros E. injection E as <-. intros Hx.
  apply in_range_spec in Ec. apply in_range_false in Hr. lia.
Qed.

(** The code point [q] comes out of a case mapping whose tables do not
    hold it only where it went in. *)
Lemma case_full_clean (runs : list case_run) (special : list (char * str))
    (c q : char) :
  forallb (run_avoids q) runs = true ->
  forallb (fun e => negb (existsb (N.eqb q) (snd e))) special = true ->
  c <> q -> ~ In q (case_full runs special c).
Proof.
  intros Hruns Hspecial Hc. unfold case_full.
  destruct (find_special c special) as [l|] eqn:E.
  - pose proof (@find_special_all (fun l => negb (existsb (N.eqb q) l))
                  c special l Hspecial E) as Hl.
    apply negb_true_iff in Hl. apply not_in_existsb. exact Hl.
  - destruct (find_image c runs) as [x|] eqn:Ex.
    + pose proof (@find_image_avoids q c x runs Hruns Ex) as Hx.
      intros [<-|[]]. congruence.
    + intros [<-|[]]. congruence.
Qed.

Lemma to_title_full_clean (c q : char) :
  q = 45%N \/ q = 95%N -> c <> q -> ~ In q (to_title_full c).
Proof.
  intros [->| ->]; apply case_full_clean; vm_compute; reflexivity.
Qed.

Lemma lower_ucs4_clean (before after : str) (c q : char) :
  q = 45%N \/ q = 95%N -> c <> q -> ~ In q (lower_ucs4 before c after).
Proof.
  intros Hq Hc. unfold lower_ucs4.
  destruct (N.eqb c 931).
  - unfold handle_capital_sigma.
    match goal with
    | |- context [if ?b then _ else _] => destruct b
    end; intros [<-|[]]; destruct Hq; discriminate.
  - revert Hc. destruct Hq as [->| ->]; apply case_full_clean;
      vm_compute; reflexivity.
Qed.

Lemma title_from_clean (q : char) (s before : str) (b : bool) :
  q = 45%N \/ q = 95%N -> ~ In q s -> ~ In q (title_from b before s).
Proof.
  intros Hq. revert b before.
  induction s as [|c s IH]; intros b before Hs; [exact Hs|].
  cbn [title_from]. intros H. apply in_app_or in H as [H|H].
  - assert (Hc : c <> q) by (intros ->; apply Hs; left; reflexivity).
    destruct b;
      [exact (@lower_ucs4_clean before s c q Hq Hc H)
      |exact (@to_title_full_clean c q Hq Hc H)].
  - apply (IH (is_cased c) (c :: before)); [|exact H].
    intros Hin. apply Hs. right. exact Hin.
Qed.

(** X17: for a file called [s.html], the title derived from the name is
    [s] in title case with every hyphen and underscore turned into a
    space, whatever dots [s] holds; no hyphen and no underscore is left
    in it. *)
Theorem derived_title_of_html_name (s : str) :
  s <> [] ->
  derived_title (s ++ text ".html") = title (List.map spaced s)
  /\ ~ In 45%N (derived_title (s ++ text ".html"))
  /\ ~ In 95%N (derived_title (s ++ text ".html")).
Proof.
  intros Hne.
  assert (E : derived_title (s ++ text ".html") = title (List.map spaced s)).
  { unfold derived_title. rewrite (stem_html Hne), replace_separators.
    reflexivity. }
  rewrite E. split; [reflexivity|].
  split; apply title_from_clean; auto;
    intros H; apply in_map_iff in H as (c & Hc & _);
    destruct (spaced_clean c); congruence.
Qed.

Lemma derived_title_of_html_name_witness :
  derived_title (text "my-cool_tool.v2.html") = text "My Cool Tool.V2"
  /\ derived_title ([969; 109; 101; 103; 97; 45; 454; 120]%N
                    ++ text ".html")
     = [937; 109; 101; 103; 97; 32; 453; 120]%N.
Proof.
  assert (Hne : text "my-cool_tool.v2" <> []) by discriminate.
  assert (Hne' : [969; 109; 101; 103; 97; 45; 454; 120]%N <> [])
    by discriminate.
  split.
  - exact (proj1 (derived_title_of_html_name Hne)).
  - exact (proj1 (derived_title_of_html_name Hne')).
Defined.

(** ** What the scan never lists *)

Lemma in_list_false (x : str) (l : list str) :
  in_list x l = false -> ~ In x l.
Proof.
  unfold in_list. induction l as [|y l IH]; cbn [existsb In]; [tauto|].
  intros H. apply orb_false_iff in H as [Hy Hl].
  intros [->|Hin]; [|exact (IH Hl Hin)].
  rewrite str_eqb_refl in Hy. discriminate.
Qed.

(** X18: under the default exclusions, every tool that [scan_tools]
    returns is named after an entry of the directory whose name ends in
    [.html], and none is the index or its template, in whatever case
    their names are written. *)
Theorem scan_tools_never_lists_index (directory : str) (w w' : world)
    (tools : list ToolInfo) (t : ToolInfo) :
  scan_tools directory None w = (Return tools, w') ->
  In t tools ->
  (exists n, In (filename t, n) (entries w))
  /\ ends_with (text ".html") (filename t) = true
  /\ lower (filename t) <> text "index.html"
  /\ lower (filename t) <> text "index.template.html".
Proof.
  intros Hscan Ht.
  destruct (@scan_tools_made_from _ _ _ _ _ _ Hscan Ht)
    as (name & n & content & d & Hin & Hex & _ & _ & ->).
  cbn [tool_of filename].
  apply filter_In in Hin as [Hin Hend]. cbn [fst] in Hend.
  split; [eauto|]. split; [exact Hend|].
  unfold is_excluded in Hex. apply in_list_false in Hex.
  split; intros E; apply Hex; rewrite E; vm_compute; auto.
Qed.

Lemma scan_tools_never_lists_index_witness :
  lower (text "a.html") <> text "index.html".
Proof.
  assert (Hscan : scan_tools (repo_dir stale_repo) None stale_repo
                  = (Return [tool "a.html" "A" "A tool"], stale_repo))
    by (vm_compute; reflexivity).
  assert (Hin : In (tool "a.html" "A" "A tool")
                  [tool "a.html" "A" "A tool"])
    by (left; reflexivity).
  exact (proj1 (proj2 (proj2 (@scan_tools_never_lists_index _ _ _ _ _
                                Hscan Hin)))).
Defined.
